(** * CREATE TABLE descriptor construction: a shallow embedding of
      pkg/sql/create_table.go

    The development follows the order of the source file:
    [getTableCreateParams] and [startExec], [ResolveFK] and [addIndexForFK],
    [addInterleave] and [finalizeInterleave], [NewTableDesc] with its column
    and constraint passes, and the hash-shard helpers [makeShardColumnDesc],
    [makeHashShardComputeExpr] and [makeShardCheckConstraintDef].

    Conventions.
    - Go integers are [Z]; a conversion that can wrap is written out
      ([uint32], [int32]).
    - A Go function returning [error] returns a [result]; a run-time panic
      (index out of range, nil dereference) is the outcome [Panic].
    - Descriptors that the source holds through pointers live in a store
      addressed by [ptr]; two names for one Go object are one [ptr].
    - Code of other packages (tabledesc, resolver, catalogkv, sem/tree, types)
      is not part of this file's source; it is taken as the interfaces
      [Types], [Catalog], [ShardEnv], [BuildEnv], [Planner] and
      [AssembleEnv], and every statement below holds for all their
      implementations. [Ref] gives one
      small implementation on which the statements are exercised. *)

From Stdlib Require Import ZArith String List Bool Lia DecimalString.
From stdpp Require Import base gmap strings list.
Set Warnings "-register-all".
Open Scope Z_scope.

(** ** Errors and results *)

Module pgcode.
Inductive Code :=
| InvalidForeignKey
| InvalidTableDefinition
| InvalidSchemaDefinition
| Syntax
| DatatypeMismatch
| DuplicateObject
| DuplicateRelation
| DuplicateColumn
| ForeignKeyViolation
| FeatureNotSupported
| InsufficientPrivilege
| UndefinedColumn
| UndefinedTable
| InvalidParameterValue
| Uncategorized.

Definition eqb (a b : Code) : bool :=
  match a, b with
  | InvalidForeignKey, InvalidForeignKey
  | InvalidTableDefinition, InvalidTableDefinition
  | InvalidSchemaDefinition, InvalidSchemaDefinition
  | Syntax, Syntax
  | DatatypeMismatch, DatatypeMismatch
  | DuplicateObject, DuplicateObject
  | DuplicateRelation, DuplicateRelation
  | DuplicateColumn, DuplicateColumn
  | ForeignKeyViolation, ForeignKeyViolation
  | FeatureNotSupported, FeatureNotSupported
  | InsufficientPrivilege, InsufficientPrivilege
  | UndefinedColumn, UndefinedColumn
  | UndefinedTable, UndefinedTable
  | InvalidParameterValue, InvalidParameterValue
  | Uncategorized, Uncategorized => true
  | _, _ => false
  end.
End pgcode.

(** An error value. The format string of the source is kept (it tells the
    sites of one function apart); the formatted arguments are not. *)
Inductive error :=
| Newf (code : pgcode.Code) (format : string)   (* pgerror.Newf, pgerror.New *)
| NewWithIssue (issue : Z) (msg : string)       (* unimplemented.NewWithIssue[f] *)
| AssertionFailedf (format : string)            (* errors.AssertionFailedf *)
| Errorf (format : string).                     (* errors.Errorf, errors.Newf *)

(** [pgerror.GetPGCode]: the code carried by an error built in this file. *)
Definition GetPGCode (e : error) : pgcode.Code :=
  match e with
  | Newf c _ => c
  | NewWithIssue _ _ => pgcode.FeatureNotSupported
  | AssertionFailedf _ => pgcode.Uncategorized
  | Errorf _ => pgcode.Uncategorized
  end.

Inductive result (A : Type) :=
| Ok (a : A)
| Err (e : error)
| Panic.
Arguments Ok {A} a.
Arguments Err {A} e.
Arguments Panic {A}.

Definition isOk {A} (r : result A) : bool :=
  match r with Ok _ => true | _ => false end.

Definition isErr {A} (r : result A) : bool :=
  match r with Err _ => true | _ => false end.

Definition rbind {A B} (r : result A) (k : A -> result B) : result B :=
  match r with
  | Ok a => k a
  | Err e => Err e
  | Panic => Panic
  end.

Declare Scope result_scope.
Delimit Scope result_scope with res.
Notation "'let*' x := r 'in' k" := (rbind r (fun x => k))
  (at level 10, x pattern, r at level 100, k at level 200) : result_scope.

(** A slice index expression [s[i]]: out of range panics. *)
Definition index {A} (s : list A) (i : nat) : result A :=
  match s !! i with
  | Some a => Ok a
  | None => Panic
  end.

(** Conversions between Go integer types. *)
Definition uint32 (z : Z) : Z := z mod 2 ^ 32.
Definition int32 (z : Z) : Z := (z + 2 ^ 31) mod 2 ^ 32 - 2 ^ 31.

(** [strconv.Itoa]. *)
Definition Itoa (i : Z) : string := NilZero.string_of_int (Z.to_int i).

(** ** types.T *)

(** The SQL type representation and the two comparisons the source uses,
    and the types of other packages whose values the source only hands
    on. *)
Inductive Family :=
| ArrayFamily
| GeographyFamily
| GeometryFamily
| Box2DFamily
| OtherFamily (n : Z).

Class Types := {
  types_T : Type;
  types_Int4 : types_T;
  types_String : types_T;
  Equivalent : types_T -> types_T -> bool;
  Identical : types_T -> types_T -> bool;
  types_Family : types_T -> Family;
  ArrayContents : types_T -> types_T;
  Oid : types_T -> Z;
  (* tree.ResolvableTypeReference and tree.ResolveType *)
  TypeReference : Type;
  ResolveType : TypeReference -> result types_T;
  (* tree.TypedExpr *)
  TypedExpr : Type;
  (* tree.Expr as parser.ParseExpr returns it *)
  ParsedExpr : Type;
  (* tree.StorageParams and tree.PartitionBy, which the source hands on *)
  StorageParams : Type;
  PartitionBy : Type;
  (* descpb.PartitioningDescriptor and geoindex.Config, and their zero
     values *)
  PartitioningDescriptor : Type;
  PartitioningDescriptor_zero : PartitioningDescriptor;
  GeoConfig : Type;
  GeoConfig_zero : GeoConfig;
}.

(** oid.T_int2vector and oid.T_oidvector (github.com/lib/pq/oid). *)
Definition T_int2vector : Z := 22.
Definition T_oidvector : Z := 30.

(** ** descpb enumerations *)

(** descpb.DescriptorState. *)
Inductive DescriptorState :=
| DescriptorState_PUBLIC
| DescriptorState_ADD
| DescriptorState_DROP
| DescriptorState_OFFLINE.

(** Modelled from the spec: the declaration of descpb.ConstraintValidity
    is not under src/. The data model gives a constraint the validity
    Unvalidated, Validating or Validated (and Dropping while it is
    removed). The values are numbered as the enumeration declares them,
    Validated being 0: a Go variable of this type that is declared and not
    assigned holds Validated, which is how ResolveFK creates a constraint
    "without the unvalidated flag" on a table that has no data yet. *)
Inductive ConstraintValidity :=
| ConstraintValidity_Validated
| ConstraintValidity_Unvalidated
| ConstraintValidity_Validating
| ConstraintValidity_Dropping.

Definition ConstraintValidity_value (v : ConstraintValidity) : Z :=
  match v with
  | ConstraintValidity_Validated => 0
  | ConstraintValidity_Unvalidated => 1
  | ConstraintValidity_Validating => 2
  | ConstraintValidity_Dropping => 3
  end.

(** [var validity descpb.ConstraintValidity]. *)
Definition ConstraintValidity_zero : ConstraintValidity :=
  ConstraintValidity_Validated.

Inductive IndexDescriptor_Direction :=
| IndexDescriptor_ASC
| IndexDescriptor_DESC.

Definition Direction_eqb (a b : IndexDescriptor_Direction) : bool :=
  match a, b with
  | IndexDescriptor_ASC, IndexDescriptor_ASC
  | IndexDescriptor_DESC, IndexDescriptor_DESC => true
  | _, _ => false
  end.

(** descpb.IndexDescriptor_Type. *)
Inductive IndexDescriptor_Type :=
| IndexDescriptor_FORWARD
| IndexDescriptor_INVERTED.

(** descpb.ShardedDescriptor; [ShardBuckets] is an int32. *)
Record ShardedDescriptor := {
  IsSharded : bool;
  sh_Name : string;
  ShardBuckets : Z;
  sh_ColumnNames : list string;
}.

Definition ShardedDescriptor_zero : ShardedDescriptor :=
  {| IsSharded := false; sh_Name := EmptyString; ShardBuckets := 0;
     sh_ColumnNames := [] |}.

(** descpb.TableDescriptor_LocalityConfig: [Locality] is one of the three
    variants, or nil. *)
Inductive LocalityConfig_Locality :=
| LocalityConfig_Global
| LocalityConfig_RegionalByTable (Region : option string)
| LocalityConfig_RegionalByRow.

Record TableDescriptor_LocalityConfig := {
  Locality : option LocalityConfig_Locality;
}.

Inductive DescriptorMutation_Direction :=
| DescriptorMutation_NONE
| DescriptorMutation_ADD
| DescriptorMutation_DROP.

(** ** sem/tree enumerations *)

(** tree.ReferenceAction. *)
Inductive ReferenceAction :=
| NoAction
| Restrict
| SetNull
| SetDefault
| Cascade.

Definition ReferenceAction_eqb (a b : ReferenceAction) : bool :=
  match a, b with
  | NoAction, NoAction | Restrict, Restrict | SetNull, SetNull
  | SetDefault, SetDefault | Cascade, Cascade => true
  | _, _ => false
  end.

(** tree.CompositeKeyMatchMethod. *)
Inductive CompositeKeyMatchMethod :=
| MatchSimple
| MatchFull
| MatchPartial.

(** tree.ValidationBehavior. *)
Inductive ValidationBehavior :=
| ValidationDefault
| ValidationSkip.

(** tree.DropBehavior. *)
Inductive DropBehavior :=
| DropDefault
| DropRestrict
| DropCascade.

(** FKTableState is the state of the referencing table ResolveFK() is
    called on. *)
Inductive FKTableState :=
| NewTable
| EmptyTable
| NonEmptyTable.

Definition FKTableState_eqb (a b : FKTableState) : bool :=
  match a, b with
  | NewTable, NewTable | EmptyTable, EmptyTable
  | NonEmptyTable, NonEmptyTable => true
  | _, _ => false
  end.

(** descpb.ForeignKeyReference_Action and descpb.ForeignKeyReference_Match,
    the stored counterparts of the two tree enumerations. *)
Inductive ForeignKeyReference_Action :=
| ForeignKeyReference_NO_ACTION
| ForeignKeyReference_RESTRICT
| ForeignKeyReference_SET_DEFAULT
| ForeignKeyReference_SET_NULL
| ForeignKeyReference_CASCADE.

Inductive ForeignKeyReference_Match :=
| ForeignKeyReference_SIMPLE
| ForeignKeyReference_FULL
| ForeignKeyReference_PARTIAL.

(** ** Descriptors (descpb) *)

Section Descriptors.
Context {types : Types}.

Record ColumnDescriptor := {
  col_ID : Z;
  col_Name : string;
  col_Type : types_T;
  col_Nullable : bool;
  col_DefaultExpr : option string;
  col_ComputeExpr : option string;
  col_Hidden : bool;
}.

(** descpb.InterleaveDescriptor_Ancestor; [SharedPrefixLen] is a uint32. *)
Record InterleaveDescriptor_Ancestor := {
  anc_TableID : Z;
  anc_IndexID : Z;
  anc_SharedPrefixLen : Z;
}.

(** descpb.ForeignKeyReference, as used in [InterleavedBy]. *)
Record ForeignKeyReference := {
  ref_Table : Z;
  ref_Index : Z;
}.

Record IndexDescriptor := {
  idx_ID : Z;
  idx_Name : string;
  idx_Unique : bool;
  idx_ColumnNames : list string;
  idx_ColumnDirections : list IndexDescriptor_Direction;
  idx_ColumnIDs : list Z;
  idx_Interleave : list InterleaveDescriptor_Ancestor;  (* Interleave.Ancestors *)
  idx_InterleavedBy : list ForeignKeyReference;
  idx_Version : Z;
  idx_StoreColumnNames : list string;
  idx_Type : IndexDescriptor_Type;
  idx_GeoConfig : GeoConfig;
  idx_Partitioning : PartitioningDescriptor;
  idx_Predicate : string;
  idx_Sharded : ShardedDescriptor;
}.

Record ForeignKeyConstraint := {
  OriginTableID : Z;
  OriginColumnIDs : list Z;
  ReferencedColumnIDs : list Z;
  ReferencedTableID : Z;
  fk_Name : string;
  Validity : ConstraintValidity;
  OnDelete : ForeignKeyReference_Action;
  OnUpdate : ForeignKeyReference_Action;
  Match : ForeignKeyReference_Match;
}.

(** descpb.TableDescriptor_CheckConstraint. *)
Record CheckConstraint := {
  ck_Name : string;
  ck_Expr : string;
  ck_Hidden : bool;
}.

(** descpb.DescriptorMutation: the queued element and its direction. *)
Inductive DescriptorMutation_Descriptor :=
| DescriptorMutation_Column (c : ColumnDescriptor)
| DescriptorMutation_Index (i : IndexDescriptor)
| DescriptorMutation_Constraint (fk : ForeignKeyConstraint).

Record DescriptorMutation := {
  Descriptor_ : DescriptorMutation_Descriptor;
  mut_Direction : DescriptorMutation_Direction;
}.

(** [DescriptorMutation.GetIndex]: the index, or nil. *)
Definition GetIndex (m : DescriptorMutation) : option IndexDescriptor :=
  match Descriptor_ m with
  | DescriptorMutation_Index i => Some i
  | _ => None
  end.

(** tabledesc.Mutable, the fields this file reads or writes. *)
Record Mutable := {
  ID : Z;
  ParentID : Z;
  Name : string;
  Temporary : bool;
  State : DescriptorState;
  Columns : list ColumnDescriptor;
  PrimaryIndex : IndexDescriptor;
  Indexes : list IndexDescriptor;
  Checks : list CheckConstraint;
  OutboundFKs : list ForeignKeyConstraint;
  InboundFKs : list ForeignKeyConstraint;
  Mutations : list DescriptorMutation;
  LocalityConfig : option TableDescriptor_LocalityConfig;
}.

Definition set_State (s : DescriptorState) (t : Mutable) : Mutable :=
  {| ID := ID t; ParentID := ParentID t; Name := Name t;
     Temporary := Temporary t; State := s; Columns := Columns t;
     PrimaryIndex := PrimaryIndex t; Indexes := Indexes t;
     Checks := Checks t; OutboundFKs := OutboundFKs t;
     InboundFKs := InboundFKs t; Mutations := Mutations t;
     LocalityConfig := LocalityConfig t |}.

Definition set_OutboundFKs (l : list ForeignKeyConstraint) (t : Mutable) : Mutable :=
  {| ID := ID t; ParentID := ParentID t; Name := Name t;
     Temporary := Temporary t; State := State t; Columns := Columns t;
     PrimaryIndex := PrimaryIndex t; Indexes := Indexes t;
     Checks := Checks t; OutboundFKs := l;
     InboundFKs := InboundFKs t; Mutations := Mutations t;
     LocalityConfig := LocalityConfig t |}.

Definition set_InboundFKs (l : list ForeignKeyConstraint) (t : Mutable) : Mutable :=
  {| ID := ID t; ParentID := ParentID t; Name := Name t;
     Temporary := Temporary t; State := State t; Columns := Columns t;
     PrimaryIndex := PrimaryIndex t; Indexes := Indexes t;
     Checks := Checks t; OutboundFKs := OutboundFKs t;
     InboundFKs := l; Mutations := Mutations t;
     LocalityConfig := LocalityConfig t |}.

Definition set_Columns (l : list ColumnDescriptor) (t : Mutable) : Mutable :=
  {| ID := ID t; ParentID := ParentID t; Name := Name t;
     Temporary := Temporary t; State := State t; Columns := l;
     PrimaryIndex := PrimaryIndex t; Indexes := Indexes t;
     Checks := Checks t; OutboundFKs := OutboundFKs t;
     InboundFKs := InboundFKs t; Mutations := Mutations t;
     LocalityConfig := LocalityConfig t |}.

Definition set_Checks (l : list CheckConstraint) (t : Mutable) : Mutable :=
  {| ID := ID t; ParentID := ParentID t; Name := Name t;
     Temporary := Temporary t; State := State t; Columns := Columns t;
     PrimaryIndex := PrimaryIndex t; Indexes := Indexes t;
     Checks := l; OutboundFKs := OutboundFKs t;
     InboundFKs := InboundFKs t; Mutations := Mutations t;
     LocalityConfig := LocalityConfig t |}.

Definition set_PrimaryIndex (i : IndexDescriptor) (t : Mutable) : Mutable :=
  {| ID := ID t; ParentID := ParentID t; Name := Name t;
     Temporary := Temporary t; State := State t; Columns := Columns t;
     PrimaryIndex := i; Indexes := Indexes t;
     Checks := Checks t; OutboundFKs := OutboundFKs t;
     InboundFKs := InboundFKs t; Mutations := Mutations t;
     LocalityConfig := LocalityConfig t |}.

Definition set_Interleave (a : list InterleaveDescriptor_Ancestor)
    (i : IndexDescriptor) : IndexDescriptor :=
  {| idx_ID := idx_ID i; idx_Name := idx_Name i; idx_Unique := idx_Unique i;
     idx_ColumnNames := idx_ColumnNames i;
     idx_ColumnDirections := idx_ColumnDirections i;
     idx_ColumnIDs := idx_ColumnIDs i; idx_Interleave := a;
     idx_InterleavedBy := idx_InterleavedBy i; idx_Version := idx_Version i;
     idx_StoreColumnNames := idx_StoreColumnNames i;
     idx_Type := idx_Type i; idx_GeoConfig := idx_GeoConfig i;
     idx_Partitioning := idx_Partitioning i;
     idx_Predicate := idx_Predicate i; idx_Sharded := idx_Sharded i |}.

Definition set_InterleavedBy (l : list ForeignKeyReference)
    (i : IndexDescriptor) : IndexDescriptor :=
  {| idx_ID := idx_ID i; idx_Name := idx_Name i; idx_Unique := idx_Unique i;
     idx_ColumnNames := idx_ColumnNames i;
     idx_ColumnDirections := idx_ColumnDirections i;
     idx_ColumnIDs := idx_ColumnIDs i; idx_Interleave := idx_Interleave i;
     idx_InterleavedBy := l; idx_Version := idx_Version i;
     idx_StoreColumnNames := idx_StoreColumnNames i;
     idx_Type := idx_Type i; idx_GeoConfig := idx_GeoConfig i;
     idx_Partitioning := idx_Partitioning i;
     idx_Predicate := idx_Predicate i; idx_Sharded := idx_Sharded i |}.

Definition set_Version (v : Z) (i : IndexDescriptor) : IndexDescriptor :=
  {| idx_ID := idx_ID i; idx_Name := idx_Name i; idx_Unique := idx_Unique i;
     idx_ColumnNames := idx_ColumnNames i;
     idx_ColumnDirections := idx_ColumnDirections i;
     idx_ColumnIDs := idx_ColumnIDs i; idx_Interleave := idx_Interleave i;
     idx_InterleavedBy := idx_InterleavedBy i; idx_Version := v;
     idx_StoreColumnNames := idx_StoreColumnNames i;
     idx_Type := idx_Type i; idx_GeoConfig := idx_GeoConfig i;
     idx_Partitioning := idx_Partitioning i;
     idx_Predicate := idx_Predicate i; idx_Sharded := idx_Sharded i |}.

Definition set_Type (ty : IndexDescriptor_Type) (i : IndexDescriptor)
  : IndexDescriptor :=
  {| idx_ID := idx_ID i; idx_Name := idx_Name i; idx_Unique := idx_Unique i;
     idx_ColumnNames := idx_ColumnNames i;
     idx_ColumnDirections := idx_ColumnDirections i;
     idx_ColumnIDs := idx_ColumnIDs i; idx_Interleave := idx_Interleave i;
     idx_InterleavedBy := idx_InterleavedBy i; idx_Version := idx_Version i;
     idx_StoreColumnNames := idx_StoreColumnNames i;
     idx_Type := ty; idx_GeoConfig := idx_GeoConfig i;
     idx_Partitioning := idx_Partitioning i;
     idx_Predicate := idx_Predicate i; idx_Sharded := idx_Sharded i |}.

Definition set_GeoConfig (c : GeoConfig) (i : IndexDescriptor)
  : IndexDescriptor :=
  {| idx_ID := idx_ID i; idx_Name := idx_Name i; idx_Unique := idx_Unique i;
     idx_ColumnNames := idx_ColumnNames i;
     idx_ColumnDirections := idx_ColumnDirections i;
     idx_ColumnIDs := idx_ColumnIDs i; idx_Interleave := idx_Interleave i;
     idx_InterleavedBy := idx_InterleavedBy i; idx_Version := idx_Version i;
     idx_StoreColumnNames := idx_StoreColumnNames i;
     idx_Type := idx_Type i; idx_GeoConfig := c;
     idx_Partitioning := idx_Partitioning i;
     idx_Predicate := idx_Predicate i; idx_Sharded := idx_Sharded i |}.

Definition set_Partitioning (p : PartitioningDescriptor) (i : IndexDescriptor)
  : IndexDescriptor :=
  {| idx_ID := idx_ID i; idx_Name := idx_Name i; idx_Unique := idx_Unique i;
     idx_ColumnNames := idx_ColumnNames i;
     idx_ColumnDirections := idx_ColumnDirections i;
     idx_ColumnIDs := idx_ColumnIDs i; idx_Interleave := idx_Interleave i;
     idx_InterleavedBy := idx_InterleavedBy i; idx_Version := idx_Version i;
     idx_StoreColumnNames := idx_StoreColumnNames i;
     idx_Type := idx_Type i; idx_GeoConfig := idx_GeoConfig i;
     idx_Partitioning := p;
     idx_Predicate := idx_Predicate i; idx_Sharded := idx_Sharded i |}.

Definition set_Predicate (e : string) (i : IndexDescriptor) : IndexDescriptor :=
  {| idx_ID := idx_ID i; idx_Name := idx_Name i; idx_Unique := idx_Unique i;
     idx_ColumnNames := idx_ColumnNames i;
     idx_ColumnDirections := idx_ColumnDirections i;
     idx_ColumnIDs := idx_ColumnIDs i; idx_Interleave := idx_Interleave i;
     idx_InterleavedBy := idx_InterleavedBy i; idx_Version := idx_Version i;
     idx_StoreColumnNames := idx_StoreColumnNames i;
     idx_Type := idx_Type i; idx_GeoConfig := idx_GeoConfig i;
     idx_Partitioning := idx_Partitioning i;
     idx_Predicate := e; idx_Sharded := idx_Sharded i |}.

Definition set_Nullable (b : bool) (c : ColumnDescriptor) : ColumnDescriptor :=
  {| col_ID := col_ID c; col_Name := col_Name c; col_Type := col_Type c;
     col_Nullable := b; col_DefaultExpr := col_DefaultExpr c;
     col_ComputeExpr := col_ComputeExpr c; col_Hidden := col_Hidden c |}.

Definition set_ComputeExpr (e : option string) (c : ColumnDescriptor)
  : ColumnDescriptor :=
  {| col_ID := col_ID c; col_Name := col_Name c; col_Type := col_Type c;
     col_Nullable := col_Nullable c; col_DefaultExpr := col_DefaultExpr c;
     col_ComputeExpr := e; col_Hidden := col_Hidden c |}.

Definition set_LocalityConfig (l : option TableDescriptor_LocalityConfig)
    (t : Mutable) : Mutable :=
  {| ID := ID t; ParentID := ParentID t; Name := Name t;
     Temporary := Temporary t; State := State t; Columns := Columns t;
     PrimaryIndex := PrimaryIndex t; Indexes := Indexes t;
     Checks := Checks t; OutboundFKs := OutboundFKs t;
     InboundFKs := InboundFKs t; Mutations := Mutations t;
     LocalityConfig := l |}.

(** [desc.Adding()]. *)
Definition Adding (t : Mutable) : bool :=
  match State t with DescriptorState_ADD => true | _ => false end.

End Descriptors.

(** ** sem/tree: the statement fragments the source consumes *)

(** tree.TableName: catalog, schema and object name. *)
Record TableName := {
  tn_Catalog : string;
  tn_Schema : string;
  tn_Object : string;
}.

Definition TableName_eqb (a b : TableName) : bool :=
  String.eqb (tn_Catalog a) (tn_Catalog b)
  && String.eqb (tn_Schema a) (tn_Schema b)
  && String.eqb (tn_Object a) (tn_Object b).

Record ForeignKeyConstraintTableDef := {
  fkd_Name : string;
  fkd_Table : TableName;
  fkd_FromCols : list string;
  fkd_ToCols : list string;
  fkd_Match : CompositeKeyMatchMethod;
  fkd_Delete : ReferenceAction;     (* Actions.Delete *)
  fkd_Update : ReferenceAction;     (* Actions.Update *)
}.

Record InterleaveDef := {
  ild_Parent : TableName;
  ild_Fields : list string;
  ild_DropBehavior : DropBehavior;
}.

(** cluster.Settings as read by ResolveFK: the value of the cluster setting
    [allowCrossDatabaseFKs] and whether [clusterversion.NoOriginFKIndexes]
    is active. *)
Record Settings := {
  allowCrossDatabaseFKs : bool;
  NoOriginFKIndexes_active : bool;
}.

(** sessiondata.SessionData, the fields read by NewTableDesc. *)
Record SessionData := {
  HashShardedIndexesEnabled : bool;
  EnableMultiColumnInvertedIndexes : bool;
  RequireExplicitPrimaryKeys : bool;
}.

(** tree.EvalContext; [Settings] and [SessionData] are pointers and may be
    nil. *)
Record EvalContext := {
  ec_Settings : option Settings;
  ec_SessionData : option SessionData;
}.

(** ** The tabledesc and descpb operations called by the source *)

Section Interfaces.
Context {types : Types}.

Class Catalog := {
  FindActiveOrNewColumnByName : Mutable -> string -> result ColumnDescriptor;
  CheckCanBeFKRef : ColumnDescriptor -> result unit;
  FindActiveColumnsByNames :
    Mutable -> list string -> result (list ColumnDescriptor);
  (* the keys of the map returned by GetConstraintInfo *)
  GetConstraintInfo : Mutable -> result (gset string);
  GenerateUniqueConstraintName : string -> (string -> bool) -> string;
  FindFKOriginIndexInTxn : Mutable -> list Z -> result IndexDescriptor;
  FindFKReferencedIndex : Mutable -> list Z -> result IndexDescriptor;
  FindColumnByID : Mutable -> Z -> result ColumnDescriptor;
  ValidateIndexNameIsUnique : Mutable -> string -> result unit;
  (* methods on a pointer receiver: the descriptor after the call, and the
     error if any *)
  AddIndex : IndexDescriptor -> bool -> Mutable -> result unit * Mutable;
  AddIndexMutation :
    IndexDescriptor -> DescriptorMutation_Direction -> Mutable ->
    result unit * Mutable;
  AddForeignKeyMutation :
    ForeignKeyConstraint -> DescriptorMutation_Direction -> Mutable -> Mutable;
  AllocateIDs : Mutable -> result unit * Mutable;
  (* the two conversion tables of descpb *)
  ForeignKeyReferenceActionValue : ReferenceAction -> ForeignKeyReference_Action;
  CompositeKeyMatchMethodValue :
    CompositeKeyMatchMethod -> ForeignKeyReference_Match;
}.

End Interfaces.

(** ** The descriptor store *)

(** A [*tabledesc.Mutable]. *)
Definition ptr := nat.

Section Store.
Context {types : Types}.

(** The descriptors reachable during a call, the [backrefs] map
    ([map[descpb.ID]*tabledesc.Mutable], called [affected] by the callers)
    that ResolveFK edits in place, and the transaction's descriptor writes. *)
Record store := {
  heap : gmap ptr Mutable;
  backrefs : gmap Z ptr;
  (* what has been written to the descriptor table in this transaction:
     the descriptor ID and the descriptor as written *)
  written : list (Z * Mutable);
}.

(** A computation that edits the store and may fail; the edits made before
    a failure stay, as they do behind Go pointers. *)
Definition M (A : Type) := store -> result A * store.

Definition mret {A} (a : A) : M A := fun s => (Ok a, s).

Definition mbind' {A B} (m : M A) (k : A -> M B) : M B :=
  fun s =>
    match m s with
    | (Ok a, s') => k a s'
    | (Err e, s') => (Err e, s')
    | (Panic, s') => (Panic, s')
    end.

Definition lift {A} (r : result A) : M A := fun s => (r, s).

Definition fail {A} (e : error) : M A := fun s => (Err e, s).

(** [*p]. *)
Definition load (p : ptr) : M Mutable :=
  fun s =>
    match heap s !! p with
    | Some t => (Ok t, s)
    | None => (Panic, s)
    end.

(** The store with another heap. *)
Definition with_heap (h : gmap ptr Mutable) (s : store) : store :=
  {| heap := h; backrefs := backrefs s; written := written s |}.

Definition store_at (p : ptr) (t : Mutable) : M unit :=
  fun s => (Ok tt, with_heap (<[p := t]> (heap s)) s).

(** An assignment to a field of [*p]. *)
Definition modify (p : ptr) (f : Mutable -> Mutable) : M unit :=
  mbind' (load p) (fun t => store_at p (f t)).

(** A call of a pointer-receiver method that returns an error. *)
Definition call (p : ptr) (f : Mutable -> result unit * Mutable) : M unit :=
  mbind' (load p) (fun t =>
    mbind' (store_at p (snd (f t))) (fun _ => lift (fst (f t)))).

Definition lookup_backref (id : Z) : M (option ptr) :=
  fun s => (Ok (backrefs s !! id), s).

Definition insert_backref (id : Z) (p : ptr) : M unit :=
  fun s => (Ok tt, {| heap := heap s; backrefs := <[id := p]> (backrefs s);
                      written := written s |}).

End Store.

Declare Scope M_scope.
Delimit Scope M_scope with M.
Notation "'let*' x := m 'in' k" := (mbind' m (fun x => k))
  (at level 10, x pattern, m at level 100, k at level 200) : M_scope.

(** resolver.SchemaResolver, as used through
    [ResolveMutableExistingTableObject]: a name is resolved to a descriptor
    object of the store. *)
Definition SchemaResolver := TableName -> result ptr.

(** ** ResolveFK and addIndexForFK *)

Section ForeignKeys.
Context {types : Types} {cat : Catalog}.

(** [tbl.Indexes[len(tbl.Indexes)-1]]. *)
Definition last_elem {A} (l : list A) : result A :=
  match last l with
  | Some a => Ok a
  | None => Panic
  end.

(** The index descriptor built by addIndexForFK: auto-named, over the names
    of [srcCols], every direction ascending, all other fields zero. *)
Definition autoIndex (t : Mutable) (srcCols : list ColumnDescriptor)
    (constraintName : string) : IndexDescriptor :=
  {| idx_ID := 0;
     idx_Name :=
       GenerateUniqueConstraintName
         (Name t +:+ "_auto_index_" +:+ constraintName)
         (fun name => negb (isOk (ValidateIndexNameIsUnique t name)));
     idx_Unique := false;
     idx_ColumnNames := map col_Name srcCols;
     idx_ColumnDirections := map (fun _ => IndexDescriptor_ASC) srcCols;
     idx_ColumnIDs := []; idx_Interleave := []; idx_InterleavedBy := [];
     idx_Version := 0;
     idx_StoreColumnNames := []; idx_Type := IndexDescriptor_FORWARD;
     idx_GeoConfig := GeoConfig_zero;
     idx_Partitioning := PartitioningDescriptor_zero;
     idx_Predicate := EmptyString;
     idx_Sharded := ShardedDescriptor_zero |}.

(** addIndexForFK: adds an index to a table descriptor (that is in the
    process of being created) that will support using [srcCols] as the
    referencing (src) side of an FK. *)
Definition addIndexForFK (tbl : ptr) (srcCols : list ColumnDescriptor)
    (constraintName : string) (ts : FKTableState) : M Z :=
  (let* t := load tbl in
   let idx := autoIndex t srcCols constraintName in
   if FKTableState_eqb ts NewTable then
     let* _ := call tbl (AddIndex idx false) in
     let* _ := call tbl AllocateIDs in
     let* t := load tbl in
     let* added := lift (last_elem (Indexes t)) in
     mret (idx_ID added)
   else
     (* In the EmptyTable case, we add an index mutation, making this the
        only case where a foreign key is added to an index being added. *)
     let* _ := call tbl (AddIndexMutation idx DescriptorMutation_ADD) in
     let* _ := call tbl AllocateIDs in
     let* t := load tbl in
     let* m := lift (last_elem (Mutations t)) in
     match GetIndex m with
     | Some i => mret (idx_ID i)
     | None => lift Panic
     end)%M.

(** The loop over [d.FromCols] (the origin columns, without duplicates). *)
Fixpoint resolveOriginCols (tbl : Mutable) (FromCols : list string)
    (originColSet : gset Z) (originCols : list ColumnDescriptor)
  : result (list ColumnDescriptor) :=
  match FromCols with
  | [] => Ok originCols
  | col :: rest =>
      (let* col := FindActiveOrNewColumnByName tbl col in
       let* _ := CheckCanBeFKRef col in
       if bool_decide (col_ID col ∈ originColSet) then
         Err (Newf pgcode.InvalidForeignKey
                "foreign key contains duplicate column %q")
       else
         resolveOriginCols tbl rest ({[col_ID col]} ∪ originColSet)
           (originCols ++ [col]))%res
  end.

(** The loop comparing [originCols[i]] with [referencedCols[i]]. *)
Fixpoint checkColumnTypes (originCols referencedCols : list ColumnDescriptor)
  : result unit :=
  match originCols with
  | [] => Ok tt
  | s :: originCols' =>
      match referencedCols with
      | [] => Panic
      | t :: referencedCols' =>
          if negb (Equivalent (col_Type s) (col_Type t)) then
            Err (Newf pgcode.DatatypeMismatch
                   "type of %q (%s) does not match foreign key %q.%q (%s)")
          else checkColumnTypes originCols' referencedCols'
      end
  end.

(** The loop over [originColumnIDs] that builds the column list of the
    ForeignKeyViolation message. *)
Fixpoint originColumnNames (tbl : Mutable) (originColumnIDs : list Z)
  : result unit :=
  match originColumnIDs with
  | [] => Ok tt
  | id :: rest =>
      (let* _ := FindColumnByID tbl id in originColumnNames tbl rest)%res
  end.

(** ResolveFK is embedded as the sequence of its five parts, in the order
    of the source. *)

(** Lines 619-682: the origin columns, the target table, the checks on
    database and persistence, and the choice of the target object to
    edit. *)
Definition resolveTarget (sc : SchemaResolver) (tbl : ptr)
    (d : ForeignKeyConstraintTableDef) (ts : FKTableState)
    (evalCtx : EvalContext) : M (list ColumnDescriptor * ptr) :=
  (let* t := load tbl in
   let* originCols := lift (resolveOriginCols t (fkd_FromCols d) ∅ []) in
   let* target := lift (sc (fkd_Table d)) in
   let* tg := load target in
   let* _ :=
     if negb (ParentID tg =? ParentID t) then
       match ec_Settings evalCtx with
       | None => lift Panic
       | Some st =>
           if negb (allowCrossDatabaseFKs st) then
             fail (Newf pgcode.InvalidForeignKey
               "foreign references between databases are not allowed (see the '%s' cluster setting)")
           else mret tt
       end
     else mret tt in
   let* _ :=
     if negb (eqb (Temporary t) (Temporary tg)) then
       fail (Newf pgcode.InvalidTableDefinition
               "constraints on %s tables may reference only %s tables")
     else mret tt in
   if ID tg =? ID t then
     (* When adding a self-ref FK to an _existing_ table, we want to make
        sure we edit the same copy. *)
     mret (originCols, tbl)
   else
     (* Since this FK is referencing another table, this table must be
        created in a non-public "ADD" state. *)
     let* _ :=
       if FKTableState_eqb ts NewTable then
         modify tbl (set_State DescriptorState_ADD)
       else mret tt in
     (* If we resolve the same table more than once, we only want to edit
        a single instance of it, so replace target with previously
        resolved table. *)
     let* prev := lookup_backref (ID tg) in
     match prev with
     | Some prev => mret (originCols, prev)
     | None =>
         let* _ := insert_backref (ID tg) target in
         mret (originCols, target)
     end)%M.

(** Lines 684-734: the referenced columns, their number and types, and the
    constraint name. *)
Definition resolveReferenced (tbl target : ptr)
    (d : ForeignKeyConstraintTableDef) (originCols : list ColumnDescriptor)
  : M (list ColumnDescriptor * string) :=
  (let* tg := load target in
   let referencedColNames :=
     if (length (fkd_ToCols d) =? 0)%nat
     then idx_ColumnNames (PrimaryIndex tg)
     else fkd_ToCols d in
   let* referencedCols :=
     lift (FindActiveColumnsByNames tg referencedColNames) in
   let* _ :=
     if negb (length referencedCols =? length originCols)%nat then
       fail (Newf pgcode.Syntax
         "%d columns must reference exactly %d columns in referenced table (found %d)")
     else mret tt in
   let* _ := lift (checkColumnTypes originCols referencedCols) in
   let* t := load tbl in
   let* constraintInfo := lift (GetConstraintInfo t) in
   let* constraintName :=
     if String.eqb (fkd_Name d) EmptyString then
       let* c0 := lift (index (fkd_FromCols d) 0) in
       mret (GenerateUniqueConstraintName
               ("fk_" +:+ c0 +:+ "_ref_" +:+ Name tg)
               (fun p => bool_decide (p ∈ constraintInfo)))
     else if bool_decide (fkd_Name d ∈ constraintInfo) then
       fail (Newf pgcode.DuplicateObject "duplicate constraint name: %q")
     else mret (fkd_Name d) in
   mret (referencedCols, constraintName))%M.

(** [d.Actions.Delete == tree.SetNull || d.Actions.Update == tree.SetNull]
    and the same for SET DEFAULT. *)
Definition hasAction (a : ReferenceAction) (d : ForeignKeyConstraintTableDef)
  : bool :=
  ReferenceAction_eqb (fkd_Delete d) a || ReferenceAction_eqb (fkd_Update d) a.

(** Lines 746-773. Don't add a SET NULL action on an index that has any
    column that is NOT NULL; don't add a SET DEFAULT action on an index
    that has any column that has a DEFAULT expression of NULL and a NOT
    NULL constraint. *)
Definition checkActions (d : ForeignKeyConstraintTableDef)
    (originCols : list ColumnDescriptor) : result unit :=
  (let* _ :=
     if hasAction SetNull d then
       if existsb (fun originColumn => negb (col_Nullable originColumn))
            originCols then
         Err (Newf pgcode.InvalidForeignKey
           "cannot add a SET NULL cascading action on column %q which has a NOT NULL constraint")
       else Ok tt
     else Ok tt in
   if hasAction SetDefault d then
     if existsb (fun originColumn =>
                   match col_DefaultExpr originColumn with
                   | None => negb (col_Nullable originColumn)
                   | Some _ => false
                   end) originCols then
       Err (Newf pgcode.InvalidForeignKey
         "cannot add a SET DEFAULT cascading action on column %q which has a NOT NULL constraint and a NULL default expression")
     else Ok tt
   else Ok tt)%res.

(** [evalCtx.Settings != nil &&
     !evalCtx.Settings.Version.IsActive(ctx, clusterversion.NoOriginFKIndexes)]. *)
Definition originIndexRequired (evalCtx : EvalContext) : bool :=
  match ec_Settings evalCtx with
  | Some st => negb (NoOriginFKIndexes_active st)
  | None => false
  end.

(** Lines 775-807: check if the version is high enough to stop creating
    origin indexes; below it, search for an index on the origin table that
    matches and, if one doesn't exist, create one automatically if the
    table to alter is new or empty. *)
Definition ensureOriginIndex (tbl : ptr) (ts : FKTableState)
    (evalCtx : EvalContext) (originCols : list ColumnDescriptor)
    (constraintName : string) : M unit :=
  (if originIndexRequired evalCtx then
     let* t := load tbl in
     let originColumnIDs := map col_ID originCols in
     match FindFKOriginIndexInTxn t originColumnIDs with
     | Ok _ => mret tt
     | Panic => lift Panic
     | Err _ =>
         (* No existing suitable index was found. *)
         if FKTableState_eqb ts NonEmptyTable then
           let* _ := lift (originColumnNames t originColumnIDs) in
           fail (Newf pgcode.ForeignKeyViolation
                   "foreign key requires an existing index on columns %s")
         else
           let* _ := addIndexForFK tbl originCols constraintName ts in
           mret tt
     end
   else mret tt)%M.

(** [var validity descpb.ConstraintValidity] and the assignment under
    [ts != NewTable]. *)
Definition validityFor (ts : FKTableState)
    (validationBehavior : ValidationBehavior) : ConstraintValidity :=
  if negb (FKTableState_eqb ts NewTable) then
    match validationBehavior with
    | ValidationSkip => ConstraintValidity_Unvalidated
    | ValidationDefault => ConstraintValidity_Validating
    end
  else ConstraintValidity_zero.

(** The [ref] record of lines 824-834. *)
Definition makeRef (t tg : Mutable) (d : ForeignKeyConstraintTableDef)
    (ts : FKTableState) (validationBehavior : ValidationBehavior)
    (originCols referencedCols : list ColumnDescriptor)
    (constraintName : string) : ForeignKeyConstraint :=
  {| OriginTableID := ID t;
     OriginColumnIDs := map col_ID originCols;
     ReferencedColumnIDs := map col_ID referencedCols;
     ReferencedTableID := ID tg;
     fk_Name := constraintName;
     Validity := validityFor ts validationBehavior;
     OnDelete := ForeignKeyReferenceActionValue (fkd_Delete d);
     OnUpdate := ForeignKeyReferenceActionValue (fkd_Update d);
     Match := CompositeKeyMatchMethodValue (fkd_Match d) |}.

(** Lines 809-843: ensure that there is an index on the referenced side to
    use, build the constraint and add it. *)
Definition addConstraint (tbl target : ptr)
    (d : ForeignKeyConstraintTableDef) (ts : FKTableState)
    (validationBehavior : ValidationBehavior)
    (originCols referencedCols : list ColumnDescriptor)
    (constraintName : string) : M unit :=
  (let* tg := load target in
   let* _ := lift (FindFKReferencedIndex tg (map col_ID referencedCols)) in
   let* t := load tbl in
   let ref := makeRef t tg d ts validationBehavior originCols referencedCols
                constraintName in
   if FKTableState_eqb ts NewTable then
     let* _ := modify tbl (fun t => set_OutboundFKs (OutboundFKs t ++ [ref]) t) in
     modify target (fun t => set_InboundFKs (InboundFKs t ++ [ref]) t)
   else
     modify tbl (AddForeignKeyMutation ref DescriptorMutation_ADD))%M.

(** ResolveFK looks up the tables and columns mentioned in a [REFERENCES]
    constraint and adds metadata representing that constraint to the
    descriptor. It may, in doing so, add to or alter descriptors in the
    passed in [backrefs] map of other tables that need to be updated when
    this table is created. The text of an error message is not formed, so
    [qualifyFKColErrorWithDB] has no counterpart. *)
Definition ResolveFK (sc : SchemaResolver) (tbl : ptr)
    (d : ForeignKeyConstraintTableDef) (ts : FKTableState)
    (validationBehavior : ValidationBehavior) (evalCtx : EvalContext)
  : M unit :=
  (let* (originCols, target) := resolveTarget sc tbl d ts evalCtx in
   let* (referencedCols, constraintName) :=
     resolveReferenced tbl target d originCols in
   let* _ := lift (checkActions d originCols) in
   let* _ := ensureOriginIndex tbl ts evalCtx originCols constraintName in
   addConstraint tbl target d ts validationBehavior originCols referencedCols
     constraintName)%M.

(** *** Names for the intermediate descriptors of ResolveFK *)

(** The origin table after addIndexForFK. *)
Definition withAutoIndex (ts : FKTableState) (t : Mutable)
    (srcCols : list ColumnDescriptor) (constraintName : string) : Mutable :=
  if FKTableState_eqb ts NewTable then
    snd (AllocateIDs (snd (AddIndex (autoIndex t srcCols constraintName) false t)))
  else
    snd (AllocateIDs
           (snd (AddIndexMutation (autoIndex t srcCols constraintName)
                   DescriptorMutation_ADD t))).

(** Whether ensureOriginIndex has to add an index to [t]. *)
Definition needsAutoIndex (evalCtx : EvalContext) (t : Mutable)
    (originCols : list ColumnDescriptor) : bool :=
  originIndexRequired evalCtx
  && isErr (FindFKOriginIndexInTxn t (map col_ID originCols)).

(** The origin table as addConstraint finds it: in the ADD state if a new
    table references another table, and with the automatic index if one
    was needed. *)
Definition originBefore (ts : FKTableState) (evalCtx : EvalContext)
    (selfRef : bool) (t : Mutable) (oc : list ColumnDescriptor)
    (cn : string) : Mutable :=
  let t1 := if negb selfRef && FKTableState_eqb ts NewTable
            then set_State DescriptorState_ADD t else t in
  if needsAutoIndex evalCtx t1 oc then withAutoIndex ts t1 oc cn else t1.

End ForeignKeys.

(** ** addInterleave *)

Section Interleave.
Context {types : Types} {cat : Catalog}.

(** The loop over [parentIndex.ColumnIDs]; [i] is the loop index. *)
Fixpoint interleaveColumns (parentTable desc : Mutable)
    (parentIndex index_ : IndexDescriptor) (Fields : list string)
    (i : nat) (ColumnIDs : list Z) : result unit :=
  match ColumnIDs with
  | [] => Ok tt
  | targetColID :: rest =>
      (let* targetCol := FindColumnByID parentTable targetColID in
       let* colID := index (idx_ColumnIDs index_) i in
       let* col := FindColumnByID desc colID in
       let* field := index Fields i in
       if negb (String.eqb field (col_Name col)) then
         Err (Newf pgcode.InvalidSchemaDefinition
           "declared interleaved columns (%s) must refer to a prefix of the %s column names being interleaved (%s)")
       else if negb (Identical (col_Type col) (col_Type targetCol)) then
         Err (Newf pgcode.InvalidSchemaDefinition
           "declared interleaved columns (%s) must match type and sort direction of the parent's primary index (%s)")
       else
         let* dir := index (idx_ColumnDirections index_) i in
         let* parentDir := index (idx_ColumnDirections parentIndex) i in
         if negb (Direction_eqb dir parentDir) then
           Err (Newf pgcode.InvalidSchemaDefinition
             "declared interleaved columns (%s) must match type and sort direction of the parent's primary index (%s)")
         else
           interleaveColumns parentTable desc parentIndex index_ Fields
             (S i) rest)%res
  end.

(** The loop [intl.SharedPrefixLen -= ancestor.SharedPrefixLen], in uint32. *)
Definition sharedPrefixLen (ancestorPrefix : list InterleaveDescriptor_Ancestor)
    (start : Z) : Z :=
  fold_left (fun len ancestor => uint32 (len - anc_SharedPrefixLen ancestor))
    ancestorPrefix start.

(** addInterleave marks an index as one that is interleaved in some parent
    data according to the given definition. [vt] resolves the parent table
    ([resolver.ResolveExistingTableObject]); [index_] is the descriptor
    behind the [index] pointer. The result is the descriptor and the index
    after the call; nothing is written before the last error site. *)
Definition addInterleave (vt : TableName -> result Mutable)
    (desc : Mutable) (index_ : IndexDescriptor) (interleave : InterleaveDef)
  : result (Mutable * IndexDescriptor) :=
  match ild_DropBehavior interleave with
  | DropDefault =>
      (let* parentTable := vt (ild_Parent interleave) in
       let parentIndex := PrimaryIndex parentTable in
       if negb (length (ild_Fields interleave)
                =? length (idx_ColumnIDs parentIndex))%nat then
         Err (Newf pgcode.InvalidSchemaDefinition
           "declared interleaved columns (%s) must match the parent's primary index (%s)")
       else if (length (idx_ColumnIDs index_)
                <? length (ild_Fields interleave))%nat then
         Err (Newf pgcode.InvalidSchemaDefinition
           "declared interleaved columns (%s) must be a prefix of the %s columns being interleaved (%s)")
       else
         let* _ := interleaveColumns parentTable desc parentIndex index_
                     (ild_Fields interleave) 0 (idx_ColumnIDs parentIndex) in
         let ancestorPrefix := idx_Interleave parentIndex in
         let intl :=
           {| anc_TableID := ID parentTable;
              anc_IndexID := idx_ID parentIndex;
              anc_SharedPrefixLen :=
                sharedPrefixLen ancestorPrefix
                  (uint32 (Z.of_nat (length (idx_ColumnIDs parentIndex)))) |} in
         Ok (set_State DescriptorState_ADD desc,
             set_Interleave (ancestorPrefix ++ [intl]) index_))%res
  | _ => Err (NewWithIssue 7854 "unsupported shorthand %s")
  end.

(** The call in NewTableDesc, [addInterleave(ctx, txn, vt, &desc,
    &desc.PrimaryIndex, n.Interleave)]: the index is the descriptor's own
    primary index. *)
Definition addInterleavePrimary (vt : TableName -> result Mutable)
    (desc : Mutable) (interleave : InterleaveDef) : result Mutable :=
  (let* (desc', index') := addInterleave vt desc (PrimaryIndex desc) interleave in
   Ok (set_PrimaryIndex index' desc'))%res.

End Interleave.

(** ** Hash-sharded indexes: the shard column and its check constraint *)

(** tree.UnresolvedName; [Parts] is a [4]string. *)
Record UnresolvedName := {
  NumParts : Z;
  Parts : list string;
}.

Inductive BinaryOperator := Plus | Minus | Mult.
Inductive ComparisonOperator := EQ | tree_In | NotIn.

Section Shard.
Context {types : Types}.

(** tree.Expr, the node kinds built by this file. [NilExpr] is the nil
    interface value. *)
Inductive Expr :=
| NilExpr
| FuncExpr (Func : UnresolvedName) (Exprs : list Expr)
| CoalesceExpr (Name : string) (Exprs : list Expr)
| CastExpr (Expr_ : Expr) (Type_ : types_T)
| ColumnItem (ColumnName : string)
| DString (s : string)
| DInt (i : Z)
| BinaryExpr (Operator : BinaryOperator) (Left Right : Expr)
| ComparisonExpr (Operator : ComparisonOperator) (Left Right : Expr)
| Tuple (Exprs : list Expr)
| NumVal (value : Z) (origString : string) (negative : bool).

Record CheckConstraintTableDef := {
  ckd_Name : string;
  ckd_Expr : Expr;
  ckd_Hidden : bool;
}.

(** The formatter and the shard-column naming of other packages. *)
Class ShardEnv := {
  (* tree.Serialize; formatting a nil node panics *)
  Serialize : Expr -> result string;
  (* tabledesc.GetShardColumnName(colNames, buckets int32) *)
  GetShardColumnName : list string -> Z -> string;
}.

Context {env : ShardEnv}.

Definition unresolvedFunc (funcName : string) : UnresolvedName :=
  {| NumParts := 1;
     Parts := [funcName; EmptyString; EmptyString; EmptyString] |}.

Definition hashedColumnExpr (colName : string) : Expr :=
  FuncExpr (unresolvedFunc "fnv32")
    [CoalesceExpr "COALESCE"
       [CastExpr (ColumnItem colName) types_String; DString EmptyString]].

(** One iteration of the loop [for i := len(colNames) - 1; i >= 0; i--]. *)
Definition sumStep (expr : Expr) (c : string) : Expr :=
  match expr with
  | NilExpr => hashedColumnExpr c
  | _ => BinaryExpr Plus (hashedColumnExpr c) expr
  end.

(** The expression which is the sum of all of the casted and hashed
    columns: the loop runs from the last column name to the first. *)
Definition hashSumExpr (colNames : list string) : Expr :=
  fold_left sumStep (rev colNames) NilExpr.

(** makeHashShardComputeExpr creates the serialized computed expression for
    a hash shard column based on the column names and the number of
    buckets. *)
Definition makeHashShardComputeExpr (colNames : list string) (buckets : Z)
  : result string :=
  Serialize (FuncExpr (unresolvedFunc "mod")
               [hashSumExpr colNames; DInt buckets]).

(** makeShardColumnDesc returns a new column descriptor for a hidden
    computed shard column based on all the [colNames]. *)
Definition makeShardColumnDesc (colNames : list string) (buckets : Z)
  : result ColumnDescriptor :=
  (let* computeExpr := makeHashShardComputeExpr colNames buckets in
   Ok {| col_ID := 0;
         col_Name := GetShardColumnName colNames (int32 buckets);
         col_Type := types_Int4;
         col_Nullable := false;
         col_DefaultExpr := None;
         col_ComputeExpr := Some computeExpr;
         col_Hidden := true |})%res.

(** The loop [for i := 0; i < buckets; i++] of makeShardCheckConstraintDef. *)
Definition shardValues (buckets : Z) : list Expr :=
  map (fun i => NumVal (Z.of_nat i) (Itoa (Z.of_nat i)) false)
      (seq 0 (Z.to_nat buckets)).

Definition makeShardCheckConstraintDef (desc : Mutable) (buckets : Z)
    (shardCol : ColumnDescriptor) : result CheckConstraintTableDef :=
  Ok {| ckd_Name := EmptyString;
        ckd_Expr := ComparisonExpr tree_In
                      (ColumnItem (col_Name shardCol))
                      (Tuple (shardValues buckets));
        ckd_Hidden := true |}.

End Shard.

(** ** NewTableDesc: the column pass and the constraint pass *)

(** clusterversion.Key, the keys named in this file. *)
Inductive clusterversion_Key :=
| GeospatialType
| Box2DType
| EmptyArraysInInvertedIndexes
| NoOriginFKIndexes.

(** clusterversion.ClusterVersion, through its method [IsActive]. *)
Record ClusterVersion := {
  IsActive : clusterversion_Key -> bool;
}.

(** minimumTypeUsageVersions defines the minimum version needed for a new
    data type. *)
Definition minimumTypeUsageVersions (f : Family) : option clusterversion_Key :=
  match f with
  | GeographyFamily => Some GeospatialType
  | GeometryFamily => Some GeospatialType
  | Box2DFamily => Some Box2DType
  | _ => None
  end.

(** The package variable of create_index.go. *)
Definition hashShardedIndexesDisabledError : error :=
  Newf pgcode.FeatureNotSupported
    "hash sharded indexes require the experimental_enable_hash_sharded_indexes session variable".

Section NewTableDesc.
Context {types : Types} {cat : Catalog} {env : ShardEnv}.

(** isTypeSupportedInVersion returns whether a given type is supported in
    the given version. *)
Definition isTypeSupportedInVersion (v : ClusterVersion) (t : types_T)
  : result bool :=
  let t := match types_Family t with
           | ArrayFamily => ArrayContents t
           | _ => t
           end in
  match minimumTypeUsageVersions (types_Family t) with
  | None => Ok true
  | Some minVersion => Ok (IsActive v minVersion)
  end.

(** tree.ColumnTableDef, as read by the column pass. *)
Record ColumnTableDef := {
  ctd_Name : string;
  ctd_Type : TypeReference;
  ctd_IsPrimaryKey : bool;      (* PrimaryKey.IsPrimaryKey *)
  ctd_Sharded : bool;           (* PrimaryKey.Sharded *)
  ctd_ShardBuckets : Expr;      (* PrimaryKey.ShardBuckets *)
  ctd_IsVirtual : bool;         (* IsVirtual() *)
  ctd_IsComputed : bool;        (* IsComputed() *)
  ctd_HasDefaultExpr : bool;    (* HasDefaultExpr() *)
  ctd_HasColumnFamily : bool;   (* HasColumnFamily() *)
  ctd_FamilyName : string;      (* Family.Name *)
}.

(** tree.Direction. *)
Inductive tree_Direction :=
| DefaultDirection
| Ascending
| Descending.

(** tree.IndexElem. *)
Record IndexElem := {
  ie_Column : string;
  ie_Direction : tree_Direction;
}.

(** tree.IndexTableDef. [Sharded] points to a tree.ShardedIndexDef, of
    which the source reads [ShardBuckets]; [Interleave], [PartitionBy] and
    [Predicate] may be nil. *)
Record IndexTableDef := {
  itd_Name : string;
  itd_Columns : list IndexElem;
  itd_Sharded : option Expr;
  itd_Storing : list string;
  itd_Interleave : option InterleaveDef;
  itd_Inverted : bool;
  itd_PartitionBy : option PartitionBy;
  itd_StorageParams : StorageParams;
  itd_Predicate : option Expr;
}.

(** tree.UniqueConstraintTableDef, which embeds an IndexTableDef. *)
Record UniqueConstraintTableDef := {
  uctd_IndexTableDef : IndexTableDef;
  uctd_PrimaryKey : bool;
  uctd_WithoutIndex : bool;
}.

(** tree.FamilyTableDef. *)
Record FamilyTableDef := {
  ftd_Name : string;
  ftd_Columns : list string;
}.

(** tree.TableDef. NewTableDesc does not read a LIKE definition;
    [OtherTableDef] is any other implementation of the interface. *)
Inductive TableDef :=
| Def_Column (d : ColumnTableDef)
| Def_Index (d : IndexTableDef)
| Def_UniqueConstraint (d : UniqueConstraintTableDef)
| Def_CheckConstraint (d : CheckConstraintTableDef)
| Def_ForeignKeyConstraint (d : ForeignKeyConstraintTableDef)
| Def_Family (d : FamilyTableDef)
| Def_LikeTable
| OtherTableDef.

Class BuildEnv := {
  IsVirtualTable : Mutable -> bool;
  (* tabledesc.EvalShardBucketCount: an int32 *)
  EvalShardBucketCount : Expr -> result Z;
  (* tabledesc.MakeColumnDefDescs: col, idx (or nil), expr (or nil) *)
  MakeColumnDefDescs :
    ColumnTableDef ->
    result (ColumnDescriptor * option IndexDescriptor * option TypedExpr);
  AddColumnToFamilyMaybeCreate :
    string -> string -> bool -> bool -> Mutable -> result unit * Mutable;
  (* schemaexpr.CheckConstraintBuilder and its method Build, which reads the
     descriptor under construction and keeps the names it has given out *)
  CheckConstraintBuilder : Type;
  Build :
    CheckConstraintBuilder -> Mutable -> CheckConstraintTableDef ->
    result CheckConstraint * CheckConstraintBuilder;
}.

Context {benv : BuildEnv}.

(** Modelled from the spec: [Mutable.AddColumn] (tabledesc) is not under
    src/. The descriptor holds an ordered sequence of Columns; a column
    built by the column pass is added at its end. *)
Definition AddColumn (col : ColumnDescriptor) (desc : Mutable) : Mutable :=
  set_Columns (Columns desc ++ [col]) desc.

(** Modelled from the spec: [maybeCreateAndAddShardCol] (create_index.go) is
    not under src/. For a hash-sharded definition it synthesizes the hidden
    shard column with [makeShardColumnDesc] and, on a new table, adds it to
    the descriptor; a hidden column of that name already in the descriptor
    is reused, and the second result tells whether a column was created. *)
Definition maybeCreateAndAddShardCol (shardBuckets : Z) (desc : Mutable)
    (colNames : list string) (isNewTable : bool)
  : result (ColumnDescriptor * bool * Mutable) :=
  (let* shardCol := makeShardColumnDesc colNames shardBuckets in
   match find (fun c => String.eqb (col_Name c) (col_Name shardCol))
              (Columns desc) with
   | Some existingShardCol =>
       if negb (col_Hidden existingShardCol) then
         Err (Newf pgcode.DuplicateColumn
                "column %s already specified; can't be used for sharding")
       else Ok (existingShardCol, false, desc)
   | None => Ok (shardCol, true, AddColumn shardCol desc)
   end)%res.

(** The local state of the column pass: the descriptor, [n.Defs] and
    [columnDefaultExprs]. *)
Record columnPassState := {
  cp_desc : Mutable;
  cp_Defs : list TableDef;
  cp_columnDefaultExprs : list (option TypedExpr);
}.

(** [s[i] = x]. *)
Definition assign {A} (s : list A) (i : nat) (x : A) : result (list A) :=
  if (i <? length s)%nat then Ok (<[i := x]> s) else Panic.

(** [r], for a method that returns an error and edits its receiver, when
    the caller drops the receiver on error. *)
Definition commit (r : result unit * Mutable) : result Mutable :=
  match r with
  | (Ok _, t) => Ok t
  | (Err e, _) => Err e
  | (Panic, _) => Panic
  end.

(** The body of the first loop of NewTableDesc for a column definition [d]
    at position [i] of [n.Defs]. *)
Definition columnDef (PartitionBy Interleave HashShardedIndexesEnabled : bool)
    (version : ClusterVersion) (indexEncodingVersion : Z)
    (i : nat) (d : ColumnTableDef) (st : columnPassState)
  : result columnPassState :=
  (let* defType := ResolveType (ctd_Type d) in
   let* _ :=
     if negb (IsVirtualTable (cp_desc st))
        && ((Oid defType =? T_int2vector) || (Oid defType =? T_oidvector)) then
       Err (Newf pgcode.FeatureNotSupported "VECTOR column types are unsupported")
     else Ok tt in
   let* supported := isTypeSupportedInVersion version defType in
   let* _ :=
     if negb supported then
       Err (Newf pgcode.FeatureNotSupported
              "type %s is not supported until version upgrade is finalized")
     else Ok tt in
   let* st :=
     if ctd_Sharded d then
       if negb HashShardedIndexesEnabled then
         Err hashShardedIndexesDisabledError
       else if PartitionBy then
         Err (Newf pgcode.FeatureNotSupported
                "sharded indexes don't support partitioning")
       else if Interleave then
         Err (Newf pgcode.FeatureNotSupported
                "interleaved indexes cannot also be hash sharded")
       else
         let* buckets := EvalShardBucketCount (ctd_ShardBuckets d) in
         let* (shardCol, _, desc) :=
           maybeCreateAndAddShardCol buckets (cp_desc st) [ctd_Name d] true in
         let* checkConstraint :=
           makeShardCheckConstraintDef desc buckets shardCol in
         (* Add the shard's check constraint to the list of TableDefs to
            treat it like it's been "hoisted" like the explicitly added
            check constraints. *)
         Ok {| cp_desc := desc;
               cp_Defs := cp_Defs st ++ [Def_CheckConstraint checkConstraint];
               cp_columnDefaultExprs := cp_columnDefaultExprs st ++ [None] |}
     else Ok st in
   if ctd_IsVirtual d then
     Err (NewWithIssue 57608 "virtual computed columns")
   else
     let* (col, idx, expr) := MakeColumnDefDescs d in
     let desc := AddColumn col (cp_desc st) in
     let* columnDefaultExprs :=
       assign (cp_columnDefaultExprs st) i
         (if ctd_HasDefaultExpr d then expr else None) in
     let* desc :=
       match idx with
       | Some idx =>
           commit (AddIndex (set_Version indexEncodingVersion idx)
                            (ctd_IsPrimaryKey d) desc)
       | None => Ok desc
       end in
     let* desc :=
       if ctd_HasColumnFamily d then
         commit (AddColumnToFamilyMaybeCreate (col_Name col) (ctd_FamilyName d)
                   true true desc)
       else Ok desc in
     Ok {| cp_desc := desc;
           cp_Defs := cp_Defs st;
           cp_columnDefaultExprs := columnDefaultExprs |})%res.

(** [for i, def := range n.Defs]: the range expression is evaluated once,
    so the loop visits the definitions present before it started. *)
Fixpoint columnPassLoop (PartitionBy Interleave HashShardedIndexesEnabled : bool)
    (version : ClusterVersion) (indexEncodingVersion : Z)
    (i : nat) (defs : list TableDef) (st : columnPassState)
  : result columnPassState :=
  match defs with
  | [] => Ok st
  | def :: rest =>
      (let* st :=
         match def with
         | Def_Column d =>
             columnDef PartitionBy Interleave HashShardedIndexesEnabled
               version indexEncodingVersion i d st
         | _ => Ok st
         end in
       columnPassLoop PartitionBy Interleave HashShardedIndexesEnabled
         version indexEncodingVersion (S i) rest st)%res
  end.

Definition columnPass (PartitionBy Interleave HashShardedIndexesEnabled : bool)
    (version : ClusterVersion) (indexEncodingVersion : Z)
    (desc : Mutable) (Defs : list TableDef) : result columnPassState :=
  columnPassLoop PartitionBy Interleave HashShardedIndexesEnabled version
    indexEncodingVersion 0 Defs
    {| cp_desc := desc; cp_Defs := Defs;
       cp_columnDefaultExprs := replicate (length Defs) None |}.

(** Modelled from the spec: [fkSelfResolver] (resolver.go) is not under
    src/. It resolves the in-progress table's own declared name to the
    in-memory descriptor being built, and any other name as [vt] does. *)
Definition fkSelfResolver (vt : SchemaResolver) (newTableDesc : ptr)
    (newTableName : TableName) : SchemaResolver :=
  fun name =>
    if TableName_eqb name newTableName then Ok newTableDesc else vt name.

(** The loop that resolves the CHECK and FOREIGN KEY definitions, on the
    descriptor [desc] of the store. *)
Fixpoint constraintPass (fkResolver : SchemaResolver) (desc : ptr)
    (evalCtx : EvalContext) (defs : list TableDef)
    (ckBuilder : CheckConstraintBuilder) : M unit :=
  match defs with
  | [] => mret tt
  | def :: rest =>
      (let* ckBuilder :=
         match def with
         | Def_Column _ => mret ckBuilder
         | Def_Index _ | Def_UniqueConstraint _ | Def_Family _ | Def_LikeTable =>
             mret ckBuilder
         | Def_CheckConstraint d =>
             let* t := load desc in
             let* ck := lift (fst (Build ckBuilder t d)) in
             let* _ := modify desc (fun t => set_Checks (Checks t ++ [ck]) t) in
             mret (snd (Build ckBuilder t d))
         | Def_ForeignKeyConstraint d =>
             let* _ := ResolveFK fkResolver desc d NewTable ValidationDefault
                         evalCtx in
             mret ckBuilder
         | OtherTableDef => fail (Errorf "unsupported table def: %T")
         end in
       constraintPass fkResolver desc evalCtx rest ckBuilder)%M
  end.

End NewTableDesc.

(** ** getTableCreateParams, startExec and finalizeInterleave *)

(** tree.Persistence. *)
Inductive Persistence :=
| PersistencePermanent
| PersistenceTemporary
| PersistenceUnlogged.

Definition IsTemporary (p : Persistence) : bool :=
  match p with PersistenceTemporary => true | _ => false end.

(** tree.CreateTableOnCommitSetting. *)
Inductive CreateTableOnCommitSetting :=
| CreateTableOnCommitUnset
| CreateTableOnCommitPreserveRows
| CreateTableOnCommitOther.

(** catalog.ResolvedSchemaKind. *)
Inductive ResolvedSchemaKind :=
| SchemaPublic
| SchemaVirtual
| SchemaTemporary
| SchemaUserDefined.

Record ResolvedSchema := {
  rs_Kind : ResolvedSchemaKind;
  rs_ID : Z;
}.

(** tree.PublicSchema. *)
Definition PublicSchema : string := "public".

(** A pointer to an index descriptor inside a table descriptor. *)
Inductive index_slot :=
| PrimarySlot
| IndexSlot (i : nat)
| MutationSlot (i : nat).

(** The statement and the execution flags read by startExec. *)
Record createTableNode := {
  n_dbID : Z;                               (* n.dbDesc.GetID() *)
  n_Table : TableName;
  n_IfNotExists : bool;
  n_Persistence : Persistence;
  n_OnCommit : CreateTableOnCommitSetting;
  n_As : bool;                              (* n.n.As() *)
  n_TxnImplicit : bool;                     (* ExtendedEvalContext().TxnImplicit *)
}.

Section Exec.
Context {types : Types} {cat : Catalog}.

Class Planner := {
  DescriptorKey : Type;
  DescriptorProto : Type;
  (* getTableCreateParams *)
  PublicSchemaAliases : string -> bool;
  TempTablesEnabled : bool;
  tempTablesDisabledError : error;
  getOrCreateTemporarySchema : Z -> result Z;
  NewTableKey : Z -> Z -> string -> DescriptorKey;
  MakeObjectNameKey : Z -> Z -> string -> DescriptorKey;
  ResolveUncachedSchemaDescriptor : Z -> string -> result ResolvedSchema;
  canCreateOnSchema : Z -> Z -> result unit;
  (* catalogkv.LookupObjectID: exists, id, err *)
  LookupObjectID : Z -> Z -> string -> bool * Z * option error;
  GetAnyDescriptorByID : Z -> result DescriptorProto;
  NewTypeAlreadyExistsError : TableName -> error;
  WrapErrorWhileConstructingObjectAlreadyExistsErr : error -> error;
  MakeObjectAlreadyExistsError : DescriptorProto -> string -> error;
  IsRelationAlreadyExistsError : error -> bool;
  (* startExec *)
  GenerateUniqueDescID : store -> result Z;
  newTableDesc : createTableNode -> Z -> Z -> M ptr;
  newTableDescIfAs : createTableNode -> Z -> Z -> M ptr;
  FindAllReferences : Mutable -> result (gset Z);
  GetUncommittedTableByID : store -> Z -> option Mutable;
  IsNew : Mutable -> bool;
  (* the key-value work of a descriptor write, which may fail *)
  createDescriptorWithID_kv : DescriptorKey -> Z -> Mutable -> result unit;
  writeSchemaChange_kv : Mutable -> result unit;
  AllNonDropIndexes : Mutable -> list index_slot;
  GetMutableTableVersionByID : store -> Z -> result ptr;
  FindIndexByID : Mutable -> Z -> result index_slot;
  addBackRefsFromAllTypesInTable : Mutable -> result unit;
  Validate : Mutable -> result unit;
  InsertEventRecord : Mutable -> result unit;
  (* the synchronous data fill of CREATE TABLE AS *)
  fillFromSource : Mutable -> result unit;
}.

Context {planner : Planner}.

(** getSchemaIDForCreate returns the ID of the schema to create an object
    within. *)
Definition getSchemaIDForCreate (dbID : Z) (scName : string) : result Z :=
  (let* res := ResolveUncachedSchemaDescriptor dbID scName in
   match rs_Kind res with
   | SchemaPublic | SchemaUserDefined => Ok (rs_ID res)
   | SchemaVirtual =>
       Err (Newf pgcode.InsufficientPrivilege "schema cannot be modified: %q")
   | _ =>
       Err (AssertionFailedf
              "invalid schema kind for getSchemaIDForCreate: %d")
   end)%res.

(** What getTableCreateParams returns: [tKey] (nil is [None]), [schemaID]
    and [err] ([Ok tt] is a nil error). *)
Definition tableCreateParams : Type := option DescriptorKey * Z * result unit.

(** getTableCreateParams returns the table key needed for the new table, as
    well as the schema id. It returns valid data in the case that the
    desired object exists. *)
Definition getTableCreateParams (dbID : Z) (persistence : Persistence)
    (tableName : TableName) : tableCreateParams :=
  if String.eqb (tn_Schema tableName) PublicSchema
     && PublicSchemaAliases (tn_Object tableName) then
    (None, 0, Err (NewTypeAlreadyExistsError tableName))
  else
    let keys : result (DescriptorKey * Z) :=
      if IsTemporary persistence then
        if negb TempTablesEnabled then Err tempTablesDisabledError
        else
          (let* schemaID := getOrCreateTemporarySchema dbID in
           Ok (NewTableKey dbID schemaID (tn_Object tableName), schemaID))%res
      else
        (let* schemaID := getSchemaIDForCreate dbID (tn_Schema tableName) in
         Ok (MakeObjectNameKey dbID schemaID (tn_Object tableName), schemaID))%res
    in
    match keys with
    | Panic => (None, 0, Panic)
    | Err e => (None, 0, Err e)
    | Ok (tKey, schemaID) =>
        match canCreateOnSchema schemaID dbID with
        | Panic => (None, 0, Panic)
        | Err e => (None, 0, Err e)
        | Ok _ =>
            match LookupObjectID dbID schemaID (tn_Object tableName) with
            | (true, id, None) =>
                (* Try and see what kind of object we collided with. *)
                match GetAnyDescriptorByID id with
                | Panic => (None, 0, Panic)
                | Err e =>
                    (None, 0,
                     Err (WrapErrorWhileConstructingObjectAlreadyExistsErr e))
                | Ok desc =>
                    (* Still return data in this case. *)
                    (Some tKey, schemaID,
                     Err (MakeObjectAlreadyExistsError desc
                            (tn_Object tableName)))
                end
            | (_, _, Some e) => (None, 0, Err e)
            | (false, _, None) => (Some tKey, schemaID, Ok tt)
            end
        end
    end.

Definition set_Indexes (l : list IndexDescriptor) (t : Mutable) : Mutable :=
  {| ID := ID t; ParentID := ParentID t; Name := Name t;
     Temporary := Temporary t; State := State t; Columns := Columns t;
     PrimaryIndex := PrimaryIndex t; Indexes := l;
     Checks := Checks t; OutboundFKs := OutboundFKs t;
     InboundFKs := InboundFKs t; Mutations := Mutations t;
     LocalityConfig := LocalityConfig t |}.

Definition set_Mutations (l : list DescriptorMutation) (t : Mutable) : Mutable :=
  {| ID := ID t; ParentID := ParentID t; Name := Name t;
     Temporary := Temporary t; State := State t; Columns := Columns t;
     PrimaryIndex := PrimaryIndex t; Indexes := Indexes t;
     Checks := Checks t; OutboundFKs := OutboundFKs t;
     InboundFKs := InboundFKs t; Mutations := l;
     LocalityConfig := LocalityConfig t |}.

(** [*index], for an index pointer into [t]. *)
Definition get_index (sl : index_slot) (t : Mutable) : result IndexDescriptor :=
  match sl with
  | PrimarySlot => Ok (PrimaryIndex t)
  | IndexSlot i => index (Indexes t) i
  | MutationSlot i =>
      (let* m := index (Mutations t) i in
       match GetIndex m with
       | Some idx => Ok idx
       | None => Panic
       end)%res
  end.

(** An assignment through an index pointer into [t]. *)
Definition update_index (sl : index_slot)
    (f : IndexDescriptor -> IndexDescriptor) (t : Mutable) : Mutable :=
  match sl with
  | PrimarySlot => set_PrimaryIndex (f (PrimaryIndex t)) t
  | IndexSlot i =>
      match Indexes t !! i with
      | Some idx => set_Indexes (<[i := f idx]> (Indexes t)) t
      | None => t
      end
  | MutationSlot i =>
      match Mutations t !! i with
      | Some m =>
          match GetIndex m with
          | Some idx =>
              set_Mutations
                (<[i := {| Descriptor_ := DescriptorMutation_Index (f idx);
                           mut_Direction := mut_Direction m |}]> (Mutations t)) t
          | None => t
          end
      | None => t
      end
  end.

(** A descriptor write: the key-value work, then the descriptor as it is
    now is part of the transaction's writes. *)
Definition write_desc (kv : Mutable -> result unit) (p : ptr) : M unit :=
  (let* t := load p in
   let* _ := lift (kv t) in
   fun s => (Ok tt, {| heap := heap s; backrefs := backrefs s;
                       written := written s ++ [(ID t, t)] |}))%M.

Definition writeSchemaChange (p : ptr) : M unit :=
  write_desc writeSchemaChange_kv p.

Definition createDescriptorWithID (tKey : DescriptorKey) (id : Z) (p : ptr)
  : M unit :=
  write_desc (createDescriptorWithID_kv tKey id) p.

(** finalizeInterleave creates backreferences from an interleaving parent to
    the child data being interleaved. *)
Definition finalizeInterleave (desc : ptr) (index_ : index_slot) : M unit :=
  (let* t := load desc in
   let* idx := lift (get_index index_ t) in
   (* Only the last ancestor needs the backreference. *)
   match last (idx_Interleave idx) with
   | None => mret tt
   | Some ancestor =>
       let* ancestorTable :=
         if anc_TableID ancestor =? ID t then mret desc
         else fun s => (GetMutableTableVersionByID s (anc_TableID ancestor), s) in
       let* a := load ancestorTable in
       let* ancestorIndex := lift (FindIndexByID a (anc_IndexID ancestor)) in
       let* _ :=
         modify ancestorTable
           (update_index ancestorIndex
              (fun i => set_InterleavedBy
                          (idx_InterleavedBy i
                           ++ [{| ref_Table := ID t; ref_Index := idx_ID idx |}])
                          i)) in
       let* _ := writeSchemaChange ancestorTable in
       let* t := load desc in
       match State t with
       | DescriptorState_ADD =>
           let* _ := modify desc (set_State DescriptorState_PUBLIC) in
           writeSchemaChange desc
       | _ => mret tt
       end
   end)%M.

(** The loop [for id := range refs] of startExec. *)
Definition foundExternalReference (s : store) (refs : gset Z) : bool :=
  existsb (fun id =>
             match GetUncommittedTableByID s id with
             | None => true
             | Some t => negb (IsNew t)
             end) (elements refs).

(** Lines 313-330 of startExec: if this table and all its references are
    created in the same transaction it can be made PUBLIC. *)
Definition stateGate (desc : ptr) : M unit :=
  (let* t := load desc in
   if Adding t then
     let* refs := lift (FindAllReferences t) in
     let* found := (fun s => (Ok (foundExternalReference s refs), s)) in
     if negb found then modify desc (set_State DescriptorState_PUBLIC)
     else mret tt
   else mret tt)%M.

(** [for _, updated := range affected]; a Go map is ranged over in an
    unspecified order, here the order of [map_to_list]. *)
Fixpoint writeAffected (updated : list (Z * ptr)) : M unit :=
  match updated with
  | [] => mret tt
  | (_, p) :: rest =>
      (let* _ := writeSchemaChange p in writeAffected rest)%M
  end.

(** [for _, index := range desc.AllNonDropIndexes()]. *)
Fixpoint finalizeInterleaves (desc : ptr) (indexes : list index_slot) : M unit :=
  match indexes with
  | [] => mret tt
  | index_ :: rest =>
      (let* t := load desc in
       let* idx := lift (get_index index_ t) in
       let* _ :=
         if (0 <? length (idx_Interleave idx))%nat
         then finalizeInterleave desc index_
         else mret tt in
       finalizeInterleaves desc rest)%M
  end.

Definition clear_backrefs : M unit :=
  fun s => (Ok tt, {| heap := heap s; backrefs := ∅; written := written s |}).

(** startExec of createTableNode. Telemetry counters and client notices are
    left out. *)
Definition startExec (n : createTableNode) : M unit :=
  match getTableCreateParams (n_dbID n) (n_Persistence n) (n_Table n) with
  | (_, _, Panic) => lift Panic
  | (_, _, Err err) =>
      if IsRelationAlreadyExistsError err && n_IfNotExists n then mret tt
      else fail err
  | (None, _, Ok _) => lift Panic
  | (Some tKey, schemaID, Ok _) =>
      (let* _ :=
         if IsTemporary (n_Persistence n) then
           match n_OnCommit n with
           | CreateTableOnCommitUnset | CreateTableOnCommitPreserveRows => mret tt
           | _ => fail (AssertionFailedf "ON COMMIT value %d is unrecognized")
           end
         else
           match n_OnCommit n with
           | CreateTableOnCommitUnset => mret tt
           | _ => fail (Newf pgcode.InvalidTableDefinition
                          "ON COMMIT can only be used on temporary tables")
           end in
       let* id := (fun s => (GenerateUniqueDescID s, s)) in
       let* _ := clear_backrefs in
       let* desc :=
         if n_As n then
           let* desc := newTableDescIfAs n schemaID id in
           (* If we have an implicit txn we want to run CTAS async, and
              consequently ensure it gets queued as a SchemaChange. *)
           let* _ :=
             if n_TxnImplicit n then modify desc (set_State DescriptorState_ADD)
             else mret tt in
           mret desc
         else
           let* desc := newTableDesc n schemaID id in
           let* _ := stateGate desc in
           mret desc in
       (* Descriptor written to store here. *)
       let* _ := createDescriptorWithID tKey id desc in
       let* _ := (fun s => writeAffected (map_to_list (backrefs s)) s) in
       let* t := load desc in
       let* _ := finalizeInterleaves desc (AllNonDropIndexes t) in
       (* Install back references to types used by this table. *)
       let* t := load desc in
       let* _ := lift (addBackRefsFromAllTypesInTable t) in
       let* _ := lift (Validate t) in
       let* _ := lift (InsertEventRecord t) in
       if n_As n && negb (n_TxnImplicit n) then
         lift (fillFromSource t)
       else mret tt)%M
  end.

End Exec.

(** ** NewTableDesc *)

(** tree.LocalityLevel and tree.Locality. [LocalityLevelOther] is any value
    other than the three that the source names. *)
Inductive LocalityLevel :=
| LocalityLevelGlobal
| LocalityLevelTable
| LocalityLevelRow
| LocalityLevelOther.

Record tree_Locality := {
  loc_LocalityLevel : LocalityLevel;
  loc_TableRegion : string;
}.

(** [p != nil], for a pointer [p] that may be nil. *)
Definition isSome {A : Type} (p : option A) : bool :=
  match p with
  | Some _ => true
  | None => false
  end.

(** descpb.ColumnFamilyDescriptor, as NewTableDesc builds it. *)
Record ColumnFamilyDescriptor := {
  fam_Name : string;
  fam_ColumnNames : list string;
}.

Section Assemble.
Context {types : Types} {cat : Catalog} {env : ShardEnv} {benv : BuildEnv}.
Context {planner : Planner}.

(** tree.CreateTable, the fields read by NewTableDesc. [PartitionBy],
    [Interleave] and [Locality] are pointers and may be nil. *)
Record CreateTable := {
  ct_Table : TableName;
  ct_Defs : list TableDef;
  ct_StorageParams : StorageParams;
  ct_PartitionBy : option PartitionBy;
  ct_Interleave : option InterleaveDef;
  ct_Locality : option tree_Locality;
}.

(** The operations of other packages that NewTableDesc calls, beside those
    of [Catalog], [ShardEnv], [BuildEnv] and [Planner]. *)
Class AssembleEnv := {
  (* tabledesc.InitTableDescriptor(id, parentID, parentSchemaID, name,
     creationTime, privileges, persistence) *)
  InitTableDescriptor : Z -> Z -> Z -> string -> Persistence -> Mutable;
  (* paramparse.ApplyStorageParameters with a TableStorageParamObserver,
     and with an IndexStorageParamObserver, which edits the index *)
  ApplyTableStorageParameters : StorageParams -> result unit;
  ApplyIndexStorageParameters :
    StorageParams -> IndexDescriptor -> result unit * IndexDescriptor;
  (* descpb.SecondaryIndexFamilyFormatVersion and
     descpb.EmptyArraysInInvertedIndexesVersion *)
  SecondaryIndexFamilyFormatVersion : Z;
  EmptyArraysInInvertedIndexesVersion : Z;
  (* st.Version.ActiveVersionOrEmpty(ctx), and the comparison of its result
     with clusterversion.ClusterVersion{} *)
  ActiveVersionOrEmpty : Settings -> ClusterVersion;
  IsZeroVersion : ClusterVersion -> bool;
  (* colinfo.NewSourceInfoForSingleTable(n.Table,
       colinfo.ResultColumnsFromColDescs(id, columns)),
     parser.ParseExpr and schemaexpr.DequalifyColumnRefs *)
  SourceInfo : Type;
  NewSourceInfoForSingleTable :
    TableName -> Z -> list ColumnDescriptor -> SourceInfo;
  ParseExpr : string -> result ParsedExpr;
  DequalifyColumnRefs : SourceInfo -> ParsedExpr -> result string;
  (* setupShardedIndex (create_index.go): shardCol and newColumn, and the
     columns of the definition, the descriptor and the index as it leaves
     them *)
  setupShardedIndex :
    bool -> list IndexElem -> Expr -> Mutable -> IndexDescriptor -> bool ->
    result (ColumnDescriptor * bool * list IndexElem * Mutable
            * IndexDescriptor);
  (* IndexDescriptor.FillColumns and IndexDescriptor.InvertedColumnName *)
  FillColumns : list IndexElem -> IndexDescriptor -> result unit * IndexDescriptor;
  InvertedColumnName : IndexDescriptor -> string;
  FindColumnByName : Mutable -> string -> result ColumnDescriptor;
  (* types.T.GeoSRIDOrZero, geoindex.GeometryIndexConfigForSRID and
     geoindex.DefaultGeographyIndexConfig *)
  GeoSRIDOrZero : types_T -> Z;
  GeometryIndexConfigForSRID : Z -> result GeoConfig;
  DefaultGeographyIndexConfig : GeoConfig;
  (* the package variable CreatePartitioningCCL, the hook of the
     CCL-licensed partitioning creation code *)
  CreatePartitioningCCL :
    Settings -> EvalContext -> Mutable -> IndexDescriptor -> PartitionBy ->
    result PartitioningDescriptor;
  (* schemaexpr.IndexPredicateValidator.Validate, of the validator made for
     the table name and the descriptor *)
  ValidateIndexPredicate : TableName -> Mutable -> Expr -> result string;
  IsPhysicalTable : Mutable -> bool;
  AddFamily : ColumnFamilyDescriptor -> Mutable -> Mutable;
  GetColumnFamilyForShard : Mutable -> list string -> string;
  (* maybeAddSequenceDependencies (sequence.go), for the descriptor, the
     position of the column in its columns and the default expression: the
     sequence descriptors it changed *)
  maybeAddSequenceDependencies :
    SchemaResolver -> ptr -> nat -> TypedExpr -> M (list ptr);
  (* schemaexpr.MakeCheckConstraintBuilder *)
  MakeCheckConstraintBuilder : TableName -> CheckConstraintBuilder;
  (* schemaexpr.ComputedColumnValidator.Validate, of the validator made for
     the descriptor and the table name *)
  ValidateComputedColumn :
    TableName -> Mutable -> ColumnTableDef -> result unit;
  (* catalogkv.MustGetDatabaseDescByID, tabledesc.ValidateTableLocalityConfig
     and errors.Wrap *)
  DatabaseDescriptor : Type;
  MustGetDatabaseDescByID : store -> Z -> result DatabaseDescriptor;
  ValidateTableLocalityConfig :
    string -> TableDescriptor_LocalityConfig -> DatabaseDescriptor ->
    result unit;
  errors_Wrap : error -> string -> error;
}.

Context {aenv : AssembleEnv}.

(** CreatePartitioning constructs the partitioning descriptor for an index
    that is partitioned into ranges, each addressable by zone configs. *)
Definition CreatePartitioning (st : Settings) (evalCtx : EvalContext)
    (tableDesc : Mutable) (indexDesc : IndexDescriptor)
    (partBy : option PartitionBy) : result PartitioningDescriptor :=
  match partBy with
  | None =>
      (* No CCL necessary if we're looking at PARTITION BY NOTHING. *)
      Ok PartitioningDescriptor_zero
  | Some partBy => CreatePartitioningCCL st evalCtx tableDesc indexDesc partBy
  end.

(** [r], for a method of an index descriptor that returns an error and
    edits its receiver, when the caller drops the receiver on error. *)
Definition commitIndex (r : result unit * IndexDescriptor)
  : result IndexDescriptor :=
  match r with
  | (Ok _, i) => Ok i
  | (Err e, _) => Err e
  | (Panic, _) => Panic
  end.

(** The loop [for i := range desc.Columns] that dequalifies the column
    references of the computed columns. *)
Fixpoint dequalifyComputedColumns (sourceInfo : SourceInfo)
    (cols : list ColumnDescriptor) : result (list ColumnDescriptor) :=
  match cols with
  | [] => Ok []
  | col :: rest =>
      (let* col :=
         match col_ComputeExpr col with
         | Some computeExpr =>
             let* expr := ParseExpr computeExpr in
             let* deqExpr := DequalifyColumnRefs sourceInfo expr in
             Ok (set_ComputeExpr (Some deqExpr) col)
         | None => Ok col
         end in
       let* rest := dequalifyComputedColumns sourceInfo rest in
       Ok (col :: rest))%res
  end.

(** The local state of the pass over the index and unique-constraint
    definitions: the descriptor, [n.Defs], [columnDefaultExprs] and
    [primaryIndexColumnSet] (nil is [None]). *)
Record indexPassState := {
  ip_desc : Mutable;
  ip_Defs : list TableDef;
  ip_columnDefaultExprs : list (option TypedExpr);
  ip_primaryIndexColumnSet : option (gset string);
}.

(** The closure [setupShardedIndexForNewTable], for the definition [d]
    with the bucket-count expression [shardBuckets]: the definition and
    the index as it leaves them, and the state. *)
Definition setupShardedIndexForNewTable (n : CreateTable)
    (sessionData : SessionData) (d : IndexTableDef) (shardBuckets : Expr)
    (idx : IndexDescriptor) (ips : indexPassState)
  : result (IndexTableDef * IndexDescriptor * indexPassState) :=
  if isSome (ct_PartitionBy n) then
    Err (Newf pgcode.FeatureNotSupported
           "sharded indexes don't support partitioning")
  else
    (let* (shardCol, newColumn, columns, desc, idx) :=
       setupShardedIndex (HashShardedIndexesEnabled sessionData)
         (itd_Columns d) shardBuckets (ip_desc ips) idx true in
     let d :=
       {| itd_Name := itd_Name d; itd_Columns := columns;
          itd_Sharded := itd_Sharded d; itd_Storing := itd_Storing d;
          itd_Interleave := itd_Interleave d; itd_Inverted := itd_Inverted d;
          itd_PartitionBy := itd_PartitionBy d;
          itd_StorageParams := itd_StorageParams d;
          itd_Predicate := itd_Predicate d |} in
     if newColumn then
       let* buckets := EvalShardBucketCount shardBuckets in
       let* checkConstraint := makeShardCheckConstraintDef desc buckets shardCol in
       Ok (d, idx,
           {| ip_desc := desc;
              ip_Defs := ip_Defs ips ++ [Def_CheckConstraint checkConstraint];
              ip_columnDefaultExprs := ip_columnDefaultExprs ips ++ [None];
              ip_primaryIndexColumnSet := ip_primaryIndexColumnSet ips |})
     else
       Ok (d, idx,
           {| ip_desc := desc;
              ip_Defs := ip_Defs ips;
              ip_columnDefaultExprs := ip_columnDefaultExprs ips;
              ip_primaryIndexColumnSet := ip_primaryIndexColumnSet ips |}))%res.

(** [descpb.IndexDescriptor{Name: ..., Unique: ..., StoreColumnNames: ...,
    Version: indexEncodingVersion}]. *)
Definition newIndexDescriptor (name : string) (unique : bool)
    (storing : list string) (indexEncodingVersion : Z) : IndexDescriptor :=
  {| idx_ID := 0; idx_Name := name; idx_Unique := unique;
     idx_ColumnNames := []; idx_ColumnDirections := []; idx_ColumnIDs := [];
     idx_Interleave := []; idx_InterleavedBy := [];
     idx_Version := indexEncodingVersion;
     idx_StoreColumnNames := storing; idx_Type := IndexDescriptor_FORWARD;
     idx_GeoConfig := GeoConfig_zero;
     idx_Partitioning := PartitioningDescriptor_zero;
     idx_Predicate := EmptyString;
     idx_Sharded := ShardedDescriptor_zero |}.

(** [idx.Partitioning] and [idx.Predicate] for a definition [d], on the
    descriptor [desc]. *)
Definition partitionAndPredicate (n : CreateTable) (st : Settings)
    (evalCtx : EvalContext) (d : IndexTableDef) (desc : Mutable)
    (idx : IndexDescriptor) : result IndexDescriptor :=
  (let* idx :=
     match itd_PartitionBy d with
     | Some partBy =>
         let* partitioning :=
           CreatePartitioning st evalCtx desc idx (Some partBy) in
         Ok (set_Partitioning partitioning idx)
     | None => Ok idx
     end in
   match itd_Predicate d with
   | Some predicate =>
       let* expr := ValidateIndexPredicate (ct_Table n) desc predicate in
       Ok (set_Predicate expr idx)
   | None => Ok idx
   end)%res.

(** The case [*tree.IndexTableDef] of the second loop of NewTableDesc. *)
Definition indexTableDef (n : CreateTable) (st : Settings)
    (evalCtx : EvalContext) (sessionData : SessionData)
    (indexEncodingVersion : Z) (d : IndexTableDef) (ips : indexPassState)
  : result indexPassState :=
  (let idx :=
     newIndexDescriptor (itd_Name d) false (itd_Storing d)
       indexEncodingVersion in
   let* idx :=
     if itd_Inverted d then
       if negb (EnableMultiColumnInvertedIndexes sessionData)
          && (1 <? length (itd_Columns d))%nat then
         Err (Newf pgcode.FeatureNotSupported
                "indexing more than one column with an inverted index is not supported")
       else Ok (set_Type IndexDescriptor_INVERTED idx)
     else Ok idx in
   let* (d, idx, ips) :=
     match itd_Sharded d with
     | Some shardBuckets =>
         if isSome (itd_Interleave d) then
           Err (Newf pgcode.FeatureNotSupported
                  "interleaved indexes cannot also be hash sharded")
         else setupShardedIndexForNewTable n sessionData d shardBuckets idx ips
     | None => Ok (d, idx, ips)
     end in
   let* idx := commitIndex (FillColumns (itd_Columns d) idx) in
   let* idx :=
     if itd_Inverted d then
       let* columnDesc :=
         FindColumnByName (ip_desc ips) (InvertedColumnName idx) in
       match types_Family (col_Type columnDesc) with
       | GeometryFamily =>
           let* config :=
             GeometryIndexConfigForSRID (GeoSRIDOrZero (col_Type columnDesc)) in
           Ok (set_GeoConfig config idx)
       | GeographyFamily => Ok (set_GeoConfig DefaultGeographyIndexConfig idx)
       | _ => Ok idx
       end
     else Ok idx in
   let* idx := partitionAndPredicate n st evalCtx d (ip_desc ips) idx in
   let* idx :=
     commitIndex (ApplyIndexStorageParameters (itd_StorageParams d) idx) in
   let* desc := commit (AddIndex idx false (ip_desc ips)) in
   if isSome (itd_Interleave d) then
     Err (NewWithIssue 9148 "use CREATE INDEX to make interleaved indexes")
   else
     Ok {| ip_desc := desc;
           ip_Defs := ip_Defs ips;
           ip_columnDefaultExprs := ip_columnDefaultExprs ips;
           ip_primaryIndexColumnSet := ip_primaryIndexColumnSet ips |})%res.

(** The case [*tree.UniqueConstraintTableDef]. *)
Definition uniqueConstraintTableDef (n : CreateTable) (st : Settings)
    (evalCtx : EvalContext) (sessionData : SessionData)
    (indexEncodingVersion : Z) (u : UniqueConstraintTableDef)
    (ips : indexPassState) : result indexPassState :=
  if uctd_WithoutIndex u then
    Err (Newf pgcode.FeatureNotSupported
           "unique constraints without an index are not yet supported")
  else
    (let d := uctd_IndexTableDef u in
     let idx :=
       newIndexDescriptor (itd_Name d) true (itd_Storing d)
         indexEncodingVersion in
     let* (d, idx, ips) :=
       match itd_Sharded d with
       | Some shardBuckets =>
           if isSome (ct_Interleave n) && uctd_PrimaryKey u then
             Err (Newf pgcode.FeatureNotSupported
                    "interleaved indexes cannot also be hash sharded")
           else setupShardedIndexForNewTable n sessionData d shardBuckets idx ips
       | None => Ok (d, idx, ips)
       end in
     let* idx := commitIndex (FillColumns (itd_Columns d) idx) in
     let* idx := partitionAndPredicate n st evalCtx d (ip_desc ips) idx in
     let* desc := commit (AddIndex idx (uctd_PrimaryKey u) (ip_desc ips)) in
     let* primaryIndexColumnSet :=
       if uctd_PrimaryKey u then
         if isSome (itd_Interleave d) then
           Err (NewWithIssue 45710
                  "interleave not supported in primary key constraint definition")
         else Ok (Some (list_to_set (map ie_Column (itd_Columns d))))
       else Ok (ip_primaryIndexColumnSet ips) in
     if isSome (itd_Interleave d) then
       Err (NewWithIssue 9148 "use CREATE INDEX to make interleaved indexes")
     else
       Ok {| ip_desc := desc;
             ip_Defs := ip_Defs ips;
             ip_columnDefaultExprs := ip_columnDefaultExprs ips;
             ip_primaryIndexColumnSet := primaryIndexColumnSet |})%res.

(** The second loop, [for _, def := range n.Defs]: it visits the
    definitions present when it starts. *)
Fixpoint indexPass (n : CreateTable) (st : Settings) (evalCtx : EvalContext)
    (sessionData : SessionData) (indexEncodingVersion : Z)
    (defs : list TableDef) (ips : indexPassState) : result indexPassState :=
  match defs with
  | [] => Ok ips
  | def :: rest =>
      (let* ips :=
         match def with
         | Def_Column _ | Def_LikeTable =>
             (* pass, handled above. *)
             Ok ips
         | Def_Index d =>
             indexTableDef n st evalCtx sessionData indexEncodingVersion d ips
         | Def_UniqueConstraint d =>
             uniqueConstraintTableDef n st evalCtx sessionData
               indexEncodingVersion d ips
         | Def_CheckConstraint _ | Def_ForeignKeyConstraint _ | Def_Family _ =>
             (* pass, handled below. *)
             Ok ips
         | OtherTableDef => Err (Errorf "unsupported table def: %T")
         end in
       indexPass n st evalCtx sessionData indexEncodingVersion rest ips)%res
  end.

(** Primary index columns are not nullable. *)
Definition primaryKeyColumnsNotNull (primaryIndexColumnSet : option (gset string))
    (desc : Mutable) : Mutable :=
  match primaryIndexColumnSet with
  | Some columnSet =>
      set_Columns
        (map (fun c => if bool_decide (col_Name c ∈ columnSet)
                       then set_Nullable false c else c)
             (Columns desc))
        desc
  | None => desc
  end.

(** The loop that adds the explicit families: [columnsInExplicitFamilies]
    and the descriptor. *)
Fixpoint addFamilies (defs : list TableDef)
    (columnsInExplicitFamilies : gset string) (desc : Mutable)
  : gset string * Mutable :=
  match defs with
  | [] => (columnsInExplicitFamilies, desc)
  | Def_Family d :: rest =>
      let fam := {| fam_Name := ftd_Name d; fam_ColumnNames := ftd_Columns d |} in
      addFamilies rest
        (list_to_set (fam_ColumnNames fam) ∪ columnsInExplicitFamilies)
        (AddFamily fam desc)
  | _ :: rest => addFamilies rest columnsInExplicitFamilies desc
  end.

(** Assign any implicitly added shard columns to the column family of the
    first column in their corresponding set of index columns. *)
Fixpoint assignShardColumnFamilies (indexes : list index_slot)
    (columnsInExplicitFamilies : gset string) (desc : Mutable)
  : result Mutable :=
  match indexes with
  | [] => Ok desc
  | sl :: rest =>
      (let* index_ := get_index sl desc in
       let* desc :=
         if IsSharded (idx_Sharded index_)
            && negb (bool_decide (sh_Name (idx_Sharded index_)
                                  ∈ columnsInExplicitFamilies)) then
           let family :=
             GetColumnFamilyForShard desc (sh_ColumnNames (idx_Sharded index_)) in
           if negb (String.eqb family EmptyString) then
             commit (AddColumnToFamilyMaybeCreate (sh_Name (idx_Sharded index_))
                       family false false desc)
           else Ok desc
         else Ok desc in
       assignShardColumnFamilies rest columnsInExplicitFamilies desc)%res
  end.

(** [evalCtx.SessionData != nil &&
     evalCtx.SessionData.RequireExplicitPrimaryKeys]. *)
Definition requireExplicitPrimaryKeys (evalCtx : EvalContext) : bool :=
  match ec_SessionData evalCtx with
  | Some sessionData => RequireExplicitPrimaryKeys sessionData
  | None => false
  end.

(** NewTableDesc up to the first AllocateIDs, where the descriptor is a
    local variable that no other code holds: the descriptor, [n.Defs] and
    [columnDefaultExprs]. *)
Definition buildColumnsAndIndexes (st : Settings) (n : CreateTable)
    (parentID parentSchemaID id : Z) (evalCtx : EvalContext)
    (sessionData : SessionData) (persistence : Persistence)
  : result (Mutable * list TableDef * list (option TypedExpr)) :=
  (let desc :=
     InitTableDescriptor id parentID parentSchemaID (tn_Object (ct_Table n))
       persistence in
   let* _ := ApplyTableStorageParameters (ct_StorageParams n) in
   let version := ActiveVersionOrEmpty st in
   let indexEncodingVersion :=
     if negb (IsZeroVersion version)
        && IsActive version EmptyArraysInInvertedIndexes
     then EmptyArraysInInvertedIndexesVersion
     else SecondaryIndexFamilyFormatVersion in
   let* cp :=
     columnPass (isSome (ct_PartitionBy n)) (isSome (ct_Interleave n))
       (HashShardedIndexesEnabled sessionData) version indexEncodingVersion
       desc (ct_Defs n) in
   (* Now that we've constructed our columns, we pop into any of our
      computed columns so that we can dequalify any column references. *)
   let sourceInfo :=
     NewSourceInfoForSingleTable (ct_Table n) (ID (cp_desc cp))
       (Columns (cp_desc cp)) in
   let* columns := dequalifyComputedColumns sourceInfo (Columns (cp_desc cp)) in
   let desc := set_Columns columns (cp_desc cp) in
   let* ips :=
     indexPass n st evalCtx sessionData indexEncodingVersion (cp_Defs cp)
       {| ip_desc := desc;
          ip_Defs := cp_Defs cp;
          ip_columnDefaultExprs := cp_columnDefaultExprs cp;
          ip_primaryIndexColumnSet := None |} in
   let desc := ip_desc ips in
   (* If explicit primary keys are required, error out since a primary key
      was not supplied. *)
   let* _ :=
     if (length (idx_ColumnNames (PrimaryIndex desc)) =? 0)%nat
        && IsPhysicalTable desc && requireExplicitPrimaryKeys evalCtx then
       Err (Errorf
              "no primary key specified for table %s (require_explicit_primary_keys = true)")
     else Ok tt in
   let desc := primaryKeyColumnsNotNull (ip_primaryIndexColumnSet ips) desc in
   (* Now that all columns are in place, add any explicit families. *)
   let (columnsInExplicitFamilies, desc) := addFamilies (ip_Defs ips) ∅ desc in
   let* desc :=
     assignShardColumnFamilies (AllNonDropIndexes desc)
       columnsInExplicitFamilies desc in
   let* desc := commit (AllocateIDs desc) in
   Ok (desc, ip_Defs ips, ip_columnDefaultExprs ips))%res.

(** [vt], for code that takes the table it resolves by value. *)
Definition resolveIn (s : store) (vt : SchemaResolver)
  : TableName -> result Mutable :=
  fun name =>
    (let* p := vt name in
     match heap s !! p with
     | Some t => Ok t
     | None => Panic
     end)%res.

(** [for _, changedSeqDesc := range changedSeqDescs]. *)
Fixpoint recordChangedSequences (changedSeqDescs : list ptr) : M unit :=
  match changedSeqDescs with
  | [] => mret tt
  | changedSeqDesc :: rest =>
      (let* sq := load changedSeqDesc in
       let* _ := insert_backref (ID sq) changedSeqDesc in
       recordChangedSequences rest)%M
  end.

(** The loop that adds the sequence dependencies; [i] is the loop index and
    [colIdx] the separate counter that maps column definitions to
    columns. *)
Fixpoint sequenceDependencies (vt : SchemaResolver) (desc : ptr)
    (columnDefaultExprs : list (option TypedExpr)) (defs : list TableDef)
    (i colIdx : nat) : M unit :=
  match defs with
  | [] => mret tt
  | Def_Column _ :: rest =>
      (let* slot := lift (index columnDefaultExprs i) in
       let* _ :=
         match slot with
         | Some expr =>
             let* t := load desc in
             let* _ := lift (index (Columns t) colIdx) in
             let* changedSeqDescs :=
               maybeAddSequenceDependencies vt desc colIdx expr in
             recordChangedSequences changedSeqDescs
         | None => mret tt
         end in
       sequenceDependencies vt desc columnDefaultExprs rest (S i) (S colIdx))%M
  | _ :: rest =>
      sequenceDependencies vt desc columnDefaultExprs rest (S i) colIdx
  end.

(** The loop that validates the computed columns. *)
Fixpoint validateComputedColumns (tableName : TableName) (defs : list TableDef)
    (desc : Mutable) : result unit :=
  match defs with
  | [] => Ok tt
  | Def_Column d :: rest =>
      (let* _ :=
         if ctd_IsComputed d then ValidateComputedColumn tableName desc d
         else Ok tt in
       validateComputedColumns tableName rest desc)%res
  | _ :: rest => validateComputedColumns tableName rest desc
  end.

(** [if n.Locality != nil]. *)
Definition applyLocality (n : CreateTable) (parentID : Z) (desc : ptr)
  : M unit :=
  match ct_Locality n with
  | None => mret tt
  | Some locality =>
      (let* db :=
         (fun s =>
            (match MustGetDatabaseDescByID s parentID with
             | Ok db => Ok db
             | Err err =>
                 Err (errors_Wrap err
                        "error fetching database descriptor for locality checks")
             | Panic => Panic
             end, s)) in
       let* _ := modify desc (set_LocalityConfig (Some {| Locality := None |})) in
       let* l :=
         match loc_LocalityLevel locality with
         | LocalityLevelGlobal => mret LocalityConfig_Global
         | LocalityLevelTable =>
             mret (LocalityConfig_RegionalByTable
                     (if String.eqb (loc_TableRegion locality) EmptyString
                      then None else Some (loc_TableRegion locality)))
         | LocalityLevelRow => mret LocalityConfig_RegionalByRow
         | LocalityLevelOther => fail (Errorf "unknown locality level: %v")
         end in
       let localityConfig := {| Locality := Some l |} in
       let* _ := modify desc (set_LocalityConfig (Some localityConfig)) in
       lift (ValidateTableLocalityConfig (tn_Object (ct_Table n))
               localityConfig db))%M
  end.

(** NewTableDesc creates a table descriptor from a CreateTable statement.
    [evalCtx] and [sessionData] are taken not to be nil. The descriptor is
    the local variable [desc] of the source; it enters the store, at an
    address that the store does not use, when its address is first passed
    on, and the result is that address. The definitions that the passes
    append to [n.Defs] are not returned, and the telemetry counters are
    left out. *)
Definition NewTableDesc (vt : SchemaResolver) (st : Settings)
    (n : CreateTable) (parentID parentSchemaID id : Z)
    (evalCtx : EvalContext) (sessionData : SessionData)
    (persistence : Persistence) : M ptr :=
  fun s =>
    match buildColumnsAndIndexes st n parentID parentSchemaID id evalCtx
            sessionData persistence with
    | Panic => (Panic, s)
    | Err err => (Err err, s)
    | Ok (desc0, Defs, columnDefaultExprs) =>
        let desc : ptr := fresh (dom (heap s)) in
        (let* _ := store_at desc desc0 in
         let* _ :=
           match ct_Interleave n with
           | Some interleave =>
               let* t := load desc in
               let* t :=
                 (fun s => (addInterleavePrimary (resolveIn s vt) t interleave, s)) in
               store_at desc t
           | None => mret tt
           end in
         let* _ :=
           match ct_PartitionBy n with
           | Some partBy =>
               let* t := load desc in
               let* partitioning :=
                 lift (CreatePartitioning st evalCtx t (PrimaryIndex t)
                         (Some partBy)) in
               modify desc
                 (fun t => set_PrimaryIndex
                             (set_Partitioning partitioning (PrimaryIndex t)) t)
           | None => mret tt
           end in
         (* Once all the IDs have been allocated, we can add the Sequence
            dependencies as maybeAddSequenceDependencies requires ColumnIDs
            to be correct. *)
         let* _ := sequenceDependencies vt desc columnDefaultExprs Defs 0 0 in
         (* We use a fkSelfResolver so that name resolution can find the
            newly created table. *)
         let fkResolver := fkSelfResolver vt desc (ct_Table n) in
         let ckBuilder := MakeCheckConstraintBuilder (ct_Table n) in
         let* _ := constraintPass fkResolver desc evalCtx Defs ckBuilder in
         (* Now that we have all the other columns set up, we can validate
            any computed columns. *)
         let* t := load desc in
         let* _ := lift (validateComputedColumns (ct_Table n) Defs t) in
         let* _ := call desc AllocateIDs in
         let* _ := applyLocality n parentID desc in
         mret desc)%M s
    end.

End Assemble.

(** ** A reference implementation of the interfaces

    Small, executable stand-ins for the types, tabledesc, sem/tree and
    planner operations, on which the statements of this file are run. They
    follow the documented behaviour of the operations they stand for; no
    statement about the source depends on them. *)

Module Ref.

Inductive SQLType := INT8 | INT4 | STRING | BOOL.

Definition SQLType_eqb (a b : SQLType) : bool :=
  match a, b with
  | INT8, INT8 | INT4, INT4 | STRING, STRING | BOOL, BOOL => true
  | _, _ => false
  end.

(** INT8 and INT4 are of one family. *)
Definition family_no (t : SQLType) : Z :=
  match t with INT8 | INT4 => 1 | STRING => 2 | BOOL => 3 end.

Definition types : Types :=
  {| types_T := SQLType;
     types_Int4 := INT4;
     types_String := STRING;
     Equivalent := fun a b => family_no a =? family_no b;
     Identical := SQLType_eqb;
     types_Family := fun t => OtherFamily (family_no t);
     ArrayContents := fun t => t;
     Oid := fun t => match t with INT8 => 20 | INT4 => 23 | STRING => 25
                                | BOOL => 16 end;
     TypeReference := SQLType;
     ResolveType := fun t => Ok t;
     TypedExpr := string;
     ParsedExpr := string;
     StorageParams := list (string * string);
     PartitionBy := list string;
     PartitioningDescriptor := list string;
     PartitioningDescriptor_zero := [];
     GeoConfig := Z;
     GeoConfig_zero := 0 |}.
#[local] Existing Instance types.

Definition findColumn (t : Mutable) (name : string) : result ColumnDescriptor :=
  match find (fun c => String.eqb (col_Name c) name) (Columns t) with
  | Some c => Ok c
  | None => Err (Newf pgcode.UndefinedColumn "column %q does not exist")
  end.

Fixpoint findColumns (t : Mutable) (names : list string)
  : result (list ColumnDescriptor) :=
  match names with
  | [] => Ok []
  | n :: rest =>
      (let* c := findColumn t n in
       let* cs := findColumns t rest in
       Ok (c :: cs))%res
  end.

Definition findColumnByID (t : Mutable) (id : Z) : result ColumnDescriptor :=
  match find (fun c => col_ID c =? id) (Columns t) with
  | Some c => Ok c
  | None => Err (Errorf "column-id %d does not exist")
  end.

Fixpoint Z_list_eqb (a b : list Z) : bool :=
  match a, b with
  | [], [] => true
  | x :: a', y :: b' => (x =? y) && Z_list_eqb a' b'
  | _, _ => false
  end.

Fixpoint Z_list_prefix (a b : list Z) : bool :=
  match a, b with
  | [], _ => true
  | x :: a', y :: b' => (x =? y) && Z_list_prefix a' b'
  | _, _ => false
  end.

(** The name, then the name with the suffixes _1, _2, ... *)
Fixpoint uniqueName (fuel : nat) (i : Z) (prefix name : string)
    (nameExists : string -> bool) : string :=
  match fuel with
  | O => name
  | S fuel' =>
      if nameExists name
      then uniqueName fuel' (i + 1) prefix (prefix +:+ "_" +:+ Itoa i) nameExists
      else name
  end.

Definition indexNames (t : Mutable) : list string :=
  idx_Name (PrimaryIndex t) :: map idx_Name (Indexes t).

Definition columnIDsOf (t : Mutable) (names : list string) : list Z :=
  omap (fun n => match findColumn t n with
                 | Ok c => Some (col_ID c)
                 | _ => None
                 end) names.

(** Indexes without an ID get the next free one and the IDs of their
    columns. *)
Fixpoint allocateIndexIDs (t : Mutable) (next : Z) (l : list IndexDescriptor)
  : list IndexDescriptor :=
  match l with
  | [] => []
  | i :: rest =>
      if idx_ID i =? 0 then
        {| idx_ID := next; idx_Name := idx_Name i; idx_Unique := idx_Unique i;
           idx_ColumnNames := idx_ColumnNames i;
           idx_ColumnDirections := idx_ColumnDirections i;
           idx_ColumnIDs := columnIDsOf t (idx_ColumnNames i);
           idx_Interleave := idx_Interleave i;
           idx_InterleavedBy := idx_InterleavedBy i;
           idx_Version := idx_Version i;
           idx_StoreColumnNames := idx_StoreColumnNames i;
           idx_Type := idx_Type i; idx_GeoConfig := idx_GeoConfig i;
           idx_Partitioning := idx_Partitioning i;
           idx_Predicate := idx_Predicate i; idx_Sharded := idx_Sharded i |}
        :: allocateIndexIDs t (next + 1) rest
      else i :: allocateIndexIDs t (Z.max next (idx_ID i + 1)) rest
  end.

Definition cat : Catalog :=
  {| FindActiveOrNewColumnByName := findColumn;
     CheckCanBeFKRef := fun c =>
       match col_ComputeExpr c with
       | Some _ => Err (NewWithIssue 46672
                          "computed column %q cannot reference an FK")
       | None => Ok tt
       end;
     FindActiveColumnsByNames := findColumns;
     GetConstraintInfo := fun t =>
       Ok (list_to_set (map fk_Name (OutboundFKs t) ++ map ck_Name (Checks t)
                        ++ [idx_Name (PrimaryIndex t)]));
     GenerateUniqueConstraintName := fun prefix nameExists =>
       uniqueName 64 1 prefix prefix nameExists;
     FindFKOriginIndexInTxn := fun t ids =>
       match find (fun i => Z_list_prefix ids (idx_ColumnIDs i))
                  (PrimaryIndex t :: Indexes t) with
       | Some i => Ok i
       | None => Err (Newf pgcode.ForeignKeyViolation
                        "there is no index matching given keys")
       end;
     FindFKReferencedIndex := fun t ids =>
       match find (fun i => Z_list_eqb ids (idx_ColumnIDs i))
                  (PrimaryIndex t :: filter (fun i => idx_Unique i = true)
                                            (Indexes t)) with
       | Some i => Ok i
       | None => Err (Newf pgcode.ForeignKeyViolation
                        "there is no unique constraint matching given keys for referenced table %s")
       end;
     FindColumnByID := findColumnByID;
     ValidateIndexNameIsUnique := fun t name =>
       if existsb (String.eqb name) (indexNames t)
       then Err (Newf pgcode.DuplicateRelation "duplicate index name: %q")
       else Ok tt;
     AddIndex := fun idx primary t =>
       if primary then (Ok tt, set_PrimaryIndex idx t)
       else (Ok tt, set_Indexes (Indexes t ++ [idx]) t);
     AddIndexMutation := fun idx dir t =>
       (Ok tt,
        set_Mutations
          (Mutations t ++ [{| Descriptor_ := DescriptorMutation_Index idx;
                              mut_Direction := dir |}]) t);
     AddForeignKeyMutation := fun fk dir t =>
       set_Mutations
         (Mutations t ++ [{| Descriptor_ := DescriptorMutation_Constraint fk;
                             mut_Direction := dir |}]) t;
     AllocateIDs := fun t =>
       (Ok tt, set_Indexes (allocateIndexIDs t (idx_ID (PrimaryIndex t) + 1)
                              (Indexes t)) t);
     ForeignKeyReferenceActionValue := fun a =>
       match a with
       | NoAction => ForeignKeyReference_NO_ACTION
       | Restrict => ForeignKeyReference_RESTRICT
       | SetDefault => ForeignKeyReference_SET_DEFAULT
       | SetNull => ForeignKeyReference_SET_NULL
       | Cascade => ForeignKeyReference_CASCADE
       end;
     CompositeKeyMatchMethodValue := fun m =>
       match m with
       | MatchSimple => ForeignKeyReference_SIMPLE
       | MatchFull => ForeignKeyReference_FULL
       | MatchPartial => ForeignKeyReference_PARTIAL
       end |}.
#[local] Existing Instance cat.

(** A formatter in the style of tree.Serialize: constants carry their
    type annotation. *)
Definition join (sep : string) (l : list string) : string :=
  String.concat sep l.

Definition binop_text (o : BinaryOperator) : string :=
  match o with Plus => " + " | Minus => " - " | Mult => " * " end.

Definition cmpop_text (o : ComparisonOperator) : string :=
  match o with EQ => " = " | tree_In => " IN " | NotIn => " NOT IN " end.

Definition type_text (t : SQLType) : string :=
  match t with
  | INT8 => "INT8" | INT4 => "INT4" | STRING => "STRING" | BOOL => "BOOL"
  end.

Fixpoint format (e : Expr) : result string :=
  let formats :=
    fix formats (l : list Expr) : result (list string) :=
      match l with
      | [] => Ok []
      | x :: r =>
          (let* a := format x in
           let* b := formats r in
           Ok (a :: b))%res
      end in
  match e with
  | NilExpr => Panic
  | FuncExpr f args =>
      (let* a := formats args in
       Ok (join "." (take (Z.to_nat (NumParts f)) (Parts f))
           +:+ "(" +:+ join ", " a +:+ ")"))%res
  | CoalesceExpr name args =>
      (let* a := formats args in Ok (name +:+ "(" +:+ join ", " a +:+ ")"))%res
  | CastExpr x t => (let* a := format x in Ok (a +:+ "::" +:+ type_text t))%res
  | ColumnItem c => Ok c
  | DString s => Ok ("'" +:+ s +:+ "':::STRING")
  | DInt i => Ok (Itoa i +:+ ":::INT8")
  | BinaryExpr o l r =>
      (let* a := format l in
       let* b := format r in
       Ok (a +:+ binop_text o +:+ b))%res
  | ComparisonExpr o l r =>
      (let* a := format l in
       let* b := format r in
       Ok (a +:+ cmpop_text o +:+ b))%res
  | Tuple l => (let* a := formats l in Ok ("(" +:+ join ", " a +:+ ")"))%res
  | NumVal _ s _ => Ok s
  end.

Definition env : ShardEnv :=
  {| Serialize := format;
     GetShardColumnName := fun colNames buckets =>
       "crdb_internal_" +:+ join "_" colNames +:+ "_shard_" +:+ Itoa buckets |}.
#[local] Existing Instance env.

Definition bucketCount (e : Expr) : Z :=
  match e with
  | NumVal i _ _ => i
  | DInt i => i
  | _ => 0
  end.

Definition benv : BuildEnv :=
  {| IsVirtualTable := fun _ => false;
     EvalShardBucketCount := fun e =>
       match e with
       | NumVal i _ _ => Ok i
       | DInt i => Ok i
       | _ => Err (Newf pgcode.InvalidParameterValue
                     "BUCKET_COUNT must be an integer")
       end;
     MakeColumnDefDescs := fun d =>
       let col :=
         {| col_ID := 0; col_Name := ctd_Name d; col_Type := ctd_Type d;
            col_Nullable := negb (ctd_IsPrimaryKey d);
            col_DefaultExpr := None; col_ComputeExpr := None;
            col_Hidden := false |} in
       let buckets := bucketCount (ctd_ShardBuckets d) in
       let shardColName := GetShardColumnName [ctd_Name d] buckets in
       let idx :=
         if ctd_IsPrimaryKey d then
           Some {| idx_ID := 0; idx_Name := "primary"; idx_Unique := true;
                   idx_ColumnNames :=
                     if ctd_Sharded d then [shardColName; ctd_Name d]
                     else [ctd_Name d];
                   idx_ColumnDirections :=
                     if ctd_Sharded d
                     then [IndexDescriptor_ASC; IndexDescriptor_ASC]
                     else [IndexDescriptor_ASC];
                   idx_ColumnIDs := []; idx_Interleave := [];
                   idx_InterleavedBy := []; idx_Version := 0;
                   idx_StoreColumnNames := []; idx_Type := IndexDescriptor_FORWARD;
                   idx_GeoConfig := GeoConfig_zero;
                   idx_Partitioning := PartitioningDescriptor_zero;
                   idx_Predicate := EmptyString;
                   idx_Sharded :=
                     if ctd_Sharded d then
                       {| IsSharded := true; sh_Name := shardColName;
                          ShardBuckets := buckets;
                          sh_ColumnNames := [ctd_Name d] |}
                     else ShardedDescriptor_zero |}
         else None in
       Ok (col, idx, None);
     AddColumnToFamilyMaybeCreate := fun _ _ _ _ t => (Ok tt, t);
     CheckConstraintBuilder := list string;
     Build := fun inUse t d =>
       match format (ckd_Expr d) with
       | Ok text =>
           let name :=
             if String.eqb (ckd_Name d) EmptyString
             then uniqueName 64 1 "check" "check"
                    (fun n => existsb (String.eqb n) inUse)
             else ckd_Name d in
           (Ok {| ck_Name := name; ck_Expr := text; ck_Hidden := ckd_Hidden d |},
            name :: inUse)
       | Err e => (Err e, inUse)
       | Panic => (Panic, inUse)
       end |}.
#[local] Existing Instance benv.

Definition lastWritten (w : list (Z * Mutable)) (id : Z) : option Mutable :=
  snd <$> last (filter (fun e => fst e = id) w).

Definition ptrOfID (s : store) (id : Z) : result ptr :=
  match find (fun e => ID (snd e) =? id) (map_to_list (heap s)) with
  | Some e => Ok (fst e)
  | None => Err (Newf pgcode.UndefinedTable "relation [%d] does not exist")
  end.

Definition referencesOf (t : Mutable) : list Z :=
  map ReferencedTableID (OutboundFKs t)
  ++ map OriginTableID (InboundFKs t)
  ++ concat (map (fun i => map anc_TableID (idx_Interleave i)
                           ++ map ref_Table (idx_InterleavedBy i))
                 (PrimaryIndex t :: Indexes t)).

(** Descriptor IDs below 100 are committed tables of earlier transactions;
    the name "parent" is taken by table 52 and "a_type" by type 60. The
    builder of the table descriptor returns the descriptor prepared at
    pointer 0 of the store. *)
Definition planner : Planner :=
  {| DescriptorKey := Z * Z * string;
     DescriptorProto := Z;
     PublicSchemaAliases := fun n => String.eqb n "box2d";
     TempTablesEnabled := false;
     tempTablesDisabledError :=
       Newf pgcode.FeatureNotSupported
         "temporary tables are only supported experimentally";
     getOrCreateTemporarySchema := fun _ => Ok 900;
     NewTableKey := fun db sc n => (db, sc, n);
     MakeObjectNameKey := fun db sc n => (db, sc, n);
     ResolveUncachedSchemaDescriptor := fun _ sc =>
       if String.eqb sc "public" then Ok {| rs_Kind := SchemaPublic; rs_ID := 29 |}
       else if String.eqb sc "pg_catalog"
       then Ok {| rs_Kind := SchemaVirtual; rs_ID := 11 |}
       else Err (Newf pgcode.Uncategorized "unknown schema %q");
     canCreateOnSchema := fun _ _ => Ok tt;
     LookupObjectID := fun _ _ n =>
       if String.eqb n "parent" then (true, 52, None)
       else if String.eqb n "a_type" then (true, 60, None)
       else (false, 0, None);
     GetAnyDescriptorByID := fun id => Ok id;
     NewTypeAlreadyExistsError := fun _ =>
       Newf pgcode.DuplicateObject "type %q already exists";
     WrapErrorWhileConstructingObjectAlreadyExistsErr := fun e => e;
     MakeObjectAlreadyExistsError := fun desc _ =>
       if desc =? 60 then Newf pgcode.DuplicateObject "type %q already exists"
       else Newf pgcode.DuplicateRelation "relation %q already exists";
     IsRelationAlreadyExistsError := fun e =>
       pgcode.eqb (GetPGCode e) pgcode.DuplicateRelation;
     GenerateUniqueDescID := fun _ => Ok 153;
     newTableDesc := fun _ _ _ => mret 0%nat;
     newTableDescIfAs := fun _ _ _ => mret 0%nat;
     FindAllReferences := fun t => Ok (list_to_set (referencesOf t));
     GetUncommittedTableByID := fun s id => lastWritten (written s) id;
     IsNew := fun t => 100 <=? ID t;
     createDescriptorWithID_kv := fun _ _ _ => Ok tt;
     writeSchemaChange_kv := fun _ => Ok tt;
     AllNonDropIndexes := fun t =>
       PrimarySlot :: map IndexSlot (seq 0 (length (Indexes t)));
     GetMutableTableVersionByID := ptrOfID;
     FindIndexByID := fun t id =>
       if idx_ID (PrimaryIndex t) =? id then Ok PrimarySlot
       else match list_find (fun i => idx_ID i = id) (Indexes t) with
            | Some (i, _) => Ok (IndexSlot i)
            | None => Err (Errorf "index-id %d does not exist")
            end;
     addBackRefsFromAllTypesInTable := fun _ => Ok tt;
     Validate := fun _ => Ok tt;
     InsertEventRecord := fun _ => Ok tt;
     fillFromSource := fun _ => Ok tt |}.
#[local] Existing Instance planner.

(** *** The tables of the scenarios *)

Definition column (id : Z) (name : string) (ty : SQLType) (nullable : bool)
  : ColumnDescriptor :=
  {| col_ID := id; col_Name := name; col_Type := ty; col_Nullable := nullable;
     col_DefaultExpr := None; col_ComputeExpr := None; col_Hidden := false |}.

Definition primaryIndex (names : list string)
    (dirs : list IndexDescriptor_Direction) (ids : list Z)
    (ancestors : list InterleaveDescriptor_Ancestor) : IndexDescriptor :=
  {| idx_ID := 1; idx_Name := "primary"; idx_Unique := true;
     idx_ColumnNames := names; idx_ColumnDirections := dirs;
     idx_ColumnIDs := ids; idx_Interleave := ancestors;
     idx_InterleavedBy := []; idx_Version := 0;
     idx_StoreColumnNames := []; idx_Type := IndexDescriptor_FORWARD;
     idx_GeoConfig := GeoConfig_zero;
     idx_Partitioning := PartitioningDescriptor_zero;
     idx_Predicate := EmptyString;
     idx_Sharded := ShardedDescriptor_zero |}.

Definition table (id : Z) (name : string) (state : DescriptorState)
    (cols : list ColumnDescriptor) (pk : IndexDescriptor) : Mutable :=
  {| ID := id; ParentID := 50; Name := name; Temporary := false;
     State := state; Columns := cols; PrimaryIndex := pk; Indexes := [];
     Checks := []; OutboundFKs := []; InboundFKs := []; Mutations := [];
     LocalityConfig := None |}.

Definition tn (name : string) : TableName :=
  {| tn_Catalog := "db"; tn_Schema := "public"; tn_Object := name |}.

(** CREATE TABLE parent (a INT PRIMARY KEY, s STRING), committed. *)
Definition parent : Mutable :=
  table 52 "parent" DescriptorState_PUBLIC
    [column 1 "a" INT8 false; column 2 "s" STRING true]
    (primaryIndex ["a"] [IndexDescriptor_ASC] [1] []).

(** The descriptor under construction for
    CREATE TABLE child (a INT REFERENCES parent (a)), with its hidden
    rowid primary key, before the constraint pass. *)
Definition child : Mutable :=
  table 153 "child" DescriptorState_PUBLIC
    [column 1 "a" INT8 true; column 2 "rowid" INT8 false]
    (primaryIndex ["rowid"] [IndexDescriptor_ASC] [2] []).

(** The same with [a INT NOT NULL]. *)
Definition child_notnull : Mutable :=
  table 153 "child" DescriptorState_PUBLIC
    [column 1 "a" INT8 false; column 2 "rowid" INT8 false]
    (primaryIndex ["rowid"] [IndexDescriptor_ASC] [2] []).

(** CREATE TABLE node (id INT PRIMARY KEY, up INT REFERENCES node (id)). *)
Definition node : Mutable :=
  table 154 "node" DescriptorState_PUBLIC
    [column 1 "id" INT8 false; column 2 "up" INT8 true]
    (primaryIndex ["id"] [IndexDescriptor_ASC] [1] []).

Definition store_of (new : Mutable) : store :=
  {| heap := {[ 0%nat := new; 1%nat := parent ]};
     backrefs := ∅;
     written := [] |}.

(** The resolver of the scenarios: "parent" is the object at pointer 1, and
    "node_copy" is a second object holding the descriptor of [node]. *)
Definition sc : SchemaResolver :=
  fun name =>
    if String.eqb (tn_Object name) "parent" then Ok 1%nat
    else if String.eqb (tn_Object name) "node_copy" then Ok 2%nat
    else Err (Newf pgcode.UndefinedTable "relation %q does not exist").

Definition fk (target : string) (from to : list string)
    (onDelete : ReferenceAction) : ForeignKeyConstraintTableDef :=
  {| fkd_Name := EmptyString; fkd_Table := tn target; fkd_FromCols := from;
     fkd_ToCols := to; fkd_Match := MatchSimple;
     fkd_Delete := onDelete; fkd_Update := NoAction |}.

(** A cluster below [NoOriginFKIndexes], and one at or above it. *)
Definition evalCtx_old : EvalContext :=
  {| ec_Settings := Some {| allowCrossDatabaseFKs := false;
                            NoOriginFKIndexes_active := false |};
     ec_SessionData := None |}.
Definition evalCtx_new : EvalContext :=
  {| ec_Settings := Some {| allowCrossDatabaseFKs := false;
                            NoOriginFKIndexes_active := true |};
     ec_SessionData := None |}.

(** The store of an ALTER TABLE on [node]: the resolver hands out a second
    object (pointer 2) for the table being altered (pointer 0). *)
Definition store_with_copy : store :=
  {| heap := {[ 0%nat := node; 1%nat := parent; 2%nat := node ]};
     backrefs := ∅;
     written := [] |}.

(** CREATE TABLE customers (id INT PRIMARY KEY), committed, and the
    descriptor under construction for
    CREATE TABLE orders (customer INT, id INT, PRIMARY KEY (customer, id))
      INTERLEAVE IN PARENT customers (customer). *)
Definition customers : Mutable :=
  table 61 "customers" DescriptorState_PUBLIC
    [column 1 "id" INT8 false]
    (primaryIndex ["id"] [IndexDescriptor_ASC] [1] []).

Definition orders : Mutable :=
  table 155 "orders" DescriptorState_PUBLIC
    [column 1 "customer" INT8 false; column 2 "id" INT8 false]
    (primaryIndex ["customer"; "id"] [IndexDescriptor_ASC; IndexDescriptor_ASC]
       [1; 2] []).

Definition vt (name : TableName) : result Mutable :=
  if String.eqb (tn_Object name) "customers" then Ok customers
  else if String.eqb (tn_Object name) "parent" then Ok parent
  else Err (Newf pgcode.UndefinedTable "relation %q does not exist").

Definition interleave_in_customers : InterleaveDef :=
  {| ild_Parent := tn "customers"; ild_Fields := ["customer"];
     ild_DropBehavior := DropDefault |}.

(** The descriptor of [orders] as NewTableDesc leaves it after
    addInterleave, the store of its CREATE TABLE (pointer 0 is the new
    descriptor, pointer 1 the committed parent), and the statement. *)
Definition orders_built : Mutable :=
  match addInterleavePrimary vt orders interleave_in_customers with
  | Ok t => t
  | _ => orders
  end.

Definition store_orders : store :=
  {| heap := {[ 0%nat := orders_built; 1%nat := customers ]};
     backrefs := ∅;
     written := [] |}.

Definition create_orders : createTableNode :=
  {| n_dbID := 50; n_Table := tn "orders"; n_IfNotExists := false;
     n_Persistence := PersistencePermanent;
     n_OnCommit := CreateTableOnCommitUnset;
     n_As := false; n_TxnImplicit := true |}.

(** CREATE TABLE t (a INT PRIMARY KEY USING HASH WITH BUCKET_COUNT = 4):
    the column definition, and the empty descriptor the column pass
    starts from. *)
Definition sharded_a : ColumnTableDef :=
  {| ctd_Name := "a"; ctd_Type := INT8; ctd_IsPrimaryKey := true;
     ctd_Sharded := true; ctd_ShardBuckets := NumVal 4 "4" false;
     ctd_IsVirtual := false; ctd_IsComputed := false;
     ctd_HasDefaultExpr := false; ctd_HasColumnFamily := false;
     ctd_FamilyName := EmptyString |}.

Definition empty_t : Mutable :=
  {| ID := 156; ParentID := 50; Name := "t"; Temporary := false;
     State := DescriptorState_PUBLIC; Columns := [];
     PrimaryIndex :=
       {| idx_ID := 0; idx_Name := EmptyString; idx_Unique := false;
          idx_ColumnNames := []; idx_ColumnDirections := [];
          idx_ColumnIDs := []; idx_Interleave := []; idx_InterleavedBy := [];
          idx_Version := 0;
          idx_StoreColumnNames := []; idx_Type := IndexDescriptor_FORWARD;
          idx_GeoConfig := GeoConfig_zero;
          idx_Partitioning := PartitioningDescriptor_zero;
          idx_Predicate := EmptyString;
          idx_Sharded := ShardedDescriptor_zero |};
     Indexes := []; Checks := []; OutboundFKs := []; InboundFKs := [];
     Mutations := [];
     LocalityConfig := None |}.

Definition all_active : ClusterVersion := {| IsActive := fun _ => true |}.

(** ResolveFK for [child (a) REFERENCES parent (to)] during CREATE TABLE. *)
Definition resolve_child (new : Mutable) (to : list string)
    (onDelete : ReferenceAction) (vb : ValidationBehavior)
    (evalCtx : EvalContext) : result unit * store :=
  ResolveFK (fkSelfResolver sc 0%nat (tn "child")) 0%nat
    (fk "parent" ["a"] to onDelete) NewTable vb evalCtx (store_of new).

(** ResolveFK for ALTER TABLE child ADD FOREIGN KEY (a) REFERENCES parent
    (a) on an empty table. *)
Definition alter_child (vb : ValidationBehavior) : result unit * store :=
  ResolveFK sc 0%nat (fk "parent" ["a"] ["a"] NoAction) EmptyTable vb
    evalCtx_old (store_of child).

(** ResolveFK for [node (up) REFERENCES node (id)], resolved to the copy. *)
Definition resolve_node : result unit * store :=
  ResolveFK sc 0%nat (fk "node_copy" ["up"] ["id"] NoAction) NewTable
    ValidationDefault evalCtx_new store_with_copy.

(** *** NewTableDesc *)

Definition indexDirection (d : tree_Direction) : IndexDescriptor_Direction :=
  match d with
  | Descending => IndexDescriptor_DESC
  | _ => IndexDescriptor_ASC
  end.

Definition fillColumns (elems : list IndexElem) (i : IndexDescriptor)
  : IndexDescriptor :=
  {| idx_ID := idx_ID i; idx_Name := idx_Name i; idx_Unique := idx_Unique i;
     idx_ColumnNames := map ie_Column elems;
     idx_ColumnDirections := map (fun e => indexDirection (ie_Direction e)) elems;
     idx_ColumnIDs := idx_ColumnIDs i; idx_Interleave := idx_Interleave i;
     idx_InterleavedBy := idx_InterleavedBy i; idx_Version := idx_Version i;
     idx_StoreColumnNames := idx_StoreColumnNames i;
     idx_Type := idx_Type i; idx_GeoConfig := idx_GeoConfig i;
     idx_Partitioning := idx_Partitioning i;
     idx_Predicate := idx_Predicate i; idx_Sharded := idx_Sharded i |}.

Definition withSharded (sh : ShardedDescriptor) (i : IndexDescriptor)
  : IndexDescriptor :=
  {| idx_ID := idx_ID i; idx_Name := idx_Name i; idx_Unique := idx_Unique i;
     idx_ColumnNames := idx_ColumnNames i;
     idx_ColumnDirections := idx_ColumnDirections i;
     idx_ColumnIDs := idx_ColumnIDs i; idx_Interleave := idx_Interleave i;
     idx_InterleavedBy := idx_InterleavedBy i; idx_Version := idx_Version i;
     idx_StoreColumnNames := idx_StoreColumnNames i;
     idx_Type := idx_Type i; idx_GeoConfig := idx_GeoConfig i;
     idx_Partitioning := idx_Partitioning i;
     idx_Predicate := idx_Predicate i; idx_Sharded := sh |}.

(** The shard column is made or found, put in front of the columns of the
    index, and the index is marked as sharded. *)
Definition shardedIndex (enabled : bool) (columns : list IndexElem)
    (bucketsExpr : Expr) (desc : Mutable) (idx : IndexDescriptor)
    (isNewTable : bool)
  : result (ColumnDescriptor * bool * list IndexElem * Mutable
            * IndexDescriptor) :=
  if negb enabled then Err hashShardedIndexesDisabledError
  else
    (let colNames := map ie_Column columns in
     let* buckets := EvalShardBucketCount bucketsExpr in
     let* (shardCol, newColumn, desc) :=
       maybeCreateAndAddShardCol buckets desc colNames isNewTable in
     Ok (shardCol, newColumn,
         {| ie_Column := col_Name shardCol; ie_Direction := Ascending |}
         :: columns,
         desc,
         withSharded {| IsSharded := true; sh_Name := col_Name shardCol;
                        ShardBuckets := buckets;
                        sh_ColumnNames := colNames |} idx))%res.

(** The family of the first column that the shard is computed from; each
    column is in the family "primary". *)
Definition aenv : AssembleEnv :=
  {| InitTableDescriptor := fun id parentID parentSchemaID name persistence =>
       {| ID := id; ParentID := parentID; Name := name;
          Temporary := IsTemporary persistence;
          State := DescriptorState_PUBLIC; Columns := [];
          PrimaryIndex := newIndexDescriptor EmptyString false [] 0;
          Indexes := []; Checks := []; OutboundFKs := []; InboundFKs := [];
          Mutations := []; LocalityConfig := None |};
     ApplyTableStorageParameters := fun params =>
       match params with
       | [] => Ok tt
       | _ => Err (Newf pgcode.InvalidParameterValue
                     "invalid storage parameter %q")
       end;
     ApplyIndexStorageParameters := fun _ idx => (Ok tt, idx);
     SecondaryIndexFamilyFormatVersion := 2;
     EmptyArraysInInvertedIndexesVersion := 3;
     ActiveVersionOrEmpty := fun _ => all_active;
     IsZeroVersion := fun _ => false;
     SourceInfo := list string;
     NewSourceInfoForSingleTable := fun _ _ columns => map col_Name columns;
     ParseExpr := fun text => Ok text;
     DequalifyColumnRefs := fun _ expr => Ok expr;
     setupShardedIndex := shardedIndex;
     FillColumns := fun elems idx => (Ok tt, fillColumns elems idx);
     InvertedColumnName := fun idx => List.last (idx_ColumnNames idx) EmptyString;
     FindColumnByName := findColumn;
     GeoSRIDOrZero := fun _ => 0;
     GeometryIndexConfigForSRID := fun srid => Ok srid;
     DefaultGeographyIndexConfig := 4326;
     CreatePartitioningCCL := fun _ _ _ _ _ =>
       Err (Errorf "creating or manipulating partitions requires a CCL binary");
     ValidateIndexPredicate := fun _ _ predicate => format predicate;
     IsPhysicalTable := fun _ => true;
     AddFamily := fun _ t => t;
     GetColumnFamilyForShard := fun _ _ => "primary";
     maybeAddSequenceDependencies := fun _ _ _ _ => mret [];
     MakeCheckConstraintBuilder := fun _ => [];
     ValidateComputedColumn := fun _ _ _ => Ok tt;
     DatabaseDescriptor := Z;
     MustGetDatabaseDescByID := fun _ id => Ok id;
     ValidateTableLocalityConfig := fun _ _ _ => Ok tt;
     errors_Wrap := fun err _ => err |}.
#[local] Existing Instance aenv.

(** CREATE TABLE t (a INT PRIMARY KEY USING HASH WITH BUCKET_COUNT = 4),
    in a session that has hash-sharded indexes enabled and a transaction
    that holds the committed table [parent]. *)
Definition create_table_t : CreateTable :=
  {| ct_Table := tn "t"; ct_Defs := [Def_Column sharded_a];
     ct_StorageParams := []; ct_PartitionBy := None; ct_Interleave := None;
     ct_Locality := None |}.

Definition sessionData : SessionData :=
  {| HashShardedIndexesEnabled := true;
     EnableMultiColumnInvertedIndexes := false;
     RequireExplicitPrimaryKeys := false |}.

Definition settings : Settings :=
  {| allowCrossDatabaseFKs := false; NoOriginFKIndexes_active := true |}.

Definition store_committed : store :=
  {| heap := {[ 1%nat := parent ]}; backrefs := ∅; written := [] |}.

Definition new_t : result ptr * store :=
  NewTableDesc sc settings create_table_t 50 29 156 evalCtx_new sessionData
    PersistencePermanent store_committed.

End Ref.

(** ** The statements about ResolveFK *)

Section StatementsFK.
Context {types : Types} {cat : Catalog}.

(** What a successful ResolveFK has done, seen from the store before ([s])
    and after ([s']): one constraint [ref], from the origin table [t] at
    [tbl] to the table [tg] at [target]. For a new table [ref] is the last
    outbound key of the origin and the last inbound key of the target, and
    nothing else is added to either list of either table; for an existing
    table the origin is what one call of AddForeignKeyMutation returns for
    [ref] on the origin as it was, [t], or, when ensureOriginIndex had to
    add an index, on [t] with that index queued. No other descriptor of the
    store changes. *)
Definition one_constraint_added (d : ForeignKeyConstraintTableDef)
    (tbl : ptr) (ts : FKTableState) (evalCtx : EvalContext) (t : Mutable)
    (s s' : store) : Prop :=
  exists target tg ref,
    heap s !! target = Some tg
    /\ OriginTableID ref = ID t
    /\ ReferencedTableID ref = ID tg
    /\ OnDelete ref = ForeignKeyReferenceActionValue (fkd_Delete d)
    /\ OnUpdate ref = ForeignKeyReferenceActionValue (fkd_Update d)
    /\ Match ref = CompositeKeyMatchMethodValue (fkd_Match d)
    /\ (forall p, p <> tbl -> p <> target -> heap s' !! p = heap s !! p)
    /\ match ts with
       | NewTable =>
           exists t' tg',
             heap s' !! tbl = Some t'
             /\ heap s' !! target = Some tg'
             /\ OutboundFKs t' = OutboundFKs t ++ [ref]
             /\ InboundFKs tg' = InboundFKs tg ++ [ref]
             /\ (target <> tbl ->
                 InboundFKs t' = InboundFKs t
                 /\ OutboundFKs tg' = OutboundFKs tg)
       | _ =>
           exists oc,
             resolveOriginCols t (fkd_FromCols d) ∅ [] = Ok oc
             /\ let t2 := if needsAutoIndex evalCtx t oc
                          then withAutoIndex ts t oc (fk_Name ref) else t in
                heap s' !! tbl
                = Some (AddForeignKeyMutation ref DescriptorMutation_ADD t2)
                /\ OutboundFKs (AddForeignKeyMutation ref DescriptorMutation_ADD t2)
                   = OutboundFKs t
                /\ InboundFKs (AddForeignKeyMutation ref DescriptorMutation_ADD t2)
                   = InboundFKs t
                /\ (target <> tbl -> heap s' !! target = Some tg)
       end.

(** The origin columns [oc] contradict the actions of [d]: SET NULL with a
    NOT NULL column, or SET DEFAULT with a NOT NULL column that has no
    default expression. *)
Definition violatesActions (d : ForeignKeyConstraintTableDef)
    (oc : list ColumnDescriptor) : bool :=
  (hasAction SetNull d && existsb (fun c => negb (col_Nullable c)) oc)
  || (hasAction SetDefault d
      && existsb (fun c => match col_DefaultExpr c with
                           | None => negb (col_Nullable c)
                           | Some _ => false
                           end) oc).

(** The outcome of a self-referencing ResolveFK on the origin object
    [tbl]: [backrefs] is as before, no other object of the store is
    edited, and for a new table the one object carries the constraint in
    both of its lists. *)
Definition self_reference_shared (tbl : ptr) (ts : FKTableState)
    (t : Mutable) (s s' : store) : Prop :=
  backrefs s' = backrefs s
  /\ (forall p, p <> tbl -> heap s' !! p = heap s !! p)
  /\ (ts = NewTable ->
      exists ref t',
        heap s' !! tbl = Some t'
        /\ OutboundFKs t' = OutboundFKs t ++ [ref]
        /\ InboundFKs t' = InboundFKs t ++ [ref]
        /\ OriginTableID ref = ID t
        /\ ReferencedTableID ref = ID t).

(** The outcome of ResolveFK for the first foreign key of a new table
    [child] at [tbl] that references another table [parent] at [pp]. *)
Definition new_table_fk_added (tbl pp : ptr) (d : ForeignKeyConstraintTableDef)
    (evalCtx : EvalContext) (child parent : Mutable) (s s' : store) : Prop :=
  exists ref child' parent' oc,
    heap s' !! tbl = Some child'
    /\ heap s' !! pp = Some parent'
    /\ OutboundFKs child' = [ref]
    /\ InboundFKs parent' = [ref]
    /\ Validity ref = ConstraintValidity_Validated
    /\ backrefs s' !! ID parent = Some pp
    /\ resolveOriginCols child (fkd_FromCols d) ∅ [] = Ok oc
    /\ let child1 := set_State DescriptorState_ADD child in
       let withIndex :=
         snd (AllocateIDs
                (snd (AddIndex (autoIndex child1 oc (fk_Name ref)) false child1))) in
       child' =
       set_OutboundFKs [ref]
         (if originIndexRequired evalCtx
             && isErr (FindFKOriginIndexInTxn child1 (map col_ID oc))
          then withIndex else child1).

(** A computation that leaves the store as it is, whatever it returns. *)
Definition stateless {A} (m : M A) : Prop :=
  forall s r s', m s = (r, s') -> s' = s.

(** From [s] to [s1] nothing is written, and no descriptor changes except
    that the one at [tbl] may have been put in the ADD state. *)
Definition only_state_added (tbl : ptr) (s s1 : store) : Prop :=
  written s1 = written s
  /\ forall p,
       heap s1 !! p = heap s !! p
       \/ (p = tbl /\ exists t, heap s !! tbl = Some t
                    /\ heap s1 !! tbl = Some (set_State DescriptorState_ADD t)).

End StatementsFK.

(** ** The statements about addInterleave *)

Section StatementsInterleave.
Context {types : Types} {cat : Catalog}.

(** The sum of the SharedPrefixLen values of a chain of ancestors. *)
Definition ancestorSum (l : list InterleaveDescriptor_Ancestor) : Z :=
  fold_right Z.add 0 (map anc_SharedPrefixLen l).

(** What a successful addInterleave has done: the chain of the child index
    is the chain of the parent's primary index followed by the entry for
    the parent, the child table is in the ADD state, and nothing else has
    changed. *)
Definition ancestor_chain_appended (parentTable desc : Mutable)
    (index_ : IndexDescriptor) (desc' : Mutable) (index' : IndexDescriptor)
  : Prop :=
  let parentIndex := PrimaryIndex parentTable in
  let count := Z.of_nat (length (idx_ColumnIDs parentIndex)) in
  let inherited := ancestorSum (idx_Interleave parentIndex) in
  idx_Interleave index' =
    idx_Interleave parentIndex
    ++ [{| anc_TableID := ID parentTable;
           anc_IndexID := idx_ID parentIndex;
           anc_SharedPrefixLen := uint32 (count - inherited) |}]
  /\ (0 <= inherited <= count -> count < 2 ^ 32 ->
      uint32 (count - inherited) = count - inherited)
  /\ State desc' = DescriptorState_ADD
  /\ desc' = set_State DescriptorState_ADD desc
  /\ index' = set_Interleave (idx_Interleave index') index_.

(** Position [i] of the interleave prefix: the declared field is the name
    of the [i]-th column of the child index, and that column has the type
    and the direction of the [i]-th column of the parent's primary index. *)
Definition position_matches (parentTable desc : Mutable)
    (index_ : IndexDescriptor) (Fields : list string) (i : nat) : Prop :=
  exists pid cid pc cc field dir,
    idx_ColumnIDs (PrimaryIndex parentTable) !! i = Some pid
    /\ idx_ColumnIDs index_ !! i = Some cid
    /\ FindColumnByID parentTable pid = Ok pc
    /\ FindColumnByID desc cid = Ok cc
    /\ Fields !! i = Some field
    /\ field = col_Name cc
    /\ Identical (col_Type cc) (col_Type pc) = true
    /\ idx_ColumnDirections index_ !! i = Some dir
    /\ idx_ColumnDirections (PrimaryIndex parentTable) !! i = Some dir.

(** The prefix law that addInterleave enforces. *)
Definition prefix_law (parentTable desc : Mutable) (index_ : IndexDescriptor)
    (Fields : list string) : Prop :=
  length Fields = length (idx_ColumnIDs (PrimaryIndex parentTable))
  /\ (length Fields <= length (idx_ColumnIDs index_))%nat
  /\ forall i, (i < length Fields)%nat ->
               position_matches parentTable desc index_ Fields i.

(** The descriptors are well formed as far as addInterleave reads them:
    the key columns of both indexes exist, and each index has a direction
    for each of its key columns. *)
Definition interleave_inputs_ok (parentTable desc : Mutable)
    (index_ : IndexDescriptor) : Prop :=
  (forall pid, pid ∈ idx_ColumnIDs (PrimaryIndex parentTable) ->
               isOk (FindColumnByID parentTable pid) = true)
  /\ (forall cid, cid ∈ idx_ColumnIDs index_ ->
                  isOk (FindColumnByID desc cid) = true)
  /\ length (idx_ColumnDirections index_) = length (idx_ColumnIDs index_)
  /\ length (idx_ColumnDirections (PrimaryIndex parentTable))
     = length (idx_ColumnIDs (PrimaryIndex parentTable)).

(** The additional condition of the law as the specification words it: the
    declared fields are also the names of the leading columns of the
    parent's primary index. *)
Definition matches_parent_names (parentTable : Mutable)
    (Fields : list string) : Prop :=
  forall i field,
    Fields !! i = Some field ->
    idx_ColumnNames (PrimaryIndex parentTable) !! i = Some field.

End StatementsInterleave.

(** ** The statements about hash-sharded primary keys *)

Section StatementsShard.
Context {types : Types} {cat : Catalog} {env : ShardEnv} {benv : BuildEnv}.
Context {planner : Planner} {aenv : AssembleEnv}.

(** The sum of the hashed columns as the specification describes it:
    fnv32 of each COALESCE-wrapped cast, added in the order of the column
    list. *)
Fixpoint hashSum (colNames : list string) : Expr :=
  match colNames with
  | [] => NilExpr
  | [c] => hashedColumnExpr c
  | c :: rest => BinaryExpr Plus (hashedColumnExpr c) (hashSum rest)
  end.

(** The shard column of a hash-sharded primary key on the column [name]
    with [buckets] buckets, as the column pass adds it, and the check
    definition [shard IN (0, 1, 2, 3)]. *)
Definition shardColumn (name : string) (buckets : Z) (computeExpr : string)
  : ColumnDescriptor :=
  {| col_ID := 0;
     col_Name := GetShardColumnName [name] (int32 buckets);
     col_Type := types_Int4;
     col_Nullable := false;
     col_DefaultExpr := None;
     col_ComputeExpr := Some computeExpr;
     col_Hidden := true |}.

Definition shardCheck4 (shardColumnName : string) : CheckConstraintTableDef :=
  {| ckd_Name := EmptyString;
     ckd_Expr :=
       ComparisonExpr tree_In (ColumnItem shardColumnName)
         (Tuple [NumVal 0 "0" false; NumVal 1 "1" false;
                 NumVal 2 "2" false; NumVal 3 "3" false]);
     ckd_Hidden := true |}.

(** [c'] is the column [c] but for its ID. *)
Definition sameButID (c c' : ColumnDescriptor) : Prop :=
  col_Name c' = col_Name c
  /\ col_Type c' = col_Type c
  /\ col_Nullable c' = col_Nullable c
  /\ col_DefaultExpr c' = col_DefaultExpr c
  /\ col_ComputeExpr c' = col_ComputeExpr c
  /\ col_Hidden c' = col_Hidden c.

(** What NewTableDesc needs to know, in the scenario of the hash-sharded
    primary key, about the code of other packages: a descriptor starts
    without columns and checks; adding an index and assigning a column to a
    family leave the columns and the checks as they are; the allocation of
    IDs leaves the checks as they are and changes of a column its ID at
    most; and the check that the builder makes is hidden if the definition
    is. *)
Class BuildLaws : Prop := {
  InitTableDescriptor_Columns :
    forall id parentID parentSchemaID name persistence,
      Columns (InitTableDescriptor id parentID parentSchemaID name persistence)
      = [];
  InitTableDescriptor_Checks :
    forall id parentID parentSchemaID name persistence,
      Checks (InitTableDescriptor id parentID parentSchemaID name persistence)
      = [];
  AddIndex_keeps_Columns :
    forall idx primary t, Columns (snd (AddIndex idx primary t)) = Columns t;
  AddIndex_keeps_Checks :
    forall idx primary t, Checks (snd (AddIndex idx primary t)) = Checks t;
  AddColumnToFamilyMaybeCreate_keeps_Columns :
    forall col family create ifNotExists t,
      Columns (snd (AddColumnToFamilyMaybeCreate col family create ifNotExists t))
      = Columns t;
  AddColumnToFamilyMaybeCreate_keeps_Checks :
    forall col family create ifNotExists t,
      Checks (snd (AddColumnToFamilyMaybeCreate col family create ifNotExists t))
      = Checks t;
  AllocateIDs_keeps_Columns :
    forall t, Forall2 sameButID (Columns t) (Columns (snd (AllocateIDs t)));
  AllocateIDs_keeps_Checks :
    forall t, Checks (snd (AllocateIDs t)) = Checks t;
  Build_keeps_Hidden :
    forall b t d ck b', Build b t d = (Ok ck, b') -> ck_Hidden ck = ckd_Hidden d;
}.

(** The columns of the table whose one definition is the column [d] with a
    hash-sharded primary key of four buckets: two, the shard column and the
    declared one. The shard column is named by GetShardColumnName from the
    column list and the bucket count, of type INT4, not nullable and
    hidden, and computed by the dequalified hash expression. The declared
    column is as MakeColumnDefDescs made it. *)
Definition shardColumns (d : ColumnTableDef) (columns : list ColumnDescriptor)
  : Prop :=
  exists shard col,
    columns = [shard; col]
    /\ col_Name shard = GetShardColumnName [ctd_Name d] (int32 4)
    /\ col_Type shard = types_Int4
    /\ col_Nullable shard = false
    /\ col_Hidden shard = true
    /\ (exists hash parsed sourceInfo computeExpr,
          makeHashShardComputeExpr [ctd_Name d] 4 = Ok hash
          /\ ParseExpr hash = Ok parsed
          /\ DequalifyColumnRefs sourceInfo parsed = Ok computeExpr
          /\ col_ComputeExpr shard = Some computeExpr)
    /\ (exists col0 idx expr,
          MakeColumnDefDescs d = Ok (col0, idx, expr)
          /\ col_Name col = col_Name col0
          /\ col_Type col = col_Type col0
          /\ col_Nullable col = col_Nullable col0
          /\ col_Hidden col = col_Hidden col0).

(** The descriptor that NewTableDesc returned at [p] for the statement [n],
    whose one definition is the column [d] with a hash-sharded primary key
    of four buckets. Its columns are the shard column and the declared one.
    Its checks are one: hidden, and what the check-constraint builder of
    the table made of the definition [shard IN (0, 1, 2, 3)] for a
    descriptor [tb] with these columns and without checks. *)
Definition shard_scenario_built (n : CreateTable) (d : ColumnTableDef)
    (p : ptr) (s' : store) : Prop :=
  exists t' ck,
    heap s' !! p = Some t'
    /\ shardColumns d (Columns t')
    /\ Checks t' = [ck]
    /\ ck_Hidden ck = true
    /\ exists tb b',
         Forall2 sameButID (Columns tb) (Columns t')
         /\ Checks tb = []
         /\ Build (MakeCheckConstraintBuilder (ct_Table n)) tb
              (shardCheck4 (GetShardColumnName [ctd_Name d] (int32 4)))
            = (Ok ck, b').

End StatementsShard.

(** ** The statements about startExec *)

Section StatementsExec.
Context {types : Types} {cat : Catalog} {planner : Planner}.

(** The key and the schema ID that getTableCreateParams computes for a
    table name before it looks the name up. *)
Definition createKeys (dbID : Z) (persistence : Persistence)
    (tableName : TableName) (tKey : DescriptorKey) (schemaID : Z) : Prop :=
  if IsTemporary persistence then
    TempTablesEnabled = true
    /\ getOrCreateTemporarySchema dbID = Ok schemaID
    /\ tKey = NewTableKey dbID schemaID (tn_Object tableName)
  else
    getSchemaIDForCreate dbID (tn_Schema tableName) = Ok schemaID
    /\ tKey = MakeObjectNameKey dbID schemaID (tn_Object tableName).

(** The index behind [sl] has a non-empty chain of interleave ancestors. *)
Definition interleaved (t : Mutable) (sl : index_slot) : bool :=
  match get_index sl t with
  | Ok idx => (0 <? length (idx_Interleave idx))%nat
  | _ => false
  end.

(** What finalizeInterleave does to the state of the descriptor. *)
Definition published (st : DescriptorState) : DescriptorState :=
  match st with
  | DescriptorState_ADD => DescriptorState_PUBLIC
  | _ => st
  end.

(** A reference [id] of the new table is external: the transaction has no
    uncommitted descriptor for it, or has one that it did not create. *)
Definition externalReference (s : store) (id : Z) : Prop :=
  match GetUncommittedTableByID s id with
  | None => True
  | Some t => IsNew t = false
  end.

Definition hasExternalReference (s : store) (refs : gset Z) : Prop :=
  exists id, id ∈ refs /\ externalReference s id.

(** One of the indexes of [t] that are not being dropped has a non-empty
    chain of interleave ancestors. *)
Definition hasInterleavedIndex (t : Mutable) : Prop :=
  exists sl idx,
    sl ∈ AllNonDropIndexes t
    /\ get_index sl t = Ok idx
    /\ idx_Interleave idx <> [].

(** The outcome of a successful plain CREATE TABLE for the state of the
    new descriptor. [s2] is the store and [t2] the descriptor as
    newTableDesc returns them. If [t2] is in the ADD state, the first
    descriptor written after that is [t3], which is [t2] in the state
    PUBLIC when no reference is external and in the state ADD otherwise;
    [t'] is the descriptor when startExec returns: PUBLIC when no reference
    is external or when one of its indexes is interleaved, otherwise
    ADD. *)
Definition state_gating_outcome (n : createTableNode) (s s' : store) : Prop :=
  exists schemaID id p s2 t2,
    newTableDesc n schemaID id
      {| heap := heap s; backrefs := ∅; written := written s |} = (Ok p, s2)
    /\ heap s2 !! p = Some t2
    /\ (Adding t2 = true ->
        exists refs t3 later t',
          FindAllReferences t2 = Ok refs
          /\ written s' = written s2 ++ (ID t3, t3) :: later
          /\ t3 = set_State (State t3) t2
          /\ (State t3 = DescriptorState_PUBLIC
              <-> ~ hasExternalReference s2 refs)
          /\ (State t3 = DescriptorState_ADD
              <-> hasExternalReference s2 refs)
          /\ heap s' !! p = Some t'
          /\ (State t' = DescriptorState_PUBLIC
              <-> ~ hasExternalReference s2 refs \/ hasInterleavedIndex t3)
          /\ (State t' = DescriptorState_ADD
              <-> hasExternalReference s2 refs /\ ~ hasInterleavedIndex t3)).

(** [t'] is [t] as far as the state and the interleaving of its indexes
    go. *)
Definition same_interleave (t t' : Mutable) : Prop :=
  State t' = State t /\ forall sl, interleaved t' sl = interleaved t sl.

(** Every descriptor write of [s] is among those of [s']. *)
Definition written_grows (s s' : store) : Prop :=
  forall e, e ∈ written s -> e ∈ written s'.

End StatementsExec.

(** ** The laws of the interfaces

    What the statements below need to know about the tabledesc methods that
    ResolveFK calls on the origin table: adding an index, queueing a
    mutation and allocating IDs leave the descriptor's ID and its two lists
    of foreign keys as they are. *)

Section Laws.
Context {types : Types} {cat : Catalog}.

Definition keeps_constraints (f : Mutable -> Mutable) : Prop :=
  forall t,
    ID (f t) = ID t
    /\ OutboundFKs (f t) = OutboundFKs t
    /\ InboundFKs (f t) = InboundFKs t.

Class CatalogLaws : Prop := {
  AddIndex_keeps :
    forall idx primary, keeps_constraints (fun t => snd (AddIndex idx primary t));
  AddIndexMutation_keeps :
    forall idx dir, keeps_constraints (fun t => snd (AddIndexMutation idx dir t));
  AllocateIDs_keeps : keeps_constraints (fun t => snd (AllocateIDs t));
  AddForeignKeyMutation_keeps :
    forall fk dir, keeps_constraints (AddForeignKeyMutation fk dir);
}.

End Laws.

(** ** Further statements about ResolveFK *)

Section StatementsForeignKeyChecks.
Context {types : Types} {cat : Catalog}.

(** [name] is resolved to the column [c] of [t], and [c] may be the origin
    of a foreign key. *)
Definition originColumn (t : Mutable) (name : string) (c : ColumnDescriptor)
  : Prop :=
  FindActiveOrNewColumnByName t name = Ok c /\ CheckCanBeFKRef c = Ok tt.

(** [referencedColNames]: the columns named in the definition or, if none
    is, the columns of the primary index of the target. *)
Definition referencedColNames (tg : Mutable) (d : ForeignKeyConstraintTableDef)
  : list string :=
  if (length (fkd_ToCols d) =? 0)%nat
  then idx_ColumnNames (PrimaryIndex tg) else fkd_ToCols d.

Definition equivalentTypes (o r : ColumnDescriptor) : Prop :=
  Equivalent (col_Type o) (col_Type r) = true.

(** Where a successful ResolveFK leaves the constraint [ref] on the origin
    table: as its last outbound key on a new table, as the argument of
    AddForeignKeyMutation on an existing one. *)
Definition recorded (ref : ForeignKeyConstraint) (tbl : ptr) (ts : FKTableState)
    (s' : store) : Prop :=
  match ts with
  | NewTable =>
      exists t', heap s' !! tbl = Some t' /\ last (OutboundFKs t') = Some ref
  | _ =>
      exists t2, heap s' !! tbl
                 = Some (AddForeignKeyMutation ref DescriptorMutation_ADD t2)
  end.

(** A computation that edits no descriptor and writes nothing, whatever it
    returns; it may add to [backrefs]. *)
Definition keeps_heap {A} (m : M A) : Prop :=
  forall s r s', m s = (r, s') -> heap s' = heap s /\ written s' = written s.

(** The shape of the constraint [ref] that a successful ResolveFK records
    for the definition [d] on the origin table [t]: [oc] are the origin
    columns, and [rc] the columns that FindActiveColumnsByNames finds in
    the table [tg] of the object [target] that resolveTarget chose, under
    the names of [d.ToCols] or, if there is none, of the primary index of
    [tg]. *)
Definition constraint_shape (sc : SchemaResolver)
    (d : ForeignKeyConstraintTableDef) (tbl : ptr) (ts : FKTableState)
    (evalCtx : EvalContext) (t : Mutable) (s s' : store) : Prop :=
  exists ref oc rc target s1 tg,
    recorded ref tbl ts s'
    /\ resolveTarget sc tbl d ts evalCtx s = (Ok (oc, target), s1)
    /\ heap s1 !! target = Some tg
    /\ FindActiveColumnsByNames tg (referencedColNames tg d) = Ok rc
    /\ Forall2 (originColumn t) (fkd_FromCols d) oc
    /\ OriginColumnIDs ref = map col_ID oc
    /\ ReferencedColumnIDs ref = map col_ID rc
    /\ NoDup (OriginColumnIDs ref)
    /\ length (OriginColumnIDs ref) = length (fkd_FromCols d)
    /\ length (ReferencedColumnIDs ref) = length (OriginColumnIDs ref)
    /\ Forall2 equivalentTypes oc rc
    /\ (fkd_Name d <> EmptyString -> fk_Name ref = fkd_Name d).

(** The outcome [r] of ResolveFK on a non-empty existing table [t], from
    the store [s] to [s']. *)
Definition nonempty_table_outcome (d : ForeignKeyConstraintTableDef)
    (tbl : ptr) (ec : EvalContext) (t : Mutable) (s : store)
    (r : result unit) (s' : store) : Prop :=
  written s' = written s
  /\ match r with
     | Ok _ =>
         exists ref oc,
           resolveOriginCols t (fkd_FromCols d) ∅ [] = Ok oc
           /\ needsAutoIndex ec t oc = false
           /\ heap s' =
              <[tbl := AddForeignKeyMutation ref DescriptorMutation_ADD t]> (heap s)
     | _ => heap s' = heap s
     end.

(** The outcome of a successful ResolveFK on an existing table. *)
Definition queued_with_validity (tbl : ptr) (vb : ValidationBehavior)
    (s s' : store) : Prop :=
  exists ref t2,
    heap s' !! tbl = Some (AddForeignKeyMutation ref DescriptorMutation_ADD t2)
    /\ Validity ref =
       match vb with
       | ValidationSkip => ConstraintValidity_Unvalidated
       | ValidationDefault => ConstraintValidity_Validating
       end
    /\ (forall p, p <> tbl -> heap s' !! p = heap s !! p)
    /\ written s' = written s.

(** The outcome of a successful ResolveFK on an empty existing table
    [t]. *)
Definition empty_table_outcome (d : ForeignKeyConstraintTableDef) (tbl : ptr)
    (ec : EvalContext) (t : Mutable) (s' : store) : Prop :=
  exists oc ref,
    resolveOriginCols t (fkd_FromCols d) ∅ [] = Ok oc
    /\ let idx := autoIndex t oc (fk_Name ref) in
       heap s' !! tbl
       = Some (AddForeignKeyMutation ref DescriptorMutation_ADD
                 (if needsAutoIndex ec t oc
                  then snd (AllocateIDs
                              (snd (AddIndexMutation idx DescriptorMutation_ADD t)))
                  else t))
       /\ idx_ColumnNames idx = map col_Name oc
       /\ idx_ColumnDirections idx = map (fun _ => IndexDescriptor_ASC) oc
       /\ idx_Unique idx = false.

(** The outcome of a successful ResolveFK for a new table when the object
    [prev], holding [tgp], is recorded in [backrefs] for the referenced
    table: the constraint [ref], the last outbound key of the origin, is
    the one inbound key that the recorded object has gained, and nothing
    else of that object has changed. *)
Definition recorded_backref_edited (tbl prev : ptr) (tgp : Mutable)
    (s s' : store) : Prop :=
  backrefs s' = backrefs s
  /\ (forall p, p <> tbl -> p <> prev -> heap s' !! p = heap s !! p)
  /\ exists ref t' tp',
       heap s' !! tbl = Some t'
       /\ last (OutboundFKs t') = Some ref
       /\ heap s' !! prev = Some tp'
       /\ InboundFKs tp' = InboundFKs tgp ++ [ref]
       /\ tp' = set_InboundFKs (InboundFKs tp') tgp
       /\ ReferencedTableID ref = ID tgp.

End StatementsForeignKeyChecks.

(** ** Further statements about NewTableDesc *)

Section StatementsPasses.
Context {types : Types} {cat : Catalog} {env : ShardEnv} {benv : BuildEnv}.

(** The FOREIGN KEY definitions of a list of definitions, in order. *)
Definition fkDefs (defs : list TableDef) : list ForeignKeyConstraintTableDef :=
  omap (fun def => match def with
                   | Def_ForeignKeyConstraint d => Some d
                   | _ => None
                   end) defs.

(** [ref] is a constraint of the new table [t] made from the definition
    [d]. *)
Definition built_from (t : Mutable) (d : ForeignKeyConstraintTableDef)
    (ref : ForeignKeyConstraint) : Prop :=
  OriginTableID ref = ID t
  /\ length (OriginColumnIDs ref) = length (fkd_FromCols d)
  /\ OnDelete ref = ForeignKeyReferenceActionValue (fkd_Delete d)
  /\ OnUpdate ref = ForeignKeyReferenceActionValue (fkd_Update d)
  /\ Match ref = CompositeKeyMatchMethodValue (fkd_Match d)
  /\ Validity ref = ConstraintValidity_Validated.

(** The column definitions of a list of definitions, in order. *)
Definition columnDefs (defs : list TableDef) : list ColumnTableDef :=
  omap (fun def => match def with Def_Column d => Some d | _ => None end) defs.

Definition isShardedColumnDef (def : TableDef) : bool :=
  match def with
  | Def_Column d => ctd_Sharded d
  | _ => false
  end.

(** The check definition hoisted for a shard column: hidden and unnamed. *)
Definition hoistedCheck (c : CheckConstraintTableDef) : Prop :=
  ckd_Hidden c = true /\ ckd_Name c = EmptyString.

(** What the column pass requires of a column definition on the
    descriptor [desc]. *)
Definition acceptedColumnDef
    (PartitionBy Interleave HashShardedIndexesEnabled : bool)
    (version : ClusterVersion) (desc : Mutable) (d : ColumnTableDef) : Prop :=
  (exists ty,
     ResolveType (ctd_Type d) = Ok ty
     /\ isTypeSupportedInVersion version ty = Ok true
     /\ (IsVirtualTable desc = false ->
         Oid ty <> T_int2vector /\ Oid ty <> T_oidvector))
  /\ ctd_IsVirtual d = false
  /\ isOk (MakeColumnDefDescs d) = true
  /\ (ctd_Sharded d = true ->
      HashShardedIndexesEnabled = true /\ PartitionBy = false
      /\ Interleave = false
      /\ isOk (EvalShardBucketCount (ctd_ShardBuckets d)) = true).

Definition acceptedDef (PartitionBy Interleave HashShardedIndexesEnabled : bool)
    (version : ClusterVersion) (desc : Mutable) (def : TableDef) : Prop :=
  match def with
  | Def_Column d =>
      acceptedColumnDef PartitionBy Interleave HashShardedIndexesEnabled version
        desc d
  | _ => True
  end.

(** The entry of [columnDefaultExprs] that belongs to a definition: the
    default expression of a column definition that has one, nil for every
    other definition. *)
Definition defaultExprSlot (def : TableDef) (slot : option TypedExpr) : Prop :=
  match def with
  | Def_Column d =>
      exists col idx expr,
        MakeColumnDefDescs d = Ok (col, idx, expr)
        /\ slot = (if ctd_HasDefaultExpr d then expr else None)
  | _ => slot = None
  end.

(** The columns [added] that the column pass adds for the column definition
    [d] to a descriptor whose columns are [cols]: the column made by
    MakeColumnDefDescs, and, if [d] is hash-sharded, before it the shard
    column made by makeShardColumnDesc, unless [cols] has a column of that
    name already. *)
Definition columnsOf (cols : list ColumnDescriptor) (d : ColumnTableDef)
    (added : list ColumnDescriptor) : Prop :=
  exists col idx expr,
    MakeColumnDefDescs d = Ok (col, idx, expr)
    /\ if ctd_Sharded d then
         exists buckets shardCol,
           EvalShardBucketCount (ctd_ShardBuckets d) = Ok buckets
           /\ makeShardColumnDesc [ctd_Name d] buckets = Ok shardCol
           /\ ((Forall (fun c => col_Name c <> col_Name shardCol) cols
                /\ added = [shardCol; col])
               \/ (Exists (fun c => col_Name c = col_Name shardCol) cols
                   /\ added = [col]))
       else added = [col].

(** [groups] are the columns added for the column definitions [ds], one
    group for each definition in order, starting from the columns
    [cols]. *)
Fixpoint columnGroups (cols : list ColumnDescriptor) (ds : list ColumnTableDef)
    (groups : list (list ColumnDescriptor)) : Prop :=
  match ds, groups with
  | [], [] => True
  | d :: ds', added :: groups' =>
      columnsOf cols d added /\ columnGroups (cols ++ added) ds' groups'
  | _, _ => False
  end.

(** What the statements about the column pass need to know about the
    tabledesc methods that it calls after AddColumn: they leave the
    columns and the ID of the descriptor as they are; and whether a
    descriptor is that of a virtual table depends on its ID only. *)
Class ColumnLaws : Prop := {
  AddIndex_Columns :
    forall idx primary t, Columns (snd (AddIndex idx primary t)) = Columns t;
  AddColumnToFamilyMaybeCreate_Columns :
    forall col family create ifNotExists t,
      Columns (snd (AddColumnToFamilyMaybeCreate col family create ifNotExists t))
      = Columns t;
  AddIndex_ID :
    forall idx primary t, ID (snd (AddIndex idx primary t)) = ID t;
  AddColumnToFamilyMaybeCreate_ID :
    forall col family create ifNotExists t,
      ID (snd (AddColumnToFamilyMaybeCreate col family create ifNotExists t))
      = ID t;
  IsVirtualTable_ID :
    forall t t', ID t = ID t' -> IsVirtualTable t = IsVirtualTable t';
}.

(** The expression that makeHashShardComputeExpr serializes. *)
Definition shardComputeTree (colNames : list string) (buckets : Z) : Expr :=
  FuncExpr (unresolvedFunc "mod") [hashSumExpr colNames; DInt buckets].

(** The outcome of a successful constraint pass over [defs] on the new
    table [t] at [desc]. *)
Definition foreign_keys_appended (defs : list TableDef) (desc : ptr)
    (t : Mutable) (s s' : store) : Prop :=
  exists t' refs,
    heap s' !! desc = Some t'
    /\ ID t' = ID t
    /\ OutboundFKs t' = OutboundFKs t ++ refs
    /\ Forall2 (built_from t) (fkDefs defs) refs
    /\ written s' = written s.

(** The state [st] of a successful column pass that started from the
    definitions [Defs]: the definitions, and [columnDefaultExprs] beside
    them. *)
Definition default_exprs_aligned (Defs : list TableDef) (st : columnPassState)
  : Prop :=
  exists hoisted,
    cp_Defs st = Defs ++ map Def_CheckConstraint hoisted
    /\ length hoisted = length (List.filter isShardedColumnDef Defs)
    /\ Forall hoistedCheck hoisted
    /\ length (cp_columnDefaultExprs st) = length (cp_Defs st)
    /\ forall i def,
         cp_Defs st !! i = Some def ->
         exists slot,
           cp_columnDefaultExprs st !! i = Some slot
           /\ defaultExprSlot def slot.

(** The columns of the descriptor after a successful column pass over
    [Defs] that started from [desc]. *)
Definition columns_appended (desc : Mutable) (Defs : list TableDef)
    (st : columnPassState) : Prop :=
  exists groups,
    columnGroups (Columns desc) (columnDefs Defs) groups
    /\ Columns (cp_desc st) = Columns desc ++ concat groups.

End StatementsPasses.

(** ** Further statements about startExec and finalizeInterleave *)

Section StatementsWrites.
Context {types : Types} {cat : Catalog} {planner : Planner}.

(** The ancestor's index with the back-reference to the index [idx] of the
    table [t]. *)
Definition addInterleavedBy (t : Mutable) (idx : IndexDescriptor)
    (i : IndexDescriptor) : IndexDescriptor :=
  set_InterleavedBy
    (idx_InterleavedBy i ++ [{| ref_Table := ID t; ref_Index := idx_ID idx |}]) i.

(** [e] is the write of the descriptor behind the entry [entry] of the
    [affected] map: the descriptor as newTableDesc left it in [s2], or [t3]
    if the entry is the new descriptor [p] itself. *)
Definition affected_write (s2 : store) (p : ptr) (t3 : Mutable)
    (entry : Z * ptr) (e : Z * Mutable) : Prop :=
  exists tq,
    (if decide (snd entry = p) then tq = t3 else heap s2 !! snd entry = Some tq)
    /\ e = (ID tq, tq).

(** What a successful finalizeInterleave has done for the index [idx] of
    the table [t] at [p], whose last ancestor is the index [aidx] behind
    [asl] of the table [a] at [q]: [a'] is the ancestor table and [aidx']
    its index behind [asl] afterwards, [t'] the table afterwards. *)
Definition back_reference_installed (p q : ptr) (t : Mutable)
    (idx : IndexDescriptor) (a : Mutable) (asl : index_slot)
    (aidx : IndexDescriptor) (s s' : store) : Prop :=
  exists a' aidx' t',
    heap s' !! q = Some a'
    /\ a' = update_index asl (addInterleavedBy t idx) a
    /\ get_index asl a' = Ok aidx'
    /\ idx_InterleavedBy aidx'
       = idx_InterleavedBy aidx
         ++ [{| ref_Table := ID t; ref_Index := idx_ID idx |}]
    /\ heap s' !! p = Some t'
    /\ t' = set_State (State t') t
    /\ State t' = (if Adding t then DescriptorState_PUBLIC else State t)
    /\ (forall r, r <> p -> r <> q -> heap s' !! r = heap s !! r)
    /\ written s' = written s ++ (ID a', a') ::
                      (if Adding t then [(ID t', t')] else [])
    /\ backrefs s' = backrefs s.

(** The writes of a successful plain CREATE TABLE: [s2] is the store as
    newTableDesc left it, [t3] the new descriptor as it is written, [wa]
    the writes of the [affected] map and [w] the writes that follow. *)
Definition affected_written (n : createTableNode) (s s' : store) : Prop :=
  exists schemaID id p s2 t2 t3 wa w,
    newTableDesc n schemaID id
      {| heap := heap s; backrefs := ∅; written := written s |} = (Ok p, s2)
    /\ heap s2 !! p = Some t2
    /\ (t3 = t2 \/ t3 = set_State DescriptorState_PUBLIC t2)
    /\ written s' = written s2 ++ (ID t3, t3) :: wa ++ w
    /\ Forall2 (affected_write s2 p t3) (map_to_list (backrefs s2)) wa.

End StatementsWrites.

(** ** Further scenarios on the reference implementation *)

Module Cases.

#[local] Existing Instance Ref.types.
#[local] Existing Instance Ref.cat.
#[local] Existing Instance Ref.env.
#[local] Existing Instance Ref.benv.

(** CREATE TABLE remote (a INT PRIMARY KEY) in another database (51), and
    a temporary table of the same shape in the database of [child]. *)
Definition remote : Mutable :=
  {| ID := 70; ParentID := 51; Name := "remote"; Temporary := false;
     State := DescriptorState_PUBLIC;
     Columns := [Ref.column 1 "a" Ref.INT8 false];
     PrimaryIndex := Ref.primaryIndex ["a"] [IndexDescriptor_ASC] [1] [];
     Indexes := []; Checks := []; OutboundFKs := []; InboundFKs := [];
     Mutations := [];
     LocalityConfig := None |}.

Definition scratch : Mutable :=
  {| ID := 71; ParentID := 50; Name := "scratch"; Temporary := true;
     State := DescriptorState_PUBLIC;
     Columns := [Ref.column 1 "a" Ref.INT8 false];
     PrimaryIndex := Ref.primaryIndex ["a"] [IndexDescriptor_ASC] [1] [];
     Indexes := []; Checks := []; OutboundFKs := []; InboundFKs := [];
     Mutations := [];
     LocalityConfig := None |}.

(** The store of [child] with another table in the place of [parent]. *)
Definition store_with (target : Mutable) : store :=
  {| heap := {[ 0%nat := Ref.child; 1%nat := target ]};
     backrefs := ∅;
     written := [] |}.

(** A foreign key with a name. *)
Definition fk_named (name target : string) (from to : list string)
  : ForeignKeyConstraintTableDef :=
  {| fkd_Name := name; fkd_Table := Ref.tn target; fkd_FromCols := from;
     fkd_ToCols := to; fkd_Match := MatchSimple;
     fkd_Delete := NoAction; fkd_Update := NoAction |}.

(** ALTER TABLE child ADD FOREIGN KEY (a) REFERENCES parent (a) on a table
    that has rows. *)
Definition alter_nonempty (evalCtx : EvalContext) : result unit * store :=
  ResolveFK Ref.sc 0%nat (Ref.fk "parent" ["a"] ["a"] NoAction) NonEmptyTable
    ValidationDefault evalCtx (Ref.store_of Ref.child).

(** The second foreign key of [child] to [parent]: [parent] is in
    [backrefs] already (pointer 1), and the resolver returns another object
    for it (pointer 3). *)
Definition store_again : store :=
  {| heap := {[ 0%nat := Ref.child; 1%nat := Ref.parent; 3%nat := Ref.parent ]};
     backrefs := {[ 52 := 1%nat ]};
     written := [] |}.

Definition sc_again : SchemaResolver :=
  fun name =>
    if String.eqb (tn_Object name) "parent" then Ok 3%nat
    else Err (Newf pgcode.UndefinedTable "relation %q does not exist").

Definition resolve_again : result unit * store :=
  ResolveFK sc_again 0%nat (Ref.fk "parent" ["a"] ["a"] NoAction) NewTable
    ValidationDefault Ref.evalCtx_new store_again.

(** The constraint pass for
    CREATE TABLE child (a INT REFERENCES parent (a),
                        FOREIGN KEY (a) REFERENCES child (rowid)). *)
Definition two_keys : list TableDef :=
  [Def_ForeignKeyConstraint (Ref.fk "parent" ["a"] ["a"] NoAction);
   Def_ForeignKeyConstraint (Ref.fk "child" ["a"] ["rowid"] Cascade)].

Definition constraints_child : result unit * store :=
  constraintPass (fkSelfResolver Ref.sc 0%nat (Ref.tn "child")) 0%nat
    Ref.evalCtx_new two_keys [] (Ref.store_of Ref.child).

(** The column pass for
    CREATE TABLE t (a INT PRIMARY KEY USING HASH WITH BUCKET_COUNT = 4,
                    b STRING, CHECK (...)). *)
Definition plain_b : ColumnTableDef :=
  {| ctd_Name := "b"; ctd_Type := Ref.STRING; ctd_IsPrimaryKey := false;
     ctd_Sharded := false; ctd_ShardBuckets := NilExpr;
     ctd_IsVirtual := false; ctd_IsComputed := false;
     ctd_HasDefaultExpr := false; ctd_HasColumnFamily := false;
     ctd_FamilyName := EmptyString |}.

Definition a_positive : CheckConstraintTableDef :=
  {| ckd_Name := "a_positive";
     ckd_Expr := ComparisonExpr EQ (ColumnItem "a") (ColumnItem "a");
     ckd_Hidden := false |}.

Definition defs_t : list TableDef :=
  [Def_Column Ref.sharded_a; Def_CheckConstraint a_positive; Def_Column plain_b].

Definition columns_t : result columnPassState :=
  columnPass false false true Ref.all_active 3 Ref.empty_t defs_t.

(** A planner whose newTableDesc resolves the foreign key of [child] to
    [parent] on the descriptor prepared at pointer 0, and the statement
    CREATE TABLE child (a INT REFERENCES parent (a)). *)
Definition planner_fk : Planner :=
  {| DescriptorKey := @DescriptorKey _ Ref.planner;
     DescriptorProto := @DescriptorProto _ Ref.planner;
     PublicSchemaAliases := @PublicSchemaAliases _ Ref.planner;
     TempTablesEnabled := @TempTablesEnabled _ Ref.planner;
     tempTablesDisabledError := @tempTablesDisabledError _ Ref.planner;
     getOrCreateTemporarySchema := @getOrCreateTemporarySchema _ Ref.planner;
     NewTableKey := @NewTableKey _ Ref.planner;
     MakeObjectNameKey := @MakeObjectNameKey _ Ref.planner;
     ResolveUncachedSchemaDescriptor :=
       @ResolveUncachedSchemaDescriptor _ Ref.planner;
     canCreateOnSchema := @canCreateOnSchema _ Ref.planner;
     LookupObjectID := @LookupObjectID _ Ref.planner;
     GetAnyDescriptorByID := @GetAnyDescriptorByID _ Ref.planner;
     NewTypeAlreadyExistsError := @NewTypeAlreadyExistsError _ Ref.planner;
     WrapErrorWhileConstructingObjectAlreadyExistsErr :=
       @WrapErrorWhileConstructingObjectAlreadyExistsErr _ Ref.planner;
     MakeObjectAlreadyExistsError := @MakeObjectAlreadyExistsError _ Ref.planner;
     IsRelationAlreadyExistsError := @IsRelationAlreadyExistsError _ Ref.planner;
     GenerateUniqueDescID := @GenerateUniqueDescID _ Ref.planner;
     newTableDesc := fun _ _ _ =>
       (let* _ := ResolveFK (fkSelfResolver Ref.sc 0%nat (Ref.tn "child")) 0%nat
                    (Ref.fk "parent" ["a"] ["a"] NoAction) NewTable
                    ValidationDefault Ref.evalCtx_new in
        mret 0%nat)%M;
     newTableDescIfAs := @newTableDescIfAs _ Ref.planner;
     FindAllReferences := @FindAllReferences _ Ref.planner;
     GetUncommittedTableByID := @GetUncommittedTableByID _ Ref.planner;
     IsNew := @IsNew _ Ref.planner;
     createDescriptorWithID_kv := @createDescriptorWithID_kv _ Ref.planner;
     writeSchemaChange_kv := @writeSchemaChange_kv _ Ref.planner;
     AllNonDropIndexes := @AllNonDropIndexes _ Ref.planner;
     GetMutableTableVersionByID := @GetMutableTableVersionByID _ Ref.planner;
     FindIndexByID := @FindIndexByID _ Ref.planner;
     addBackRefsFromAllTypesInTable :=
       @addBackRefsFromAllTypesInTable _ Ref.planner;
     Validate := @Validate _ Ref.planner;
     InsertEventRecord := @InsertEventRecord _ Ref.planner;
     fillFromSource := @fillFromSource _ Ref.planner |}.

Definition create_child : createTableNode :=
  {| n_dbID := 50; n_Table := Ref.tn "child"; n_IfNotExists := false;
     n_Persistence := PersistencePermanent;
     n_OnCommit := CreateTableOnCommitUnset;
     n_As := false; n_TxnImplicit := true |}.

(** CREATE TABLE friend (a INT PRIMARY KEY) earlier in the same
    transaction (ID 160, written and not committed), and the descriptor of
    CREATE TABLE pal (a INT REFERENCES friend (a)) as newTableDesc returns
    it: in the ADD state, with its foreign key. *)
Definition pal_fk : ForeignKeyConstraint :=
  {| OriginTableID := 161; OriginColumnIDs := [1];
     ReferencedColumnIDs := [1]; ReferencedTableID := 160;
     fk_Name := "fk_a_ref_friend";
     Validity := ConstraintValidity_Validated;
     OnDelete := ForeignKeyReference_NO_ACTION;
     OnUpdate := ForeignKeyReference_NO_ACTION;
     Match := ForeignKeyReference_SIMPLE |}.

Definition friend : Mutable :=
  Ref.table 160 "friend" DescriptorState_PUBLIC
    [Ref.column 1 "a" Ref.INT8 false]
    (Ref.primaryIndex ["a"] [IndexDescriptor_ASC] [1] []).

Definition pal : Mutable :=
  set_OutboundFKs [pal_fk]
    (Ref.table 161 "pal" DescriptorState_ADD
       [Ref.column 1 "a" Ref.INT8 true; Ref.column 2 "rowid" Ref.INT8 false]
       (Ref.primaryIndex ["rowid"] [IndexDescriptor_ASC] [2] [])).

Definition store_same_txn : store :=
  {| heap := {[ 0%nat := pal; 1%nat := set_InboundFKs [pal_fk] friend ]};
     backrefs := ∅;
     written := [(160, friend)] |}.

Definition create_pal : createTableNode :=
  {| n_dbID := 50; n_Table := Ref.tn "pal"; n_IfNotExists := false;
     n_Persistence := PersistencePermanent;
     n_OnCommit := CreateTableOnCommitUnset;
     n_As := false; n_TxnImplicit := true |}.

End Cases.

(** * Properties *)

Lemma Ref_laws : @CatalogLaws Ref.types Ref.cat.
Proof.
  split; intros; intros t; cbn; try destruct primary; cbn; auto.
Qed.

(** ** The store monad *)

Section MonadFacts.
Context {types : Types}.

Lemma mbind_ok {A B} (m : M A) (k : A -> M B) s b s' :
  mbind' m k s = (Ok b, s') ->
  exists a s1, m s = (Ok a, s1) /\ k a s1 = (Ok b, s').
Proof.
  unfold mbind'. destruct (m s) as [[a | e |] s1]; intros H;
    [eauto | discriminate | discriminate].
Qed.

Lemma mbind_run {A B} (m : M A) (k : A -> M B) s a s1 :
  m s = (Ok a, s1) -> mbind' m k s = k a s1.
Proof. unfold mbind'. intros ->. reflexivity. Qed.

Lemma mret_ok {A} (a b : A) s s' : mret a s = (Ok b, s') -> b = a /\ s' = s.
Proof. unfold mret. intros [= -> ->]. auto. Qed.

Lemma lift_ok {A} (r : result A) a s s' :
  lift r s = (Ok a, s') -> r = Ok a /\ s' = s.
Proof. unfold lift. intros [= -> ->]. auto. Qed.

Lemma load_ok p t s s' :
  load p s = (Ok t, s') -> heap s !! p = Some t /\ s' = s.
Proof.
  unfold load. destruct (heap s !! p); intros [= <- <-]; auto.
Qed.

Lemma load_run p t s : heap s !! p = Some t -> load p s = (Ok t, s).
Proof. unfold load. intros ->. reflexivity. Qed.

Lemma modify_ok p f u s s' :
  modify p f s = (Ok u, s') ->
  exists t, heap s !! p = Some t /\ s' = with_heap (<[p := f t]> (heap s)) s.
Proof.
  unfold modify. intros H. apply mbind_ok in H as (t & s1 & H1 & H2).
  apply load_ok in H1 as [H1 ->]. unfold store_at in H2.
  injection H2 as _ <-. eauto.
Qed.

Lemma modify_run p f t s :
  heap s !! p = Some t ->
  modify p f s = (Ok tt, with_heap (<[p := f t]> (heap s)) s).
Proof.
  intros H. unfold modify. rewrite (mbind_run _ _ _ _ _ (load_run _ _ _ H)).
  reflexivity.
Qed.

Lemma call_ok p f u s s' :
  call p f s = (Ok u, s') ->
  exists t, heap s !! p = Some t /\ fst (f t) = Ok tt
            /\ s' = with_heap (<[p := snd (f t)]> (heap s)) s.
Proof.
  unfold call. intros H. apply mbind_ok in H as (t & s1 & H1 & H2).
  apply load_ok in H1 as [H1 ->].
  apply mbind_ok in H2 as ([] & s2 & H2 & H3).
  unfold store_at in H2. injection H2 as <-.
  apply lift_ok in H3 as [H3 ->]. destruct u.
  exists t. auto.
Qed.

End MonadFacts.

Tactic Notation "mstep" hyp(H) "as" ident(a) ident(s) ident(H1) :=
  apply mbind_ok in H as (a & s & H1 & H).

(** ** ResolveFK: what each part does to the store *)

Section FKFacts.
Context {types : Types} {cat : Catalog}.

Lemma resolveTarget_ok sc tbl d ts ec s originCols target s1 :
  resolveTarget sc tbl d ts ec s = (Ok (originCols, target), s1) ->
  exists t p0 tg0,
    heap s !! tbl = Some t
    /\ resolveOriginCols t (fkd_FromCols d) ∅ [] = Ok originCols
    /\ sc (fkd_Table d) = Ok p0
    /\ heap s !! p0 = Some tg0
    /\ written s1 = written s
    /\ ((ID tg0 = ID t /\ target = tbl /\ s1 = s)
        \/ (ID tg0 <> ID t
            /\ heap s1 = (if FKTableState_eqb ts NewTable
                          then <[tbl := set_State DescriptorState_ADD t]> (heap s)
                          else heap s)
            /\ ((exists prev, backrefs s !! ID tg0 = Some prev /\ target = prev
                              /\ backrefs s1 = backrefs s)
                \/ (backrefs s !! ID tg0 = None /\ target = p0
                    /\ backrefs s1 = <[ID tg0 := p0]> (backrefs s))))).
Proof.
  unfold resolveTarget. intros H.
  mstep H as t s0 Ht. apply load_ok in Ht as [Ht ->].
  mstep H as oc s0 Hoc. apply lift_ok in Hoc as [Hoc ->].
  mstep H as p0 s0 Hsc. apply lift_ok in Hsc as [Hsc ->].
  mstep H as tg0 s0 Htg. apply load_ok in Htg as [Htg ->].
  mstep H as u1 s0 Hdb.
  assert (s0 = s) as ->.
  { destruct (negb (ParentID tg0 =? ParentID t)).
    - destruct (ec_Settings ec) as [st|]; [|discriminate].
      destruct (negb (allowCrossDatabaseFKs st)); [discriminate|].
      apply mret_ok in Hdb as [_ ->]; reflexivity.
    - apply mret_ok in Hdb as [_ ->]; reflexivity. }
  clear Hdb u1.
  mstep H as u1 s0 Htmp.
  assert (s0 = s) as ->.
  { destruct (negb (eqb (Temporary t) (Temporary tg0))); [discriminate|].
    apply mret_ok in Htmp as [_ ->]; reflexivity. }
  clear Htmp u1.
  exists t, p0, tg0.
  destruct (ID tg0 =? ID t) eqn:E.
  { apply mret_ok in H as [[= <- <-] ->]. apply Z.eqb_eq in E.
    repeat split; auto. }
  apply Z.eqb_neq in E.
  mstep H as u1 s0 Hst. mstep H as prev s2 Hprev.
  unfold lookup_backref in Hprev. injection Hprev as <- <-.
  assert (heap s0 = (if FKTableState_eqb ts NewTable
                     then <[tbl := set_State DescriptorState_ADD t]> (heap s)
                     else heap s)
          /\ backrefs s0 = backrefs s /\ written s0 = written s)
    as (Hh & Hb & Hw).
  { destruct (FKTableState_eqb ts NewTable).
    - apply modify_ok in Hst as (t' & Ht' & ->). cbn.
      rewrite Ht in Ht'. injection Ht' as <-. auto.
    - apply mret_ok in Hst as [_ ->]. auto. }
  rewrite Hb in H.
  destruct (backrefs s !! ID tg0) as [prev|] eqn:Eb.
  - apply mret_ok in H as [[= <- <-] ->].
    repeat split; auto. right. repeat split; auto. left. eauto.
  - mstep H as u2 s2 Hins. unfold insert_backref in Hins.
    injection Hins as Hins. subst s2.
    apply mret_ok in H as [[= <- <-] ->]. cbn.
    do 5 (split; [solve [auto]|]). right. do 2 (split; [solve [auto]|]).
    right. rewrite Hb. auto.
Qed.

Lemma stateless_bind {A B} (m : M A) (k : A -> M B) :
  stateless m -> (forall a, stateless (k a)) -> stateless (mbind' m k).
Proof.
  intros Hm Hk s r s'. unfold mbind'.
  destruct (m s) as [[a | e |] s1] eqn:E; intros H.
  - apply Hm in E as ->. eapply Hk; eauto.
  - injection H as _ <-. eapply Hm; eauto.
  - injection H as _ <-. eapply Hm; eauto.
Qed.

Lemma stateless_load p : stateless (load p).
Proof. intros s r s'. unfold load. destruct (heap s !! p); congruence. Qed.

Lemma stateless_lift {A} (r : result A) : stateless (lift r).
Proof. intros s r0 s'. unfold lift. congruence. Qed.

Lemma stateless_mret {A} (a : A) : stateless (mret a).
Proof. intros s r0 s'. unfold mret. congruence. Qed.

Lemma stateless_fail {A} e : stateless (@fail _ A e).
Proof. intros s r0 s'. unfold fail. congruence. Qed.

Lemma resolveReferenced_stateless tbl target d originCols :
  stateless (resolveReferenced tbl target d originCols).
Proof.
  unfold resolveReferenced.
  repeat first
    [ apply stateless_load | apply stateless_lift | apply stateless_mret
    | apply stateless_fail
    | apply stateless_bind; [|intros ?]
    | match goal with |- stateless (if ?c then _ else _) => destruct c end ].
Qed.

Lemma only_state_added_refl tbl s : only_state_added tbl s s.
Proof. split; auto. Qed.

Lemma mbind_inv {A B} (m : M A) (k : A -> M B) s r s' :
  mbind' m k s = (r, s') ->
  (exists a s1, m s = (Ok a, s1) /\ k a s1 = (r, s'))
  \/ (isOk r = false /\ exists r0, m s = (r0, s') /\ isOk r0 = false).
Proof.
  unfold mbind'. destruct (m s) as [[a | e |] s1]; intros H.
  - left. eauto.
  - right. injection H as <- <-. split; eauto.
  - right. injection H as <- <-. split; eauto.
Qed.

Lemma resolveTarget_frame sc tbl d ts ec s r s1 :
  resolveTarget sc tbl d ts ec s = (r, s1) -> only_state_added tbl s s1.
Proof.
  unfold resolveTarget. intros H.
  assert (Hpre : forall A (m : M A) r' s', stateless m -> m s = (r', s') ->
                 only_state_added tbl s s').
  { intros A m r' s' Hm Hr. apply Hm in Hr as ->. apply only_state_added_refl. }
  apply mbind_inv in H as [(t & s0 & Ht & H) | (_ & r0 & H & _)];
    [|eapply Hpre; [apply stateless_load|eauto]].
  apply load_ok in Ht as [Ht ->].
  apply mbind_inv in H as [(oc & s0 & Hoc & H) | (_ & r0 & H & _)];
    [|eapply Hpre; [apply stateless_lift|eauto]].
  apply lift_ok in Hoc as [Hoc ->].
  apply mbind_inv in H as [(p0 & s0 & Hp & H) | (_ & r0 & H & _)];
    [|eapply Hpre; [apply stateless_lift|eauto]].
  apply lift_ok in Hp as [Hp ->].
  apply mbind_inv in H as [(tg0 & s0 & Htg & H) | (_ & r0 & H & _)];
    [|eapply Hpre; [apply stateless_load|eauto]].
  apply load_ok in Htg as [Htg ->].
  assert (Hdb : stateless
    (if negb (ParentID tg0 =? ParentID t)
     then match ec_Settings ec with
          | Some st =>
              if negb (allowCrossDatabaseFKs st)
              then fail (Newf pgcode.InvalidForeignKey
                "foreign references between databases are not allowed (see the '%s' cluster setting)")
              else mret tt
          | None => lift Panic
          end
     else mret tt)).
  { destruct (negb _); [|apply stateless_mret].
    destruct (ec_Settings ec); [|apply stateless_lift].
    destruct (negb _); [apply stateless_fail|apply stateless_mret]. }
  apply mbind_inv in H as [(u & s0 & Hu & H) | (_ & r0 & H & _)];
    [|eapply Hpre; eauto].
  apply Hdb in Hu as ->. clear Hdb.
  assert (Htmp : stateless
    (if negb (eqb (Temporary t) (Temporary tg0))
     then fail (Newf pgcode.InvalidTableDefinition
                  "constraints on %s tables may reference only %s tables")
     else mret tt)).
  { destruct (negb _); [apply stateless_fail|apply stateless_mret]. }
  apply mbind_inv in H as [(u' & s0 & Hu & H) | (_ & r0 & H & _)];
    [|eapply Hpre; eauto].
  apply Htmp in Hu as ->. clear Htmp.
  destruct (ID tg0 =? ID t).
  { eapply Hpre; [apply stateless_mret|eauto]. }
  assert (Hmod : forall r' s',
    (if FKTableState_eqb ts NewTable
     then modify tbl (set_State DescriptorState_ADD) else mret tt) s = (r', s') ->
    only_state_added tbl s s' /\ backrefs s' = backrefs s).
  { intros r' s' Hm. destruct (FKTableState_eqb ts NewTable).
    - unfold modify in Hm. rewrite (mbind_run _ _ _ _ _ (load_run _ _ _ Ht)) in Hm.
      unfold store_at in Hm. injection Hm as _ <-. cbn. split; [|reflexivity].
      split; [reflexivity|]. intros p. cbn.
      destruct (decide (p = tbl)) as [->|Hne].
      + right. split; [reflexivity|]. exists t. split; [exact Ht|].
        apply lookup_insert_eq.
      + left. apply lookup_insert_ne. congruence.
    - apply stateless_mret in Hm as ->. split; [apply only_state_added_refl|auto]. }
  apply mbind_inv in H as [(u2 & s0 & Hu & H) | (_ & r0 & H & _)];
    [|eapply Hmod; eauto].
  apply Hmod in Hu as [[Hw Hh] Hb]. clear Hmod.
  assert (heap s1 = heap s0 /\ written s1 = written s0) as [Hh1 Hw1].
  { apply mbind_inv in H as [(prev & s2 & Hprev & H) | (_ & r0 & H & _)].
    - unfold lookup_backref in Hprev. injection Hprev as <- <-.
      destruct (backrefs s0 !! ID tg0).
      + apply stateless_mret in H as ->. auto.
      + apply mbind_inv in H as [(u3 & s2 & Hins & H) | (_ & r0 & H & _)].
        * unfold insert_backref in Hins. injection Hins as Hins. subst s2.
          apply stateless_mret in H as ->. split; cbn; auto.
        * unfold insert_backref in H. injection H as _ <-. split; cbn; auto.
    - unfold lookup_backref in H. injection H as _ <-. auto. }
  split; [congruence|]. intros p. rewrite Hh1. apply Hh.
Qed.

Lemma addIndexForFK_ok tbl srcCols cn ts s id s2 :
  addIndexForFK tbl srcCols cn ts s = (Ok id, s2) ->
  exists t, heap s !! tbl = Some t
            /\ s2 = with_heap (<[tbl := withAutoIndex ts t srcCols cn]> (heap s)) s.
Proof.
  unfold addIndexForFK, withAutoIndex. intros H.
  mstep H as t s0 Ht. apply load_ok in Ht as [Ht ->].
  exists t. split; [exact Ht|].
  destruct (FKTableState_eqb ts NewTable).
  - mstep H as u1 s1 H1. apply call_ok in H1 as (t1 & Ht1 & _ & ->).
    rewrite Ht in Ht1. injection Ht1 as <-.
    mstep H as u2 s1 H2. apply call_ok in H2 as (t2 & Ht2 & _ & ->).
    cbn in Ht2. rewrite lookup_insert_eq in Ht2. injection Ht2 as <-.
    mstep H as t3 s1 H3. apply load_ok in H3 as [_ ->].
    mstep H as a s1 H4. apply lift_ok in H4 as [_ ->].
    apply mret_ok in H as [_ ->]. cbn. rewrite insert_insert_eq. reflexivity.
  - mstep H as u1 s1 H1. apply call_ok in H1 as (t1 & Ht1 & _ & ->).
    rewrite Ht in Ht1. injection Ht1 as <-.
    mstep H as u2 s1 H2. apply call_ok in H2 as (t2 & Ht2 & _ & ->).
    cbn in Ht2. rewrite lookup_insert_eq in Ht2. injection Ht2 as <-.
    mstep H as t3 s1 H3. apply load_ok in H3 as [_ ->].
    mstep H as a s1 H4. apply lift_ok in H4 as [_ ->].
    assert (s2 = with_heap
      (<[tbl:=snd (AllocateIDs (snd (AddIndexMutation (autoIndex t srcCols cn)
                                       DescriptorMutation_ADD t)))]>
         (<[tbl:=snd (AddIndexMutation (autoIndex t srcCols cn)
                        DescriptorMutation_ADD t)]> (heap s))) s) as ->.
    { destruct (GetIndex a); [apply mret_ok in H as [_ ->]|discriminate].
      reflexivity. }
    cbn. rewrite insert_insert_eq. reflexivity.
Qed.

Lemma withAutoIndex_keeps `{!CatalogLaws} ts t srcCols cn :
  ID (withAutoIndex ts t srcCols cn) = ID t
  /\ OutboundFKs (withAutoIndex ts t srcCols cn) = OutboundFKs t
  /\ InboundFKs (withAutoIndex ts t srcCols cn) = InboundFKs t.
Proof.
  unfold withAutoIndex. destruct (FKTableState_eqb ts NewTable).
  - destruct (AllocateIDs_keeps
                (snd (AddIndex (autoIndex t srcCols cn) false t))) as (a & b & c).
    destruct (AddIndex_keeps (autoIndex t srcCols cn) false t) as (a' & b' & c').
    cbn in *. repeat split; congruence.
  - destruct (AllocateIDs_keeps
                (snd (AddIndexMutation (autoIndex t srcCols cn)
                        DescriptorMutation_ADD t))) as (a & b & c).
    destruct (AddIndexMutation_keeps (autoIndex t srcCols cn)
                DescriptorMutation_ADD t) as (a' & b' & c').
    cbn in *. repeat split; congruence.
Qed.

Lemma ensureOriginIndex_ok tbl ts ec oc cn s u s2 t :
  ensureOriginIndex tbl ts ec oc cn s = (Ok u, s2) ->
  heap s !! tbl = Some t ->
  if needsAutoIndex ec t oc then
    ts <> NonEmptyTable
    /\ s2 = with_heap (<[tbl := withAutoIndex ts t oc cn]> (heap s)) s
  else s2 = s.
Proof.
  unfold ensureOriginIndex, needsAutoIndex. intros H Ht.
  destruct (originIndexRequired ec); cbn [andb].
  - mstep H as t0 s0 Ht0. apply load_ok in Ht0 as [Ht0 ->].
    rewrite Ht in Ht0. injection Ht0 as <-.
    destruct (FindFKOriginIndexInTxn t (map col_ID oc)) as [i | e |]; cbn [isErr].
    + apply mret_ok in H as [_ ->]. reflexivity.
    + destruct ts; cbn [FKTableState_eqb] in H.
      * mstep H as id s0 Hadd. apply mret_ok in H as [_ ->].
        apply addIndexForFK_ok in Hadd as (t' & Ht' & ->).
        rewrite Ht in Ht'. injection Ht' as <-. split; [discriminate|reflexivity].
      * mstep H as id s0 Hadd. apply mret_ok in H as [_ ->].
        apply addIndexForFK_ok in Hadd as (t' & Ht' & ->).
        rewrite Ht in Ht'. injection Ht' as <-. split; [discriminate|reflexivity].
      * mstep H as x s0 Hx. discriminate.
    + discriminate.
  - apply mret_ok in H as [_ ->]. reflexivity.
Qed.

Lemma addConstraint_ok tbl target d ts vb oc rc cn s u s' :
  addConstraint tbl target d ts vb oc rc cn s = (Ok u, s') ->
  exists t tg,
    heap s !! tbl = Some t /\ heap s !! target = Some tg
    /\ isOk (FindFKReferencedIndex tg (map col_ID rc)) = true
    /\ let ref := makeRef t tg d ts vb oc rc cn in
       let t' := set_OutboundFKs (OutboundFKs t ++ [ref]) t in
       if FKTableState_eqb ts NewTable then
         exists tg1,
           <[tbl := t']> (heap s) !! target = Some tg1
           /\ s' = with_heap
                     (<[target := set_InboundFKs (InboundFKs tg1 ++ [ref]) tg1]>
                        (<[tbl := t']> (heap s))) s
       else
         s' = with_heap
                (<[tbl := AddForeignKeyMutation ref DescriptorMutation_ADD t]>
                   (heap s)) s.
Proof.
  unfold addConstraint. intros H.
  mstep H as tg s0 Htg. apply load_ok in Htg as [Htg ->].
  mstep H as i s0 Hi. apply lift_ok in Hi as [Hi ->].
  mstep H as t s0 Ht. apply load_ok in Ht as [Ht ->].
  exists t, tg. split; [exact Ht|]. split; [exact Htg|].
  split; [rewrite Hi; reflexivity|]. cbn zeta.
  destruct (FKTableState_eqb ts NewTable).
  - mstep H as u1 s0 H1. apply modify_ok in H1 as (t1 & Ht1 & ->).
    rewrite Ht in Ht1. injection Ht1 as <-.
    apply modify_ok in H as (tg1 & Htg1 & ->). cbn in Htg1.
    exists tg1. split; [exact Htg1|]. reflexivity.
  - apply modify_ok in H as (t1 & Ht1 & ->).
    rewrite Ht in Ht1. injection Ht1 as <-. reflexivity.
Qed.

Lemma ResolveFK_inv sc tbl d ts vb ec s u s' :
  ResolveFK sc tbl d ts vb ec s = (Ok u, s') ->
  exists oc target rc cn s1 s2,
    resolveTarget sc tbl d ts ec s = (Ok (oc, target), s1)
    /\ resolveReferenced tbl target d oc s1 = (Ok (rc, cn), s1)
    /\ checkActions d oc = Ok tt
    /\ ensureOriginIndex tbl ts ec oc cn s1 = (Ok tt, s2)
    /\ addConstraint tbl target d ts vb oc rc cn s2 = (Ok u, s').
Proof.
  unfold ResolveFK. intros H.
  mstep H as x s1 H1. destruct x as [oc target].
  mstep H as y s1' H2. destruct y as [rc cn].
  pose proof (resolveReferenced_stateless _ _ _ _ _ _ _ H2) as ->.
  mstep H as u1 s1' H3. apply lift_ok in H3 as [H3 ->]. destruct u1.
  mstep H as u2 s2 H4. destruct u2.
  exists oc, target, rc, cn, s1, s2. auto.
Qed.

Lemma ResolveFK_ok sc tbl d ts vb ec s u s' :
  ResolveFK sc tbl d ts vb ec s = (Ok u, s') ->
  exists t p0 tg0 oc target rc cn,
    heap s !! tbl = Some t
    /\ sc (fkd_Table d) = Ok p0
    /\ heap s !! p0 = Some tg0
    /\ resolveOriginCols t (fkd_FromCols d) ∅ [] = Ok oc
    /\ checkActions d oc = Ok tt
    /\ written s' = written s
    /\ ((ID tg0 = ID t /\ target = tbl /\ backrefs s' = backrefs s)
        \/ (ID tg0 <> ID t
            /\ ((exists prev, backrefs s !! ID tg0 = Some prev /\ target = prev
                              /\ backrefs s' = backrefs s)
                \/ (backrefs s !! ID tg0 = None /\ target = p0
                    /\ backrefs s' = <[ID tg0 := p0]> (backrefs s)))))
    /\ let t2 := originBefore ts ec (ID tg0 =? ID t) t oc cn in
       exists tg2,
         <[tbl := t2]> (heap s) !! target = Some tg2
         /\ let ref := makeRef t2 tg2 d ts vb oc rc cn in
            let t3 := set_OutboundFKs (OutboundFKs t2 ++ [ref]) t2 in
            if FKTableState_eqb ts NewTable then
              exists tg3,
                <[tbl := t3]> (heap s) !! target = Some tg3
                /\ heap s' =
                   <[target := set_InboundFKs (InboundFKs tg3 ++ [ref]) tg3]>
                     (<[tbl := t3]> (heap s))
            else
              heap s' =
              <[tbl := AddForeignKeyMutation ref DescriptorMutation_ADD t2]>
                (heap s).
Proof.
  intros H.
  apply ResolveFK_inv in H as (oc & target & rc & cn & s1 & s2 & H1 & H2 & H3 & H4 & H5).
  apply resolveTarget_ok in H1 as (t & p0 & tg0 & Ht & Hoc & Hsc & Htg & Hw1 & Hsel).
  exists t, p0, tg0, oc, target, rc, cn.
  do 5 (split; [assumption|]).
  (* the origin table and the heap after resolveTarget *)
  set (t1 := if negb (ID tg0 =? ID t) && FKTableState_eqb ts NewTable
             then set_State DescriptorState_ADD t else t).
  assert (Hh1 : heap s1 = <[tbl := t1]> (heap s)).
  { subst t1. destruct Hsel as [(E & _ & ->) | (E & Hh & _)].
    - apply Z.eqb_eq in E. rewrite E. cbn. symmetry. apply insert_id. exact Ht.
    - apply Z.eqb_neq in E. rewrite E. cbn. rewrite Hh.
      destruct (FKTableState_eqb ts NewTable); [reflexivity|].
      symmetry. apply insert_id. exact Ht. }
  assert (Ht1 : heap s1 !! tbl = Some t1).
  { rewrite Hh1. apply lookup_insert_eq. }
  pose proof (ensureOriginIndex_ok _ _ _ _ _ _ _ _ _ H4 Ht1) as Hidx.
  assert (Hh2 : heap s2 = <[tbl := originBefore ts ec (ID tg0 =? ID t) t oc cn]> (heap s)
                /\ backrefs s2 = backrefs s1 /\ written s2 = written s1).
  { unfold originBefore. fold t1. destruct (needsAutoIndex ec t1 oc).
    - destruct Hidx as [_ ->]. cbn. rewrite Hh1, insert_insert_eq. auto.
    - subst s2. auto. }
  destruct Hh2 as (Hh2 & Hb2 & Hw2).
  apply addConstraint_ok in H5 as (t2 & tg2 & Ht2 & Htg2 & _ & Hfin).
  rewrite Hh2 in Ht2, Htg2. rewrite lookup_insert_eq in Ht2. injection Ht2 as <-.
  cbn zeta in Hfin.
  assert (written s' = written s /\ backrefs s' = backrefs s1) as [Hws Hbs].
  { destruct (FKTableState_eqb ts NewTable).
    - destruct Hfin as (tg3 & _ & ->). cbn. split; congruence.
    - rewrite Hfin. cbn. split; congruence. }
  split; [exact Hws|].
  split.
  { destruct Hsel as [(E & -> & ->) | (E & _ & Hsel)].
    - left. rewrite Hbs. auto.
    - right. split; [exact E|]. rewrite Hbs.
      destruct Hsel as [(prev & ? & ? & ?) | (? & ? & ?)]; [left|right]; eauto. }
  cbn zeta. exists tg2. split; [exact Htg2|].
  destruct (FKTableState_eqb ts NewTable).
  - destruct Hfin as (tg3 & Htg3 & ->). cbn. rewrite Hh2 in *.
    rewrite insert_insert_eq in *. exists tg3. auto.
  - rewrite Hfin. cbn. rewrite Hh2, insert_insert_eq. reflexivity.
Qed.

End FKFacts.

(** ** ResolveFK: the claims *)

Section ForeignKeyClaims.
Context {types : Types} {cat : Catalog} {laws : CatalogLaws}.

Lemma originBefore_keeps ts ec selfRef t oc cn :
  ID (originBefore ts ec selfRef t oc cn) = ID t
  /\ OutboundFKs (originBefore ts ec selfRef t oc cn) = OutboundFKs t
  /\ InboundFKs (originBefore ts ec selfRef t oc cn) = InboundFKs t.
Proof.
  unfold originBefore.
  set (t1 := if negb selfRef && FKTableState_eqb ts NewTable
             then set_State DescriptorState_ADD t else t).
  assert (ID t1 = ID t /\ OutboundFKs t1 = OutboundFKs t
          /\ InboundFKs t1 = InboundFKs t) as (a & b & c).
  { subst t1. destruct (negb selfRef && FKTableState_eqb ts NewTable); auto. }
  destruct (needsAutoIndex ec t1 oc); [|auto].
  destruct (withAutoIndex_keeps ts t1 oc cn) as (a' & b' & c').
  repeat split; congruence.
Qed.

Lemma originBefore_existing ts ec selfRef t oc cn :
  ts <> NewTable ->
  originBefore ts ec selfRef t oc cn
  = (if needsAutoIndex ec t oc then withAutoIndex ts t oc cn else t).
Proof.
  intros H. unfold originBefore.
  destruct ts; [contradiction|..]; cbn [FKTableState_eqb];
    rewrite andb_false_r; reflexivity.
Qed.

(** C5. Every successful ResolveFK call adds exactly one constraint record:
    on a new table the same record is appended to the OutboundFKs of the
    origin table and to the InboundFKs of the target table (so the two
    entries agree on the column-ID lists, the name, the actions and the
    match method) and no other list of any descriptor grows; on an existing
    table the record is registered by one call of AddForeignKeyMutation on
    the origin descriptor as it was (after the index mutation of
    addIndexForFK, if ensureOriginIndex had to add one) and no list of
    foreign keys changes. *)
Theorem ResolveFK_adds_one_constraint sc tbl d ts vb ec s s' t :
  ResolveFK sc tbl d ts vb ec s = (Ok tt, s') ->
  heap s !! tbl = Some t ->
  one_constraint_added d tbl ts ec t s s'.
Proof.
  intros H Ht.
  apply ResolveFK_ok in H
    as (t0 & p0 & tg0 & oc & target & rc & cn & Ht0 & Hsc & Htg0 & Hoc & Hact
        & Hw & Hsel & tg2 & Htg2 & Hfin).
  rewrite Ht in Ht0. injection Ht0 as <-.
  set (t2 := originBefore ts ec (ID tg0 =? ID t) t oc cn) in *.
  destruct (originBefore_keeps ts ec (ID tg0 =? ID t) t oc cn) as (Hid & Hout & Hin).
  fold t2 in Hid, Hout, Hin.
  cbn zeta in Hfin.
  set (ref := makeRef t2 tg2 d ts vb oc rc cn) in *.
  unfold one_constraint_added.
  destruct (decide (target = tbl)) as [-> | Hne].
  - (* the target object is the origin object *)
    rewrite lookup_insert_eq in Htg2. injection Htg2 as <-.
    exists tbl, t, ref. split; [exact Ht|].
    do 5 (split; [solve [cbn; auto]|]).
    split.
    { intros p Hp _. destruct ts; cbn in Hfin.
      - destruct Hfin as (tg3 & _ & ->). rewrite !lookup_insert_ne by auto. reflexivity.
      - rewrite Hfin. rewrite lookup_insert_ne by auto. reflexivity.
      - rewrite Hfin. rewrite lookup_insert_ne by auto. reflexivity. }
    destruct ts; cbn in Hfin.
    + destruct Hfin as (tg3 & Htg3 & Hh). rewrite lookup_insert_eq in Htg3.
      injection Htg3 as <-.
      eexists _, _. rewrite Hh, lookup_insert_eq. split; [reflexivity|].
      split; [reflexivity|]. cbn. rewrite Hout, Hin.
      split; [reflexivity|]. split; [reflexivity|]. intros Hc; exfalso; apply Hc; reflexivity.
    + exists oc. split; [exact Hoc|]. cbn zeta.
      change (fk_Name ref) with cn.
      rewrite <- (originBefore_existing _ ec (ID tg0 =? ID t) t oc cn)
        by discriminate.
      fold t2. rewrite Hfin, lookup_insert_eq. split; [reflexivity|].
      destruct (AddForeignKeyMutation_keeps ref DescriptorMutation_ADD t2)
        as (_ & b & c).
      split_and!; congruence.
    + exists oc. split; [exact Hoc|]. cbn zeta.
      change (fk_Name ref) with cn.
      rewrite <- (originBefore_existing _ ec (ID tg0 =? ID t) t oc cn)
        by discriminate.
      fold t2. rewrite Hfin, lookup_insert_eq. split; [reflexivity|].
      destruct (AddForeignKeyMutation_keeps ref DescriptorMutation_ADD t2)
        as (_ & b & c).
      split_and!; congruence.
  - rewrite lookup_insert_ne in Htg2 by auto.
    exists target, tg2, ref. split; [exact Htg2|].
    do 5 (split; [solve [cbn; auto]|]).
    split.
    { intros p Hp Hp'. destruct ts; cbn in Hfin.
      - destruct Hfin as (tg3 & _ & ->). rewrite !lookup_insert_ne by auto. reflexivity.
      - rewrite Hfin. rewrite lookup_insert_ne by auto. reflexivity.
      - rewrite Hfin. rewrite lookup_insert_ne by auto. reflexivity. }
    destruct ts; cbn in Hfin.
    + destruct Hfin as (tg3 & Htg3 & Hh). rewrite lookup_insert_ne in Htg3 by auto.
      rewrite Htg2 in Htg3. injection Htg3 as <-.
      eexists _, _. rewrite Hh, lookup_insert_eq.
      rewrite lookup_insert_ne by auto. rewrite lookup_insert_eq.
      split; [reflexivity|]. split; [reflexivity|]. cbn. rewrite Hout.
      split; [reflexivity|]. split; [reflexivity|]. intros _. auto.
    + exists oc. split; [exact Hoc|]. cbn zeta.
      change (fk_Name ref) with cn.
      rewrite <- (originBefore_existing _ ec (ID tg0 =? ID t) t oc cn)
        by discriminate.
      fold t2. rewrite Hfin, lookup_insert_eq. split; [reflexivity|].
      destruct (AddForeignKeyMutation_keeps ref DescriptorMutation_ADD t2)
        as (_ & b & c).
      split_and!; try congruence. intros _.
      rewrite lookup_insert_ne by auto. exact Htg2.
    + exists oc. split; [exact Hoc|]. cbn zeta.
      change (fk_Name ref) with cn.
      rewrite <- (originBefore_existing _ ec (ID tg0 =? ID t) t oc cn)
        by discriminate.
      fold t2. rewrite Hfin, lookup_insert_eq. split; [reflexivity|].
      destruct (AddForeignKeyMutation_keeps ref DescriptorMutation_ADD t2)
        as (_ & b & c).
      split_and!; try congruence. intros _.
      rewrite lookup_insert_ne by auto. exact Htg2.
Qed.

(** C6. When the target of the foreign key is the origin table itself,
    ResolveFK edits the origin object in place of the resolved one:
    resolveTarget returns the origin pointer and leaves the store, and so
    the backrefs map, as it was; no other object of the store is edited;
    and on a new table the single origin object ends with the constraint
    both in its OutboundFKs and in its InboundFKs. *)
Theorem ResolveFK_self_reference sc tbl d ts vb ec s s' t p0 tg0 :
  ResolveFK sc tbl d ts vb ec s = (Ok tt, s') ->
  heap s !! tbl = Some t ->
  sc (fkd_Table d) = Ok p0 ->
  heap s !! p0 = Some tg0 ->
  ID tg0 = ID t ->
  (exists oc, resolveTarget sc tbl d ts ec s = (Ok (oc, tbl), s))
  /\ self_reference_shared tbl ts t s s'.
Proof.
  intros H Ht Hsc Htg0 Hid. split.
  { apply ResolveFK_inv in H as (oc & target & rc & cn & s1 & s2 & H1 & _).
    pose proof H1 as H1'.
    apply resolveTarget_ok in H1'
      as (t0 & p0' & tg0' & Ht0 & _ & Hsc' & Htg0' & _ & Hsel).
    rewrite Ht in Ht0. injection Ht0 as <-.
    rewrite Hsc in Hsc'. injection Hsc' as <-.
    rewrite Htg0 in Htg0'. injection Htg0' as <-.
    destruct Hsel as [(_ & -> & ->) | (Hne & _)]; [eauto | contradiction]. }
  apply ResolveFK_ok in H
    as (t0 & p0' & tg0' & oc & target & rc & cn & Ht0 & Hsc' & Htg0' & Hoc & Hact
        & Hw & Hsel & tg2 & Htg2 & Hfin).
  rewrite Ht in Ht0. injection Ht0 as <-.
  rewrite Hsc in Hsc'. injection Hsc' as <-.
  rewrite Htg0 in Htg0'. injection Htg0' as <-.
  destruct Hsel as [(_ & -> & Hb) | (Hne & _)]; [|contradiction].
  set (t2 := originBefore ts ec (ID tg0 =? ID t) t oc cn) in *.
  destruct (originBefore_keeps ts ec (ID tg0 =? ID t) t oc cn) as (Hid2 & Hout & Hin).
  fold t2 in Hid2, Hout, Hin. clearbody t2.
  rewrite lookup_insert_eq in Htg2. injection Htg2 as <-.
  cbn zeta in Hfin. unfold self_reference_shared.
  split; [exact Hb|]. split.
  - intros p Hp. destruct (FKTableState_eqb ts NewTable).
    + destruct Hfin as (tg3 & _ & ->). rewrite !lookup_insert_ne by auto. reflexivity.
    + rewrite Hfin. rewrite lookup_insert_ne by auto. reflexivity.
  - intros ->. cbn in Hfin. destruct Hfin as (tg3 & Htg3 & Hh).
    rewrite lookup_insert_eq in Htg3. injection Htg3 as <-.
    eexists _, _. rewrite Hh, lookup_insert_eq. split; [reflexivity|].
    cbn. rewrite Hout, Hin.
    split; [reflexivity|]. split; [reflexivity|]. cbn. auto.
Qed.

(** C1, as amended. For the first foreign key of a new table that
    references another table (CREATE TABLE child (a INT REFERENCES parent
    (a)) with an existing parent), a successful ResolveFK leaves exactly
    one OutboundFK on the child and one InboundFK on the parent, the same
    record, whose Validity is Validated, the zero value, whatever
    validation behaviour is requested; the parent enters the backrefs map;
    and the child gets the automatic index on the origin columns exactly
    when the cluster is below NoOriginFKIndexes and FindFKOriginIndexInTxn
    finds no index. *)
Theorem ResolveFK_new_table_scenario sc tbl d vb ec s s' child pp parent :
  ResolveFK sc tbl d NewTable vb ec s = (Ok tt, s') ->
  heap s !! tbl = Some child ->
  sc (fkd_Table d) = Ok pp ->
  heap s !! pp = Some parent ->
  ID parent <> ID child ->
  backrefs s !! ID parent = None ->
  OutboundFKs child = [] ->
  InboundFKs parent = [] ->
  new_table_fk_added tbl pp d ec child parent s s'.
Proof.
  intros H Ht Hsc Hp Hid Hb Hout0 Hin0.
  assert (Hpp : pp <> tbl) by (intros ->; congruence).
  apply ResolveFK_ok in H
    as (t0 & p0' & tg0' & oc & target & rc & cn & Ht0 & Hsc' & Htg0' & Hoc & Hact
        & Hw & Hsel & tg2 & Htg2 & Hfin).
  rewrite Ht in Ht0. injection Ht0 as <-.
  rewrite Hsc in Hsc'. injection Hsc' as <-.
  rewrite Hp in Htg0'. injection Htg0' as <-.
  destruct Hsel as [(E & _) | (_ & [(prev & E & _) | (_ & -> & Hb')])];
    [contradiction | congruence |].
  apply Z.eqb_neq in Hid. rewrite Hid in *.
  set (t2 := originBefore NewTable ec false child oc cn) in *.
  destruct (originBefore_keeps NewTable ec false child oc cn) as (Hid2 & Hout & Hin).
  fold t2 in Hid2, Hout, Hin.
  rewrite lookup_insert_ne in Htg2 by auto. rewrite Hp in Htg2. injection Htg2 as <-.
  cbn in Hfin. destruct Hfin as (tg3 & Htg3 & Hh).
  rewrite lookup_insert_ne in Htg3 by auto. rewrite Hp in Htg3. injection Htg3 as <-.
  unfold new_table_fk_added.
  eexists _, _, _, oc. rewrite Hh.
  rewrite (lookup_insert_ne _ pp tbl) by auto. rewrite !lookup_insert_eq.
  split; [reflexivity|]. split; [reflexivity|].
  cbn. rewrite Hout, Hout0, Hin0. cbn.
  split; [reflexivity|]. split; [reflexivity|]. split; [reflexivity|].
  split; [rewrite Hb'; apply lookup_insert_eq|]. split; [exact Hoc|].
  subst t2. unfold originBefore, needsAutoIndex, withAutoIndex. cbn.
  reflexivity.
Qed.

Lemma checkActions_violates d oc :
  violatesActions d oc = true ->
  exists msg, checkActions d oc = Err (Newf pgcode.InvalidForeignKey msg).
Proof.
  unfold violatesActions, checkActions. intros H.
  destruct (hasAction SetNull d); cbn in *.
  - destruct (existsb (fun c => negb (col_Nullable c)) oc); cbn in *; [eauto|].
    destruct (hasAction SetDefault d); cbn in *; [|discriminate].
    rewrite H. eauto.
  - destruct (hasAction SetDefault d); cbn in *; [|discriminate].
    rewrite H. eauto.
Qed.

(** C7, as amended. A definition whose delete or update action is SET NULL
    while an origin column is NOT NULL, or SET DEFAULT while an origin
    column is NOT NULL and has no default expression, is never accepted;
    when the checks that ResolveFK makes before (resolveTarget and
    resolveReferenced) pass, the error has the code InvalidForeignKey; and
    when ResolveFK returns, nothing has been written and every descriptor
    of the store is as before, except that the origin may already be in
    the ADD state: no constraint, index or mutation has been added. *)
Theorem ResolveFK_rejects_contradicting_actions sc tbl d ts vb ec s r s' t oc :
  ResolveFK sc tbl d ts vb ec s = (r, s') ->
  heap s !! tbl = Some t ->
  resolveOriginCols t (fkd_FromCols d) ∅ [] = Ok oc ->
  violatesActions d oc = true ->
  isOk r = false
  /\ (forall target rc cn s1,
        resolveTarget sc tbl d ts ec s = (Ok (oc, target), s1) ->
        resolveReferenced tbl target d oc s1 = (Ok (rc, cn), s1) ->
        exists msg, r = Err (Newf pgcode.InvalidForeignKey msg))
  /\ only_state_added tbl s s'.
Proof.
  intros H Ht Hoc Hv. unfold ResolveFK in H.
  destruct (resolveTarget sc tbl d ts ec s) as [r1 s1] eqn:H1.
  pose proof (resolveTarget_frame _ _ _ _ _ _ _ _ H1) as Hframe.
  unfold mbind' at 1 in H. rewrite H1 in H.
  destruct r1 as [[oc' target] | e |].
  2:{ injection H as <- <-. split; [reflexivity|]. split; [|exact Hframe].
      intros; discriminate. }
  2:{ injection H as <- <-. split; [reflexivity|]. split; [|exact Hframe].
      intros; discriminate. }
  assert (oc' = oc) as ->.
  { apply resolveTarget_ok in H1 as (t0 & _ & _ & Ht0 & Hoc' & _).
    rewrite Ht in Ht0. injection Ht0 as <-. congruence. }
  destruct (resolveReferenced tbl target d oc s1) as [r2 s2] eqn:H2.
  pose proof (resolveReferenced_stateless _ _ _ _ _ _ _ H2) as ->.
  unfold mbind' at 1 in H. rewrite H2 in H.
  destruct r2 as [[rc cn] | e |].
  2:{ injection H as <- <-. split; [reflexivity|]. split; [|exact Hframe].
      intros ? ? ? ? [= <- <-]. rewrite H2. discriminate. }
  2:{ injection H as <- <-. split; [reflexivity|]. split; [|exact Hframe].
      intros ? ? ? ? [= <- <-]. rewrite H2. discriminate. }
  destruct (checkActions_violates d oc Hv) as (msg & Hmsg).
  unfold mbind' at 1, lift in H. rewrite Hmsg in H. injection H as <- <-.
  split; [reflexivity|]. split; [|exact Hframe]. eauto.
Qed.

End ForeignKeyClaims.

Lemma run_eq {A S} (x : A * S) (a : A) : fst x = a -> x = (a, snd x).
Proof. destruct x. cbn. intros ->. reflexivity. Qed.

(** ** ResolveFK on the scenarios *)

(** The statement of C5 on CREATE TABLE child (a INT REFERENCES parent (a))
    and on ALTER TABLE child ADD FOREIGN KEY (a) REFERENCES parent (a), the
    table being empty and the cluster below NoOriginFKIndexes. *)
Lemma ResolveFK_adds_one_constraint_witness :
  (Ref.resolve_child Ref.child ["a"%string] NoAction ValidationDefault Ref.evalCtx_old
   = (Ok tt, snd (Ref.resolve_child Ref.child ["a"%string] NoAction
                    ValidationDefault Ref.evalCtx_old))
   /\ heap (Ref.store_of Ref.child) !! 0%nat = Some Ref.child
   /\ @one_constraint_added Ref.types Ref.cat
        (Ref.fk "parent" ["a"%string] ["a"%string] NoAction) 0%nat NewTable
        Ref.evalCtx_old Ref.child (Ref.store_of Ref.child)
        (snd (Ref.resolve_child Ref.child ["a"%string] NoAction
                ValidationDefault Ref.evalCtx_old)))
  /\ (Ref.alter_child ValidationDefault
      = (Ok tt, snd (Ref.alter_child ValidationDefault))
      /\ @one_constraint_added Ref.types Ref.cat
           (Ref.fk "parent" ["a"%string] ["a"%string] NoAction) 0%nat EmptyTable
           Ref.evalCtx_old Ref.child (Ref.store_of Ref.child)
           (snd (Ref.alter_child ValidationDefault))).
Proof.
  assert (H1 : Ref.resolve_child Ref.child ["a"%string] NoAction
                 ValidationDefault Ref.evalCtx_old
               = (Ok tt, snd (Ref.resolve_child Ref.child ["a"%string] NoAction
                                ValidationDefault Ref.evalCtx_old))).
  { apply run_eq. vm_compute. reflexivity. }
  assert (H2 : heap (Ref.store_of Ref.child) !! 0%nat = Some Ref.child).
  { vm_compute. reflexivity. }
  assert (H3 : Ref.alter_child ValidationDefault
               = (Ok tt, snd (Ref.alter_child ValidationDefault))).
  { apply run_eq. vm_compute. reflexivity. }
  split.
  - split; [exact H1|]. split; [exact H2|].
    exact (@ResolveFK_adds_one_constraint Ref.types Ref.cat Ref_laws _ _ _ _ _ _
             _ _ _ H1 H2).
  - split; [exact H3|].
    exact (@ResolveFK_adds_one_constraint Ref.types Ref.cat Ref_laws _ _ _ _ _ _
             _ _ _ H3 H2).
Defined.

(** The statement of C6 on a foreign key of [node] to itself, resolved to a
    second object for the same table. *)
Lemma ResolveFK_self_reference_witness :
  Ref.resolve_node = (Ok tt, snd Ref.resolve_node)
  /\ heap Ref.store_with_copy !! 0%nat = Some Ref.node
  /\ Ref.sc (Ref.tn "node_copy") = Ok 2%nat
  /\ heap Ref.store_with_copy !! 2%nat = Some Ref.node
  /\ ID Ref.node = ID Ref.node
  /\ (exists oc,
        @resolveTarget Ref.types Ref.cat Ref.sc 0%nat
          (Ref.fk "node_copy" ["up"%string] ["id"%string] NoAction) NewTable
          Ref.evalCtx_new Ref.store_with_copy
        = (Ok (oc, 0%nat), Ref.store_with_copy))
  /\ @self_reference_shared Ref.types 0%nat NewTable Ref.node
       Ref.store_with_copy (snd Ref.resolve_node).
Proof.
  assert (H1 : Ref.resolve_node = (Ok tt, snd Ref.resolve_node)).
  { apply run_eq. vm_compute. reflexivity. }
  assert (H2 : heap Ref.store_with_copy !! 0%nat = Some Ref.node).
  { vm_compute. reflexivity. }
  assert (H3 : Ref.sc (Ref.tn "node_copy") = Ok 2%nat) by reflexivity.
  assert (H4 : heap Ref.store_with_copy !! 2%nat = Some Ref.node).
  { vm_compute. reflexivity. }
  do 4 (split; [assumption|]). split; [reflexivity|].
  exact (@ResolveFK_self_reference Ref.types Ref.cat Ref_laws _ _ _ _ _ _ _ _ _ _ _
           H1 H2 H3 H4 eq_refl).
Defined.

(** The amended C1 on the scenario, with skip-validation requested. *)
Lemma ResolveFK_new_table_scenario_witness :
  Ref.resolve_child Ref.child ["a"%string] NoAction ValidationSkip Ref.evalCtx_old
  = (Ok tt, snd (Ref.resolve_child Ref.child ["a"%string] NoAction
                   ValidationSkip Ref.evalCtx_old))
  /\ heap (Ref.store_of Ref.child) !! 0%nat = Some Ref.child
  /\ fkSelfResolver Ref.sc 0%nat (Ref.tn "child") (Ref.tn "parent") = Ok 1%nat
  /\ heap (Ref.store_of Ref.child) !! 1%nat = Some Ref.parent
  /\ ID Ref.parent <> ID Ref.child
  /\ backrefs (Ref.store_of Ref.child) !! ID Ref.parent = None
  /\ OutboundFKs Ref.child = []
  /\ InboundFKs Ref.parent = []
  /\ @new_table_fk_added Ref.types Ref.cat 0%nat 1%nat
       (Ref.fk "parent" ["a"%string] ["a"%string] NoAction) Ref.evalCtx_old
       Ref.child Ref.parent (Ref.store_of Ref.child)
       (snd (Ref.resolve_child Ref.child ["a"%string] NoAction
               ValidationSkip Ref.evalCtx_old)).
Proof.
  assert (H1 : Ref.resolve_child Ref.child ["a"%string] NoAction
                 ValidationSkip Ref.evalCtx_old
               = (Ok tt, snd (Ref.resolve_child Ref.child ["a"%string] NoAction
                                ValidationSkip Ref.evalCtx_old))).
  { apply run_eq. vm_compute. reflexivity. }
  assert (H2 : heap (Ref.store_of Ref.child) !! 0%nat = Some Ref.child).
  { vm_compute. reflexivity. }
  assert (H3 : fkSelfResolver Ref.sc 0%nat (Ref.tn "child") (Ref.tn "parent")
               = Ok 1%nat) by reflexivity.
  assert (H4 : heap (Ref.store_of Ref.child) !! 1%nat = Some Ref.parent).
  { vm_compute. reflexivity. }
  assert (H5 : ID Ref.parent <> ID Ref.child) by (cbn; lia).
  assert (H6 : backrefs (Ref.store_of Ref.child) !! ID Ref.parent = None).
  { vm_compute. reflexivity. }
  do 6 (split; [assumption|]). split; [reflexivity|]. split; [reflexivity|].
  exact (@ResolveFK_new_table_scenario Ref.types Ref.cat Ref_laws _ _ _ _ _ _ _ _ _ _
           H1 H2 H3 H4 H5 H6 eq_refl eq_refl).
Defined.

(** C1, as stated, fails: in the scenario the call succeeds and the
    constraint it leaves on the child is not Validating, and with
    skip-validation requested it is not Unvalidated; and on a cluster at
    or above NoOriginFKIndexes the call succeeds and adds no index,
    although the child has no index on [a]. *)
Lemma ResolveFK_new_table_not_validating :
  fst (Ref.resolve_child Ref.child ["a"%string] NoAction ValidationDefault
         Ref.evalCtx_old) = Ok tt
  /\ fst (Ref.resolve_child Ref.child ["a"%string] NoAction ValidationSkip
            Ref.evalCtx_old) = Ok tt
  /\ ~ (exists t ref,
          heap (snd (Ref.resolve_child Ref.child ["a"%string] NoAction
                       ValidationDefault Ref.evalCtx_old)) !! 0%nat = Some t
          /\ OutboundFKs t = [ref]
          /\ Validity ref = ConstraintValidity_Validating)
  /\ ~ (exists t ref,
          heap (snd (Ref.resolve_child Ref.child ["a"%string] NoAction
                       ValidationSkip Ref.evalCtx_old)) !! 0%nat = Some t
          /\ OutboundFKs t = [ref]
          /\ Validity ref = ConstraintValidity_Unvalidated)
  /\ isErr (FindFKOriginIndexInTxn (Catalog:=Ref.cat)
              (set_State DescriptorState_ADD Ref.child) [1]) = true
  /\ fst (Ref.resolve_child Ref.child ["a"%string] NoAction ValidationDefault
            Ref.evalCtx_new) = Ok tt
  /\ ~ (exists t i,
          heap (snd (Ref.resolve_child Ref.child ["a"%string] NoAction
                       ValidationDefault Ref.evalCtx_new)) !! 0%nat = Some t
          /\ i ∈ Indexes t).
Proof.
  split; [vm_compute; reflexivity|]. split; [vm_compute; reflexivity|].
  split.
  { intros (t & ref & Ht & Hout & Hv). vm_compute in Ht.
    injection Ht as <-. cbn in Hout. injection Hout as <-. discriminate. }
  split.
  { intros (t & ref & Ht & Hout & Hv). vm_compute in Ht.
    injection Ht as <-. cbn in Hout. injection Hout as <-. discriminate. }
  split; [vm_compute; reflexivity|]. split; [vm_compute; reflexivity|].
  intros (t & i & Ht & Hi). vm_compute in Ht. injection Ht as <-.
  cbn in Hi. apply elem_of_nil in Hi. exact Hi.
Qed.

(** The amended C7 on ON DELETE SET NULL with [a INT NOT NULL]. *)
Lemma ResolveFK_rejects_contradicting_actions_witness :
  Ref.resolve_child Ref.child_notnull ["a"%string] SetNull ValidationDefault
    Ref.evalCtx_old
  = (Err (Newf pgcode.InvalidForeignKey
       "cannot add a SET NULL cascading action on column %q which has a NOT NULL constraint"),
     snd (Ref.resolve_child Ref.child_notnull ["a"%string] SetNull
            ValidationDefault Ref.evalCtx_old))
  /\ heap (Ref.store_of Ref.child_notnull) !! 0%nat = Some Ref.child_notnull
  /\ @resolveOriginCols Ref.types Ref.cat Ref.child_notnull ["a"%string] ∅ []
     = Ok [Ref.column 1 "a" Ref.INT8 false]
  /\ @violatesActions Ref.types
       (Ref.fk "parent" ["a"%string] ["a"%string] SetNull)
       [Ref.column 1 "a" Ref.INT8 false] = true
  /\ only_state_added 0%nat (Ref.store_of Ref.child_notnull)
       (snd (Ref.resolve_child Ref.child_notnull ["a"%string] SetNull
               ValidationDefault Ref.evalCtx_old)).
Proof.
  assert (H1 : Ref.resolve_child Ref.child_notnull ["a"%string] SetNull
                 ValidationDefault Ref.evalCtx_old
               = (Err (Newf pgcode.InvalidForeignKey
       "cannot add a SET NULL cascading action on column %q which has a NOT NULL constraint"),
     snd (Ref.resolve_child Ref.child_notnull ["a"%string] SetNull
            ValidationDefault Ref.evalCtx_old))).
  { apply run_eq. vm_compute. reflexivity. }
  assert (H2 : heap (Ref.store_of Ref.child_notnull) !! 0%nat
               = Some Ref.child_notnull).
  { vm_compute. reflexivity. }
  assert (H3 : @resolveOriginCols Ref.types Ref.cat Ref.child_notnull
                 ["a"%string] ∅ [] = Ok [Ref.column 1 "a" Ref.INT8 false]).
  { vm_compute. reflexivity. }
  assert (H4 : @violatesActions Ref.types
                 (Ref.fk "parent" ["a"%string] ["a"%string] SetNull)
                 [Ref.column 1 "a" Ref.INT8 false] = true) by reflexivity.
  do 4 (split; [assumption|]).
  exact (proj2 (proj2
    (@ResolveFK_rejects_contradicting_actions Ref.types Ref.cat _ _ _ _ _ _ _ _ _ _ _
       H1 H2 H3 H4))).
Defined.

(** C7, as stated, fails: ON DELETE SET NULL on a NOT NULL origin column
    whose type does not match the referenced column is rejected by the
    type check, with the code DatatypeMismatch. *)
Lemma ResolveFK_set_null_datatype_mismatch :
  heap (Ref.store_of Ref.child_notnull) !! 0%nat = Some Ref.child_notnull
  /\ @resolveOriginCols Ref.types Ref.cat Ref.child_notnull ["a"%string] ∅ []
     = Ok [Ref.column 1 "a" Ref.INT8 false]
  /\ @violatesActions Ref.types
       (Ref.fk "parent" ["a"%string] ["s"%string] SetNull)
       [Ref.column 1 "a" Ref.INT8 false] = true
  /\ fst (Ref.resolve_child Ref.child_notnull ["s"%string] SetNull
            ValidationDefault Ref.evalCtx_old)
     = Err (Newf pgcode.DatatypeMismatch
              "type of %q (%s) does not match foreign key %q.%q (%s)")
  /\ ~ (exists msg,
          fst (Ref.resolve_child Ref.child_notnull ["s"%string] SetNull
                 ValidationDefault Ref.evalCtx_old)
          = Err (Newf pgcode.InvalidForeignKey msg)).
Proof.
  split; [vm_compute; reflexivity|]. split; [vm_compute; reflexivity|].
  split; [reflexivity|]. split; [vm_compute; reflexivity|].
  intros (msg & H). vm_compute in H. discriminate.
Qed.

(** ** addInterleave: the claims *)

Section InterleaveClaims.
Context {types : Types} {cat : Catalog}.

Lemma uint32_sub_idemp a b : uint32 (uint32 a - b) = uint32 (a - b).
Proof. unfold uint32. apply Zminus_mod_idemp_l. Qed.

Lemma sharedPrefixLen_sum l n :
  sharedPrefixLen l (uint32 n) = uint32 (n - ancestorSum l).
Proof.
  unfold sharedPrefixLen, ancestorSum. revert n.
  induction l as [|a l IH]; intros n; cbn.
  - f_equal. lia.
  - rewrite uint32_sub_idemp, IH. f_equal. lia.
Qed.

(** C8. When addInterleave succeeds, the ancestor chain of the child index
    is the chain of the parent's primary index followed by one entry with
    the parent table ID, the parent's primary index ID and, in uint32
    arithmetic, the parent's primary-key column count minus the sum of the
    SharedPrefixLen values of the parent's own ancestors (exactly that
    difference when the sum does not exceed the count); the child table is
    in the ADD state; nothing else changes. *)
Theorem addInterleave_ancestor_chain vt desc index_ interleave desc' index' :
  addInterleave vt desc index_ interleave = Ok (desc', index') ->
  exists parentTable,
    vt (ild_Parent interleave) = Ok parentTable
    /\ ancestor_chain_appended parentTable desc index_ desc' index'.
Proof.
  unfold addInterleave. intros H.
  destruct (ild_DropBehavior interleave); try discriminate.
  destruct (vt (ild_Parent interleave)) as [parentTable | |]; try discriminate.
  cbn [rbind] in H. exists parentTable. split; [reflexivity|].
  destruct (negb _); [discriminate|].
  destruct (_ <? _)%nat; [discriminate|].
  destruct (interleaveColumns _ _ _ _ _ _ _) as [[] | |]; try discriminate.
  cbn [rbind] in H. injection H as <- <-. unfold ancestor_chain_appended.
  cbn zeta. rewrite sharedPrefixLen_sum. cbn.
  split; [reflexivity|]. split.
  - intros Hs Hc. unfold uint32. apply Z.mod_small. lia.
  - auto.
Qed.


Lemma drop_cons_inv {A} (l : list A) i x r :
  drop i l = x :: r -> l !! i = Some x /\ drop (S i) l = r.
Proof.
  intros H. split.
  - pose proof (lookup_drop l i 0) as E. rewrite H, Nat.add_0_r in E.
    cbn in E. auto.
  - pose proof (drop_drop l 1 i) as E. rewrite H, Nat.add_1_r in E.
    cbn in E. auto.
Qed.

Lemma index_lookup {A} (l : list A) i x : l !! i = Some x -> index l i = Ok x.
Proof. unfold index. intros ->. reflexivity. Qed.

Lemma interleaveColumns_spec parentTable desc index_ Fields :
  interleave_inputs_ok parentTable desc index_ ->
  length Fields = length (idx_ColumnIDs (PrimaryIndex parentTable)) ->
  (length Fields <= length (idx_ColumnIDs index_))%nat ->
  forall ids i,
    drop i (idx_ColumnIDs (PrimaryIndex parentTable)) = ids ->
    (interleaveColumns parentTable desc (PrimaryIndex parentTable) index_ Fields
       i ids = Ok tt
     /\ forall j, (i <= j < length Fields)%nat ->
                  position_matches parentTable desc index_ Fields j)
    \/ (exists msg j,
          interleaveColumns parentTable desc (PrimaryIndex parentTable) index_
            Fields i ids = Err (Newf pgcode.InvalidSchemaDefinition msg)
          /\ (i <= j < length Fields)%nat
          /\ ~ position_matches parentTable desc index_ Fields j).
Proof.
  intros (Hp & Hc & Hdc & Hdp) Hlen Hle.
  induction ids as [|pid rest IH]; intros i Hdrop.
  - left. split; [reflexivity|]. intros j Hj.
    apply (f_equal length) in Hdrop. rewrite length_drop in Hdrop. cbn in Hdrop. lia.
  - apply drop_cons_inv in Hdrop as [Hpid Hrest].
    pose proof (lookup_lt_Some _ _ _ Hpid) as Hi.
    destruct (lookup_lt_is_Some_2 (idx_ColumnIDs index_) i ltac:(lia)) as [cid Hcid].
    destruct (lookup_lt_is_Some_2 Fields i ltac:(lia)) as [field Hfield].
    destruct (lookup_lt_is_Some_2 (idx_ColumnDirections index_) i ltac:(lia))
      as [dir Hdir].
    destruct (lookup_lt_is_Some_2 (idx_ColumnDirections (PrimaryIndex parentTable))
                i ltac:(lia)) as [pdir Hpdir].
    pose proof (Hp pid (list_elem_of_lookup_2 _ _ _ Hpid)) as Hpc.
    pose proof (Hc cid (list_elem_of_lookup_2 _ _ _ Hcid)) as Hcc.
    destruct (FindColumnByID parentTable pid) as [pc | |] eqn:Epc; try discriminate.
    destruct (FindColumnByID desc cid) as [cc | |] eqn:Ecc; try discriminate.
    assert (Hhere :
      position_matches parentTable desc index_ Fields i ->
      field = col_Name cc /\ Identical (col_Type cc) (col_Type pc) = true
      /\ dir = pdir).
    { intros (pid' & cid' & pc' & cc' & field' & dir' & A1 & A2 & A3 & A4 & A5
                & A6 & A7 & A8 & A9).
      rewrite Hpid in A1. injection A1 as <-.
      rewrite Hcid in A2. injection A2 as <-.
      rewrite Epc in A3. injection A3 as <-.
      rewrite Ecc in A4. injection A4 as <-.
      rewrite Hfield in A5. injection A5 as <-.
      rewrite Hdir in A8. injection A8 as <-.
      rewrite Hpdir in A9. injection A9 as <-. auto. }
    cbn [interleaveColumns]. rewrite Epc. cbn [rbind].
    rewrite (index_lookup _ _ _ Hcid). cbn [rbind]. rewrite Ecc. cbn [rbind].
    rewrite (index_lookup _ _ _ Hfield). cbn [rbind].
    destruct (String.eqb field (col_Name cc)) eqn:En; cbn [negb].
    2:{ right. eexists _, i. split; [reflexivity|]. split; [lia|].
        intros Hm. apply Hhere in Hm as (Hm & _). apply String.eqb_neq in En. auto. }
    apply String.eqb_eq in En.
    destruct (Identical (col_Type cc) (col_Type pc)) eqn:Et; cbn [negb].
    2:{ right. eexists _, i. split; [reflexivity|]. split; [lia|].
        intros Hm. apply Hhere in Hm as (_ & Hm & _). discriminate. }
    rewrite (index_lookup _ _ _ Hdir), (index_lookup _ _ _ Hpdir). cbn [rbind].
    destruct (Direction_eqb dir pdir) eqn:Ed; cbn [negb].
    2:{ right. eexists _, i. split; [reflexivity|]. split; [lia|].
        intros Hm. apply Hhere in Hm as (_ & _ & Hm). subst.
        destruct pdir; discriminate. }
    assert (dir = pdir) as -> by (destruct dir, pdir; cbn in Ed; congruence).
    destruct (IH (S i) Hrest) as [(Hok & Hall) | (msg & j & Herr & Hj & Hn)].
    + left. split; [exact Hok|]. intros j Hj.
      destruct (decide (j = i)) as [-> | Hne]; [|apply Hall; lia].
      exists pid, cid, pc, cc, field, pdir. auto 10.
    + right. exists msg, j. split; [exact Herr|]. split; [lia|exact Hn].
Qed.

(** C2, as amended. With the default drop behaviour, a parent that
    resolves and descriptors whose key columns exist, addInterleave
    returns nil if and only if the number of declared fields is the number
    of columns of the parent's primary index and at most the number of
    columns of the child index, and at each position the field is the name
    of the child index's column and that column has a type identical to,
    and the direction of, the parent's column at that position; the names
    of the parent's columns are not compared. Every other outcome is an
    error with the code InvalidSchemaDefinition. *)
Theorem addInterleave_prefix_law vt desc index_ interleave parentTable :
  ild_DropBehavior interleave = DropDefault ->
  vt (ild_Parent interleave) = Ok parentTable ->
  interleave_inputs_ok parentTable desc index_ ->
  (isOk (addInterleave vt desc index_ interleave) = true
   <-> prefix_law parentTable desc index_ (ild_Fields interleave))
  /\ (isOk (addInterleave vt desc index_ interleave) = false ->
      exists msg,
        addInterleave vt desc index_ interleave
        = Err (Newf pgcode.InvalidSchemaDefinition msg)).
Proof.
  intros Hdrop Hvt Hwf. unfold addInterleave, prefix_law.
  rewrite Hdrop, Hvt. cbn [rbind].
  destruct (length (ild_Fields interleave)
            =? length (idx_ColumnIDs (PrimaryIndex parentTable)))%nat eqn:E1;
    cbn [negb].
  2:{ apply Nat.eqb_neq in E1. split; [|eauto].
      split; [discriminate|]. intros (H & _). contradiction. }
  apply Nat.eqb_eq in E1.
  destruct (length (idx_ColumnIDs index_) <? length (ild_Fields interleave))%nat
    eqn:E2.
  { apply Nat.ltb_lt in E2. split; [|eauto].
    split; [discriminate|]. intros (_ & H & _). lia. }
  apply Nat.ltb_ge in E2.
  destruct (interleaveColumns_spec parentTable desc index_ (ild_Fields interleave)
              Hwf E1 E2 (idx_ColumnIDs (PrimaryIndex parentTable)) 0%nat
              eq_refl)
    as [(Hok & Hall) | (msg & j & Herr & Hj & Hn)].
  - rewrite Hok. cbn. split; [|discriminate]. split; [|reflexivity].
    intros _. repeat split; auto. intros i Hi. apply Hall. lia.
  - rewrite Herr. cbn. split; [|eauto]. split; [discriminate|].
    intros (_ & _ & Hall). exfalso. apply Hn, Hall. lia.
Qed.

End InterleaveClaims.

(** ** addInterleave on the scenario *)

(** The statement of C8 on [orders] interleaved in [customers]. *)
Lemma addInterleave_ancestor_chain_witness :
  @addInterleave Ref.types Ref.cat Ref.vt Ref.orders (PrimaryIndex Ref.orders)
    Ref.interleave_in_customers
  = Ok (set_State DescriptorState_ADD Ref.orders,
        set_Interleave
          [{| anc_TableID := 61; anc_IndexID := 1; anc_SharedPrefixLen := 1 |}]
          (PrimaryIndex Ref.orders))
  /\ exists parentTable,
       Ref.vt (Ref.tn "customers") = Ok parentTable
       /\ @ancestor_chain_appended Ref.types parentTable Ref.orders
            (PrimaryIndex Ref.orders)
            (set_State DescriptorState_ADD Ref.orders)
            (set_Interleave
               [{| anc_TableID := 61; anc_IndexID := 1;
                   anc_SharedPrefixLen := 1 |}]
               (PrimaryIndex Ref.orders)).
Proof.
  assert (H : @addInterleave Ref.types Ref.cat Ref.vt Ref.orders
                (PrimaryIndex Ref.orders) Ref.interleave_in_customers
              = Ok (set_State DescriptorState_ADD Ref.orders,
                    set_Interleave
                      [{| anc_TableID := 61; anc_IndexID := 1;
                          anc_SharedPrefixLen := 1 |}]
                      (PrimaryIndex Ref.orders))).
  { vm_compute. reflexivity. }
  split; [exact H|].
  exact (@addInterleave_ancestor_chain Ref.types Ref.cat _ _ _ _ _ _ H).
Defined.

Lemma Ref_interleave_inputs_ok :
  @interleave_inputs_ok Ref.types Ref.cat Ref.customers Ref.orders
    (PrimaryIndex Ref.orders).
Proof.
  repeat split.
  - intros pid Hpid. cbn in Hpid. apply list_elem_of_singleton in Hpid as ->.
    reflexivity.
  - intros cid Hcid. cbn in Hcid.
    apply elem_of_cons in Hcid as [-> | Hcid]; [reflexivity|].
    apply list_elem_of_singleton in Hcid as ->. reflexivity.
Qed.

(** The amended C2 on [orders] interleaved in [customers]: addInterleave
    succeeds, so the prefix law holds. *)
Lemma addInterleave_prefix_law_witness :
  ild_DropBehavior Ref.interleave_in_customers = DropDefault
  /\ Ref.vt (ild_Parent Ref.interleave_in_customers) = Ok Ref.customers
  /\ @interleave_inputs_ok Ref.types Ref.cat Ref.customers Ref.orders
       (PrimaryIndex Ref.orders)
  /\ @prefix_law Ref.types Ref.cat Ref.customers Ref.orders
       (PrimaryIndex Ref.orders) (ild_Fields Ref.interleave_in_customers).
Proof.
  split; [reflexivity|]. split; [reflexivity|].
  split; [exact Ref_interleave_inputs_ok|].
  apply (proj1 (@addInterleave_prefix_law Ref.types Ref.cat Ref.vt Ref.orders
                  (PrimaryIndex Ref.orders) Ref.interleave_in_customers
                  Ref.customers eq_refl eq_refl Ref_interleave_inputs_ok)).
  vm_compute. reflexivity.
Defined.

(** C2, as stated, fails: the declared field [customer] is a prefix of the
    child's primary key and matches the parent's key column [id] in type
    and direction, and addInterleave succeeds, although the field is not
    the name of the parent's key column. *)
Lemma addInterleave_ignores_parent_names :
  isOk (@addInterleave Ref.types Ref.cat Ref.vt Ref.orders
          (PrimaryIndex Ref.orders) Ref.interleave_in_customers) = true
  /\ idx_ColumnNames (PrimaryIndex Ref.customers) = ["id"%string]
  /\ ild_Fields Ref.interleave_in_customers = ["customer"%string]
  /\ ~ @matches_parent_names Ref.types Ref.customers
         (ild_Fields Ref.interleave_in_customers).
Proof.
  split; [vm_compute; reflexivity|]. split; [reflexivity|].
  split; [reflexivity|].
  intros H. specialize (H 0%nat "customer"%string eq_refl). discriminate.
Qed.

(** ** Hash-sharded primary keys: the claims *)

Section ShardClaims.
Context {types : Types} {cat : Catalog} {env : ShardEnv} {benv : BuildEnv}.

Lemma hashSum_nil_inv l : hashSum l = NilExpr -> l = [].
Proof. destruct l as [|c [|c' l]]; cbn; [reflexivity | discriminate..]. Qed.

Lemma hashSumExpr_hashSum colNames : hashSumExpr colNames = hashSum colNames.
Proof.
  unfold hashSumExpr.
  assert (H : fold_left sumStep (rev colNames) NilExpr
              = fold_right (fun c e => sumStep e c) NilExpr colNames).
  { rewrite <- (rev_involutive colNames) at 2. symmetry.
    apply (fold_left_rev_right (fun c e => sumStep e c)). }
  rewrite H. clear H.
  induction colNames as [|c rest IH]; [reflexivity|].
  cbn [fold_right]. rewrite IH.
  destruct rest as [|c' rest]; [reflexivity|].
  change (hashSum (c :: c' :: rest))
    with (BinaryExpr Plus (hashedColumnExpr c) (hashSum (c' :: rest))).
  unfold sumStep. destruct (hashSum (c' :: rest)) eqn:E; try reflexivity.
  apply hashSum_nil_inv in E. discriminate.
Qed.

(** C3. makeHashShardComputeExpr is a function of its two arguments: equal
    column lists and bucket counts give the same string. For every input
    the string is the serialization of mod(sum, buckets), where sum adds
    fnv32(COALESCE(col::STRING, '')) over the columns in the order of the
    list; for (["a", "b"], 4) it is the serialization of
    mod(fnv32(COALESCE(a::STRING, '')) + fnv32(COALESCE(b::STRING, '')), 4). *)
Theorem makeHashShardComputeExpr_deterministic :
  (forall colNames colNames' buckets buckets',
      colNames = colNames' -> buckets = buckets' ->
      makeHashShardComputeExpr colNames buckets
      = makeHashShardComputeExpr colNames' buckets')
  /\ (forall colNames buckets,
        makeHashShardComputeExpr colNames buckets
        = Serialize (FuncExpr (unresolvedFunc "mod")
                       [hashSum colNames; DInt buckets]))
  /\ makeHashShardComputeExpr ["a"; "b"]%string 4
     = Serialize
         (FuncExpr (unresolvedFunc "mod")
            [BinaryExpr Plus
               (FuncExpr (unresolvedFunc "fnv32")
                  [CoalesceExpr "COALESCE"
                     [CastExpr (ColumnItem "a") types_String;
                      DString EmptyString]])
               (FuncExpr (unresolvedFunc "fnv32")
                  [CoalesceExpr "COALESCE"
                     [CastExpr (ColumnItem "b") types_String;
                      DString EmptyString]]);
             DInt 4]).
Proof.
  split; [intros ? ? ? ? -> ->; reflexivity|].
  split; [|reflexivity].
  intros colNames buckets. unfold makeHashShardComputeExpr.
  rewrite hashSumExpr_hashSum. reflexivity.
Qed.

Lemma rbind_ok {A B} (r : result A) (k : A -> result B) b :
  rbind r k = Ok b -> exists a, r = Ok a /\ k a = Ok b.
Proof. destruct r as [a | e |]; cbn; intros H; [eauto | discriminate..]. Qed.

Lemma commit_ok r t : commit r = Ok t -> fst r = Ok tt /\ snd r = t.
Proof.
  destruct r as [[[] | e |] t0]; cbn; intros H; try discriminate.
  injection H as <-. auto.
Qed.

Context {planner : Planner} {aenv : AssembleEnv} {blaws : BuildLaws}.

Lemma columnPass_sharded PB IL En version indexEncodingVersion desc d cp :
  Columns desc = [] ->
  ctd_Sharded d = true ->
  ctd_HasDefaultExpr d = false ->
  EvalShardBucketCount (ctd_ShardBuckets d) = Ok 4 ->
  columnPass PB IL En version indexEncodingVersion desc [Def_Column d] = Ok cp ->
  PB = false /\ IL = false
  /\ (exists hash col idx expr,
        makeHashShardComputeExpr [ctd_Name d] 4 = Ok hash
        /\ MakeColumnDefDescs d = Ok (col, idx, expr)
        /\ Columns (cp_desc cp) = [shardColumn (ctd_Name d) 4 hash; col])
  /\ Checks (cp_desc cp) = Checks desc
  /\ cp_Defs cp
     = [Def_Column d;
        Def_CheckConstraint
          (shardCheck4 (GetShardColumnName [ctd_Name d] (int32 4)))]
  /\ cp_columnDefaultExprs cp = [None; None].
Proof.
  intros Hcols Hsh Hdef Hb H.
  unfold columnPass in H. cbn [columnPassLoop length replicate] in H.
  apply rbind_ok in H as (st & H & Hret). injection Hret as <-.
  unfold columnDef in H. cbn [cp_desc cp_Defs cp_columnDefaultExprs] in H.
  apply rbind_ok in H as (ty & _ & H).
  apply rbind_ok in H as (_ & _ & H).
  apply rbind_ok in H as (sup & _ & H).
  apply rbind_ok in H as (_ & _ & H).
  rewrite Hsh in H.
  apply rbind_ok in H as (st1 & H1 & H).
  destruct En; [|discriminate]. cbn [negb] in H1.
  destruct PB; [discriminate|]. destruct IL; [discriminate|].
  rewrite Hb in H1. cbn [rbind] in H1.
  apply rbind_ok in H1 as ([[shardCol newCol] desc1] & Hm & H1).
  unfold maybeCreateAndAddShardCol, makeShardColumnDesc in Hm.
  apply rbind_ok in Hm as (sc & Hm0 & Hm).
  apply rbind_ok in Hm0 as (hash & Hhash & Hm0). injection Hm0 as <-.
  rewrite Hcols in Hm. cbn [find] in Hm. injection Hm as <- <- <-.
  unfold makeShardCheckConstraintDef in H1. cbn [rbind] in H1.
  injection H1 as <-. cbn [cp_desc cp_Defs cp_columnDefaultExprs app] in H.
  destruct (ctd_IsVirtual d); [discriminate|].
  apply rbind_ok in H as ([[col idx] expr] & Hmk & H).
  rewrite Hdef in H. unfold assign in H.
  cbn [length Nat.ltb Nat.leb rbind] in H.
  apply rbind_ok in H as (desc2 & H2 & H).
  apply rbind_ok in H as (desc3 & H3 & H). injection H as <-.
  cbn [cp_desc cp_Defs cp_columnDefaultExprs].
  assert (K2 : Columns desc2 = [shardColumn (ctd_Name d) 4 hash; col]
               /\ Checks desc2 = Checks desc).
  { destruct idx as [idx|].
    - apply commit_ok in H2 as [_ <-].
      rewrite AddIndex_keeps_Columns, AddIndex_keeps_Checks.
      unfold AddColumn. cbn. rewrite Hcols. auto.
    - injection H2 as <-. unfold AddColumn. cbn. rewrite Hcols. auto. }
  assert (K3 : Columns desc3 = Columns desc2 /\ Checks desc3 = Checks desc2).
  { destruct (ctd_HasColumnFamily d).
    - apply commit_ok in H3 as [_ <-].
      rewrite AddColumnToFamilyMaybeCreate_keeps_Columns,
        AddColumnToFamilyMaybeCreate_keeps_Checks. auto.
    - injection H3 as <-. auto. }
  destruct K2 as [K2 K2'], K3 as [K3 K3'].
  split; [reflexivity|]. split; [reflexivity|].
  split; [exists hash, col, idx, expr; split; [exact Hhash|];
          split; [exact Hmk|]; rewrite K3; exact K2|].
  split; [rewrite K3'; exact K2'|].
  split; reflexivity.
Qed.


Lemma shardColumns_sameButID d columns columns' :
  shardColumns d columns -> Forall2 sameButID columns columns' ->
  shardColumns d columns'.
Proof.
  intros (shard & col & -> & Hn & Hty & Hnull & Hhid & Hce & Hcol) H.
  inversion H as [|? shard' ? l' Hs H1]; subst.
  inversion H1 as [|? col' ? l'' Hc H2]; subst.
  inversion H2; subst.
  destruct Hs as (Sn & Sty & Snull & _ & Sce & Shid).
  destruct Hc as (Cn & Cty & Cnull & _ & _ & Chid).
  exists shard', col'. split; [reflexivity|].
  rewrite Sn, Sty, Snull, Shid, Sce, Cn, Cty, Cnull, Chid.
  auto 10.
Qed.

Lemma dequalifyComputedColumns_sharded sourceInfo d hash col idx expr columns :
  makeHashShardComputeExpr [ctd_Name d] 4 = Ok hash ->
  MakeColumnDefDescs d = Ok (col, idx, expr) ->
  dequalifyComputedColumns sourceInfo [shardColumn (ctd_Name d) 4 hash; col]
  = Ok columns ->
  shardColumns d columns.
Proof.
  intros Hhash Hmk H. cbn [dequalifyComputedColumns shardColumn col_ComputeExpr] in H.
  apply rbind_ok in H as (shard & Hs & H).
  apply rbind_ok in Hs as (parsed & Hp & Hs).
  apply rbind_ok in Hs as (deq & Hd & Hs). injection Hs as <-.
  apply rbind_ok in H as (rest & Hr & H). injection H as <-.
  apply rbind_ok in Hr as (col' & Hc & Hr). cbn [rbind] in Hr.
  injection Hr as <-.
  assert (Hcol : col_Name col' = col_Name col /\ col_Type col' = col_Type col
                 /\ col_Nullable col' = col_Nullable col
                 /\ col_Hidden col' = col_Hidden col).
  { destruct (col_ComputeExpr col) as [ce|].
    - apply rbind_ok in Hc as (pe & _ & Hc).
      apply rbind_ok in Hc as (de & _ & Hc). injection Hc as <-.
      cbn. auto.
    - injection Hc as <-. auto. }
  destruct Hcol as (C1 & C2 & C3 & C4).
  eexists _, col'. split; [reflexivity|]. cbn.
  split; [reflexivity|]. split; [reflexivity|]. split; [reflexivity|].
  split; [reflexivity|].
  split; [exists hash, parsed, sourceInfo, deq; auto|].
  exists col, idx, expr. auto.
Qed.

Lemma assignShardColumnFamilies_keeps indexes explicit desc desc' :
  assignShardColumnFamilies indexes explicit desc = Ok desc' ->
  Columns desc' = Columns desc /\ Checks desc' = Checks desc.
Proof.
  revert desc. induction indexes as [|sl rest IH]; intros desc H.
  - injection H as <-. auto.
  - cbn [assignShardColumnFamilies] in H.
    apply rbind_ok in H as (index_ & _ & H).
    apply rbind_ok in H as (desc1 & H1 & H).
    apply IH in H as [-> ->].
    destruct (IsSharded (idx_Sharded index_)
              && negb (bool_decide (sh_Name (idx_Sharded index_) ∈ explicit))).
    + destruct (negb (String.eqb _ _)).
      * apply commit_ok in H1 as [_ <-].
        rewrite AddColumnToFamilyMaybeCreate_keeps_Columns,
          AddColumnToFamilyMaybeCreate_keeps_Checks. auto.
      * injection H1 as <-. auto.
    + injection H1 as <-. auto.
Qed.

Lemma buildColumnsAndIndexes_sharded st n parentID parentSchemaID id evalCtx
    sessionData persistence d desc0 Defs columnDefaultExprs :
  ct_Defs n = [Def_Column d] ->
  ctd_Sharded d = true ->
  ctd_HasDefaultExpr d = false ->
  EvalShardBucketCount (ctd_ShardBuckets d) = Ok 4 ->
  buildColumnsAndIndexes st n parentID parentSchemaID id evalCtx sessionData
    persistence = Ok (desc0, Defs, columnDefaultExprs) ->
  ct_PartitionBy n = None /\ ct_Interleave n = None
  /\ Defs = [Def_Column d;
             Def_CheckConstraint
               (shardCheck4 (GetShardColumnName [ctd_Name d] (int32 4)))]
  /\ columnDefaultExprs = [None; None]
  /\ shardColumns d (Columns desc0)
  /\ Checks desc0 = [].
Proof.
  intros HDefs Hsh Hdef Hb H. unfold buildColumnsAndIndexes in H.
  apply rbind_ok in H as (_ & _ & H).
  apply rbind_ok in H as (cp & Hcp & H).
  rewrite HDefs in Hcp.
  apply columnPass_sharded in Hcp
    as (HPB & HIL & (hash & col & idx & expr & Hhash & Hmk & Hcols) & Hchecks
        & HcpDefs & Hcde);
    [|apply InitTableDescriptor_Columns|exact Hsh|exact Hdef|exact Hb].
  rewrite InitTableDescriptor_Checks in Hchecks.
  apply rbind_ok in H as (columns & Hdq & H).
  rewrite Hcols in Hdq.
  apply (dequalifyComputedColumns_sharded _ _ _ _ _ _ _ Hhash Hmk) in Hdq.
  rewrite HcpDefs, Hcde in H. cbn [indexPass rbind ip_desc ip_Defs
    ip_columnDefaultExprs ip_primaryIndexColumnSet] in H.
  apply rbind_ok in H as (_ & _ & H).
  cbn [primaryKeyColumnsNotNull addFamilies] in H.
  apply rbind_ok in H as (desc1 & H1 & H).
  apply rbind_ok in H as (desc2 & H2 & H). injection H as <- <- <-.
  apply assignShardColumnFamilies_keeps in H1 as [K1 K1'].
  cbn [Columns Checks set_Columns] in K1, K1'.
  apply commit_ok in H2 as [_ <-].
  split; [destruct (ct_PartitionBy n); [discriminate|reflexivity]|].
  split; [destruct (ct_Interleave n); [discriminate|reflexivity]|].
  split; [reflexivity|]. split; [reflexivity|].
  split.
  - apply (shardColumns_sameButID d (Columns desc1)).
    + rewrite K1. exact Hdq.
    + apply AllocateIDs_keeps_Columns.
  - rewrite AllocateIDs_keeps_Checks, K1'. exact Hchecks.
Qed.


Lemma applyLocality_keeps n parentID p s s' t :
  heap s !! p = Some t ->
  applyLocality n parentID p s = (Ok tt, s') ->
  exists t', heap s' !! p = Some t'
             /\ Columns t' = Columns t /\ Checks t' = Checks t.
Proof.
  intros Ht H. unfold applyLocality in H.
  destruct (ct_Locality n) as [locality|].
  - mstep H as db s1 H1.
    assert (s1 = s) as ->.
    { destruct (MustGetDatabaseDescByID s parentID); injection H1; auto;
        discriminate. }
    mstep H as u1 s2 H2. apply modify_ok in H2 as (t0 & Ht0 & ->).
    rewrite Ht in Ht0. injection Ht0 as <-.
    mstep H as l s3 H3.
    assert (s3 = with_heap (<[p:=set_LocalityConfig (Some {| Locality := None |}) t]>
                              (heap s)) s) as ->.
    { destruct (loc_LocalityLevel locality);
        first [apply mret_ok in H3 as [_ ->]; reflexivity | discriminate]. }
    mstep H as u2 s4 H4. apply modify_ok in H4 as (t1 & Ht1 & ->).
    cbn [heap with_heap] in Ht1. rewrite lookup_insert_eq in Ht1.
    injection Ht1 as <-.
    apply lift_ok in H as [_ ->].
    eexists. cbn [heap with_heap]. rewrite lookup_insert_eq.
    split; [reflexivity|]. split; reflexivity.
  - apply mret_ok in H as [_ ->]. eauto.
Qed.


End ShardClaims.

(** The statement of C3 with the reference formatter. *)
Lemma makeHashShardComputeExpr_deterministic_witness :
  @makeHashShardComputeExpr Ref.types Ref.env ["a"; "b"]%string 4
  = Ok "mod(fnv32(COALESCE(a::STRING, '':::STRING)) + fnv32(COALESCE(b::STRING, '':::STRING)), 4:::INT8)"%string.
Proof.
  rewrite (proj2 (proj2 (@makeHashShardComputeExpr_deterministic
                           Ref.types Ref.env))).
  vm_compute. reflexivity.
Defined.

Lemma sameButID_refl {types : Types} (l : list ColumnDescriptor) :
  Forall2 sameButID l l.
Proof.
  induction l as [|c l IH]; constructor; [|exact IH].
  repeat split.
Qed.

Lemma Ref_build_laws :
  BuildLaws (types:=Ref.types) (cat:=Ref.cat) (benv:=Ref.benv)
    (aenv:=Ref.aenv).
Proof.
  split.
  - reflexivity.
  - reflexivity.
  - intros idx primary t. cbn. destruct primary; reflexivity.
  - intros idx primary t. cbn. destruct primary; reflexivity.
  - reflexivity.
  - reflexivity.
  - intros t. cbn. apply sameButID_refl.
  - reflexivity.
  - intros b t d ck b'. cbn. destruct (Ref.format (ckd_Expr d)); cbn;
      intros [= <- <-]. reflexivity.
Qed.


(** ** getTableCreateParams and startExec: the claims *)

Section ExecClaims.
Context {types : Types} {cat : Catalog} {planner : Planner}.

(** C10. When getTableCreateParams finds an object of the requested name
    (the lookup reports one and its descriptor can be read), it returns
    the table key, not nil, and the resolved schema ID, not zero values,
    together with the error made by MakeObjectAlreadyExistsError; and when
    that error is a relation-already-exists error and the statement has IF
    NOT EXISTS, startExec returns nil at once: the store is as before, and
    no name is resolved again. *)
Theorem getTableCreateParams_existing_object
    dbID persistence tableName tKey schemaID id desc :
  String.eqb (tn_Schema tableName) PublicSchema
  && PublicSchemaAliases (tn_Object tableName) = false ->
  createKeys dbID persistence tableName tKey schemaID ->
  canCreateOnSchema schemaID dbID = Ok tt ->
  LookupObjectID dbID schemaID (tn_Object tableName) = (true, id, None) ->
  GetAnyDescriptorByID id = Ok desc ->
  getTableCreateParams dbID persistence tableName
  = (Some tKey, schemaID,
     Err (MakeObjectAlreadyExistsError desc (tn_Object tableName)))
  /\ forall n s,
       n_dbID n = dbID -> n_Persistence n = persistence ->
       n_Table n = tableName -> n_IfNotExists n = true ->
       IsRelationAlreadyExistsError
         (MakeObjectAlreadyExistsError desc (tn_Object tableName)) = true ->
       startExec n s = (Ok tt, s).
Proof.
  intros Halias Hkeys Hcan Hlook Hdesc.
  assert (H : getTableCreateParams dbID persistence tableName
              = (Some tKey, schemaID,
                 Err (MakeObjectAlreadyExistsError desc (tn_Object tableName)))).
  { unfold getTableCreateParams, createKeys in *. rewrite Halias.
    destruct (IsTemporary persistence).
    - destruct Hkeys as (-> & -> & ->). cbn [negb rbind].
      rewrite Hcan, Hlook, Hdesc. reflexivity.
    - destruct Hkeys as (-> & ->). cbn [rbind].
      rewrite Hcan, Hlook, Hdesc. reflexivity. }
  split; [exact H|].
  intros n s <- <- <- Hif Hrel. unfold startExec. rewrite H, Hrel, Hif.
  reflexivity.
Qed.

End ExecClaims.

(** The statement of C10 on CREATE TABLE IF NOT EXISTS parent. *)
Lemma getTableCreateParams_existing_object_witness :
  getTableCreateParams (planner:=Ref.planner) 50 PersistencePermanent (Ref.tn "parent")
  = (Some (50, 29, "parent"%string), 29,
     Err (Newf pgcode.DuplicateRelation "relation %q already exists"))
  /\ forall s,
       startExec (planner:=Ref.planner)
         {| n_dbID := 50; n_Table := Ref.tn "parent"; n_IfNotExists := true;
            n_Persistence := PersistencePermanent;
            n_OnCommit := CreateTableOnCommitUnset;
            n_As := false; n_TxnImplicit := true |} s
       = (Ok tt, s).
Proof.
  destruct (getTableCreateParams_existing_object (planner:=Ref.planner)
              50 PersistencePermanent (Ref.tn "parent")
              (50, 29, "parent"%string) 29 52 52
              eq_refl (conj eq_refl eq_refl) eq_refl eq_refl eq_refl)
    as [H1 H2].
  split; [exact H1|].
  intros s. apply H2; reflexivity.
Defined.

(** ** startExec: the state of the new descriptor *)

Section ExecFacts.
Context {types : Types} {cat : Catalog} {planner : Planner}.

Lemma written_grows_refl s : written_grows s s.
Proof. intros e; auto. Qed.

Lemma written_grows_trans s1 s2 s3 :
  written_grows s1 s2 -> written_grows s2 s3 -> written_grows s1 s3.
Proof. intros H1 H2 e He. auto. Qed.

Lemma same_interleave_refl t : same_interleave t t.
Proof. split; auto. Qed.

Lemma same_interleave_trans t1 t2 t3 :
  same_interleave t1 t2 -> same_interleave t2 t3 -> same_interleave t1 t3.
Proof.
  intros [A1 B1] [A2 B2]. split; [congruence|]. intros sl.
  rewrite B2. apply B1.
Qed.

Lemma interleaved_set_State st t sl :
  interleaved (set_State st t) sl = interleaved t sl.
Proof. destruct sl; reflexivity. Qed.

Lemma update_index_same a f t :
  (forall i, idx_Interleave (f i) = idx_Interleave i) ->
  same_interleave t (update_index a f t).
Proof.
  intros Hf. split.
  { destruct a as [| j | j]; cbn; [reflexivity | |].
    - destruct (Indexes t !! j); reflexivity.
    - destruct (Mutations t !! j) as [m|]; [|reflexivity].
      destruct (GetIndex m); reflexivity. }
  intros sl. unfold interleaved.
  destruct a as [| j | j]; cbn [update_index].
  - destruct sl; cbn; [rewrite Hf|..]; reflexivity.
  - destruct (Indexes t !! j) as [idx|] eqn:Ej; [|reflexivity].
    destruct sl as [| i | i]; cbn; [reflexivity | | reflexivity].
    unfold index. destruct (decide (i = j)) as [-> | Hne].
    + rewrite list_lookup_insert_eq by (eapply lookup_lt_Some; eauto).
      rewrite Ej, Hf. reflexivity.
    + rewrite list_lookup_insert_ne by auto. reflexivity.
  - destruct (Mutations t !! j) as [m|] eqn:Ej; [|reflexivity].
    destruct (GetIndex m) as [idx|] eqn:Eg; [|reflexivity].
    destruct sl as [| i | i]; cbn; [reflexivity | reflexivity |].
    unfold index. destruct (decide (i = j)) as [-> | Hne].
    + rewrite list_lookup_insert_eq by (eapply lookup_lt_Some; eauto).
      rewrite Ej. cbn. rewrite Eg. unfold GetIndex. cbn. rewrite Hf. reflexivity.
    + rewrite list_lookup_insert_ne by auto. reflexivity.
Qed.

Lemma write_desc_ok kv p u s s' :
  write_desc kv p s = (Ok u, s') ->
  exists t, heap s !! p = Some t /\ heap s' = heap s
            /\ backrefs s' = backrefs s
            /\ written s' = written s ++ [(ID t, t)].
Proof.
  unfold write_desc. intros H.
  mstep H as t s0 Ht. apply load_ok in Ht as [Ht ->].
  mstep H as u1 s0 Hkv. apply lift_ok in Hkv as [_ ->].
  injection H as _ <-. exists t. auto.
Qed.

Lemma write_desc_grows kv p u s s' :
  write_desc kv p s = (Ok u, s') -> written_grows s s'.
Proof.
  intros H. apply write_desc_ok in H as (t & _ & _ & _ & Hw).
  intros e He. rewrite Hw. apply elem_of_app. auto.
Qed.

Lemma writeAffected_ok l u s s' :
  writeAffected l s = (Ok u, s') -> heap s' = heap s /\ written_grows s s'.
Proof.
  revert s. induction l as [|[id p] l IH]; intros s H; cbn in H.
  - apply mret_ok in H as [_ ->]. split; [reflexivity|apply written_grows_refl].
  - mstep H as u1 s1 H1. pose proof (write_desc_grows _ _ _ _ _ H1) as Hg.
    apply write_desc_ok in H1 as (t & _ & Hh & _).
    apply IH in H as [Hh' Hg']. split; [congruence|].
    eapply written_grows_trans; eauto.
Qed.

Lemma finalizeInterleave_ok p sl u s s' t :
  finalizeInterleave p sl s = (Ok u, s') ->
  heap s !! p = Some t ->
  exists t',
    heap s' !! p = Some t'
    /\ (forall sl', interleaved t' sl' = interleaved t sl')
    /\ State t' = (if interleaved t sl then published (State t) else State t)
    /\ written_grows s s'.
Proof.
  unfold finalizeInterleave. intros H Ht.
  mstep H as t0 s0 Ht0. apply load_ok in Ht0 as [Ht0 ->].
  rewrite Ht in Ht0. injection Ht0 as <-.
  mstep H as idx s0 Hidx. apply lift_ok in Hidx as [Hidx ->].
  assert (Hi : interleaved t sl = (0 <? length (idx_Interleave idx))%nat)
    by (unfold interleaved; rewrite Hidx; reflexivity).
  rewrite Hi. clear Hi.
  destruct (last (idx_Interleave idx)) as [ancestor|] eqn:El.
  2:{ apply mret_ok in H as [_ ->]. exists t.
      apply last_None in El. rewrite El. cbn.
      split; [exact Ht|]. split; [auto|]. split; [auto|apply written_grows_refl]. }
  assert (Hnz : (0 <? length (idx_Interleave idx))%nat = true).
  { destruct (idx_Interleave idx); [discriminate|reflexivity]. }
  rewrite Hnz.
  mstep H as q s0 Hq.
  assert (s0 = s) as ->.
  { destruct (anc_TableID ancestor =? ID t).
    - apply mret_ok in Hq as [_ ->]. reflexivity.
    - injection Hq as _ <-. reflexivity. }
  clear Hq.
  mstep H as a s0 Ha. apply load_ok in Ha as [Ha ->].
  mstep H as asl s0 Hasl. apply lift_ok in Hasl as [_ ->].
  mstep H as u1 s1 Hmod. apply modify_ok in Hmod as (a' & Ha' & ->).
  rewrite Ha in Ha'. injection Ha' as <-.
  mstep H as u2 s2 Hw1.
  pose proof (write_desc_grows _ _ _ _ _ Hw1) as Hg1.
  apply write_desc_ok in Hw1 as (_ & _ & Hh2 & _ & _). cbn in Hh2.
  mstep H as t1 s3 Ht1. apply load_ok in Ht1 as [Ht1 ->].
  assert (Hrel : same_interleave t t1).
  { rewrite Hh2 in Ht1. destruct (decide (q = p)) as [-> | Hne].
    - rewrite lookup_insert_eq in Ht1. injection Ht1 as <-.
      rewrite Ht in Ha. injection Ha as <-.
      apply update_index_same. reflexivity.
    - rewrite lookup_insert_ne in Ht1 by auto. rewrite Ht in Ht1.
      injection Ht1 as <-. apply same_interleave_refl. }
  destruct Hrel as [Hst Hint].
  assert (Hg1' : written_grows s s2) by exact Hg1.
  destruct (State t1) eqn:Est.
  - apply mret_ok in H as [_ ->]. exists t1. rewrite <- Hst.
    repeat split; auto.
  - mstep H as u3 s3 Hmod. apply modify_ok in Hmod as (t1' & Ht1' & ->).
    rewrite Ht1 in Ht1'. injection Ht1' as <-.
    pose proof (write_desc_grows _ _ _ _ _ H) as Hg2.
    apply write_desc_ok in H as (_ & _ & Hh3 & _ & _). cbn in Hh3.
    exists (set_State DescriptorState_PUBLIC t1).
    rewrite Hh3, lookup_insert_eq. split; [reflexivity|].
    split; [intros sl'; rewrite interleaved_set_State; apply Hint|].
    split; [rewrite <- Hst; reflexivity|].
    eapply written_grows_trans; eauto.
  - apply mret_ok in H as [_ ->]. exists t1. rewrite <- Hst.
    repeat split; auto.
  - apply mret_ok in H as [_ ->]. exists t1. rewrite <- Hst.
    repeat split; auto.
Qed.


Lemma existsb_pointwise {A} (f g : A -> bool) l :
  (forall x, f x = g x) -> existsb f l = existsb g l.
Proof. intros H. induction l as [|x l IH]; cbn; [|rewrite H, IH]; reflexivity. Qed.

Lemma published_idem st : published (published st) = published st.
Proof. destruct st; reflexivity. Qed.

Lemma finalizeInterleaves_ok p slots u s s' t :
  finalizeInterleaves p slots s = (Ok u, s') ->
  heap s !! p = Some t ->
  exists t',
    heap s' !! p = Some t'
    /\ State t' = (if existsb (interleaved t) slots
                   then published (State t) else State t)
    /\ written_grows s s'.
Proof.
  revert s t. induction slots as [|sl rest IH]; intros s t H Ht;
    cbn [finalizeInterleaves] in H.
  - apply mret_ok in H as [_ ->]. exists t. cbn.
    split; [exact Ht|]. split; [reflexivity|apply written_grows_refl].
  - mstep H as t0 s0 Ht0. apply load_ok in Ht0 as [Ht0 ->].
    rewrite Ht in Ht0. injection Ht0 as <-.
    mstep H as idx s0 Hidx. apply lift_ok in Hidx as [Hidx ->].
    assert (Hi : interleaved t sl = (0 <? length (idx_Interleave idx))%nat)
      by (unfold interleaved; rewrite Hidx; reflexivity).
    mstep H as u1 s1 Hfin.
    assert (exists t1,
      heap s1 !! p = Some t1
      /\ (forall sl', interleaved t1 sl' = interleaved t sl')
      /\ State t1 = (if interleaved t sl then published (State t) else State t)
      /\ written_grows s s1) as (t1 & Ht1 & Hint & Hst & Hg).
    { rewrite Hi. destruct (0 <? length (idx_Interleave idx))%nat eqn:E.
      - apply finalizeInterleave_ok with (t := t) in Hfin as (t1 & A & B & C & D);
          [|exact Ht].
        rewrite Hi in C. exists t1. auto.
      - apply mret_ok in Hfin as [_ ->]. exists t.
        split; [exact Ht|]. split; [auto|]. split; [auto|apply written_grows_refl]. }
    destruct (IH _ _ H Ht1) as (t' & Ht' & Hst' & Hg').
    exists t'. split; [exact Ht'|]. split.
    + rewrite Hst'. cbn [existsb].
      rewrite (existsb_pointwise _ _ rest Hint).
      rewrite Hst.
      destruct (interleaved t sl), (existsb (interleaved t) rest); cbn;
        rewrite ?published_idem; reflexivity.
    + eapply written_grows_trans; eauto.
Qed.

Lemma stateGate_ok p u s s' t :
  stateGate p s = (Ok u, s') ->
  heap s !! p = Some t ->
  if Adding t then
    exists refs,
      FindAllReferences t = Ok refs
      /\ s' = (if foundExternalReference s refs then s
               else with_heap (<[p := set_State DescriptorState_PUBLIC t]> (heap s)) s)
  else s' = s.
Proof.
  unfold stateGate. intros H Ht.
  mstep H as t0 s0 Ht0. apply load_ok in Ht0 as [Ht0 ->].
  rewrite Ht in Ht0. injection Ht0 as <-.
  destruct (Adding t).
  - mstep H as refs s0 Hrefs. apply lift_ok in Hrefs as [Hrefs ->].
    mstep H as found s0 Hf. injection Hf as <- <-.
    exists refs. split; [exact Hrefs|].
    destruct (foundExternalReference s refs); cbn [negb] in H.
    + apply mret_ok in H as [_ ->]. reflexivity.
    + apply modify_ok in H as (t' & Ht' & ->).
      rewrite Ht in Ht'. injection Ht' as <-. reflexivity.
  - apply mret_ok in H as [_ ->]. reflexivity.
Qed.


Lemma writeAffected_written l u s s' :
  writeAffected l s = (Ok u, s') ->
  heap s' = heap s /\ backrefs s' = backrefs s
  /\ exists wa,
       written s' = written s ++ wa
       /\ Forall2 (fun entry e => exists tq, heap s !! snd entry = Some tq
                                             /\ e = (ID tq, tq)) l wa.
Proof.
  revert s. induction l as [|[id q] l IH]; intros s H; cbn in H.
  - apply mret_ok in H as [_ ->]. split_and!; auto. exists [].
    rewrite app_nil_r. split; [reflexivity|constructor].
  - mstep H as u1 s1 H1.
    apply write_desc_ok in H1 as (tq & Htq & Hh & Hb & Hw).
    apply IH in H as (Hh' & Hb' & wa & Hw' & Hall).
    split; [congruence|]. split; [congruence|].
    exists ((ID tq, tq) :: wa). split.
    + rewrite Hw', Hw, <- app_assoc. reflexivity.
    + constructor; [cbn; eauto|].
      eapply Forall2_impl; [exact Hall|]. intros e1 e2 (tq' & A & B).
      exists tq'. rewrite <- Hh. auto.
Qed.

Lemma finalizeInterleave_appends p sl u s s' :
  finalizeInterleave p sl s = (Ok u, s') -> exists w, written s' = written s ++ w.
Proof.
  unfold finalizeInterleave. intros Hf.
  mstep Hf as t0 s0 Ht0. apply load_ok in Ht0 as [Ht0 ->].
  mstep Hf as idx0 s0 Hidx0. apply lift_ok in Hidx0 as [Hidx0 ->].
  destruct (last (idx_Interleave idx0)) as [anc|].
  2:{ apply mret_ok in Hf as [_ ->]. exists []. rewrite app_nil_r. reflexivity. }
  mstep Hf as q s0 Hq.
  assert (s0 = s) as ->.
  { destruct (anc_TableID anc =? ID t0).
    - apply mret_ok in Hq as [_ ->]. reflexivity.
    - injection Hq as _ <-. reflexivity. }
  mstep Hf as a s0 Ha. apply load_ok in Ha as [Ha ->].
  mstep Hf as asl s0 Hasl. apply lift_ok in Hasl as [_ ->].
  mstep Hf as u1 s1' Hmod. apply modify_ok in Hmod as (a' & Ha' & ->).
  mstep Hf as u2 s2 Hw1. apply write_desc_ok in Hw1 as (x & _ & _ & _ & Hw1).
  cbn in Hw1.
  mstep Hf as t1 s3 Ht1. apply load_ok in Ht1 as [Ht1 ->].
  destruct (State t1).
  - apply mret_ok in Hf as [_ ->]. eauto.
  - mstep Hf as u3 s3 Hmod. apply modify_ok in Hmod as (t1' & Ht1' & ->).
    apply write_desc_ok in Hf as (y & _ & _ & _ & Hw2). cbn in Hw2.
    eexists. rewrite Hw2, Hw1, <- app_assoc. reflexivity.
  - apply mret_ok in Hf as [_ ->]. eauto.
  - apply mret_ok in Hf as [_ ->]. eauto.
Qed.

Lemma finalizeInterleaves_appends p l u s s' :
  finalizeInterleaves p l s = (Ok u, s') -> exists w, written s' = written s ++ w.
Proof.
  revert s. induction l as [|sl l IH]; intros s H; cbn [finalizeInterleaves] in H.
  - apply mret_ok in H as [_ ->]. exists []. rewrite app_nil_r. reflexivity.
  - mstep H as t s0 Ht. apply load_ok in Ht as [Ht ->].
    mstep H as idx s0 Hidx. apply lift_ok in Hidx as [Hidx ->].
    mstep H as u1 s1 Hf.
    assert (exists w1, written s1 = written s ++ w1) as (w1 & Hw1).
    { destruct (0 <? length (idx_Interleave idx))%nat.
      - eapply finalizeInterleave_appends; eauto.
      - apply mret_ok in Hf as [_ ->]. exists []. rewrite app_nil_r. reflexivity. }
    apply IH in H as (w2 & Hw2). exists (w1 ++ w2).
    rewrite Hw2, Hw1, <- app_assoc. reflexivity.
Qed.

Lemma set_State_same t : set_State (State t) t = t.
Proof. destruct t; reflexivity. Qed.

Lemma foundExternalReference_spec s refs :
  foundExternalReference s refs = true <-> hasExternalReference s refs.
Proof.
  unfold foundExternalReference, hasExternalReference, externalReference.
  rewrite existsb_exists. split.
  - intros (id & Hin & Hid). exists id. split.
    + apply elem_of_elements, list_elem_of_In. exact Hin.
    + destruct (GetUncommittedTableByID s id) as [u|]; [|exact I].
      apply negb_true_iff. exact Hid.
  - intros (id & Hin & Hid). exists id. split.
    + apply list_elem_of_In, elem_of_elements. exact Hin.
    + destruct (GetUncommittedTableByID s id) as [u|]; [|reflexivity].
      apply negb_true_iff. exact Hid.
Qed.

Lemma hasInterleavedIndex_spec t :
  existsb (interleaved t) (AllNonDropIndexes t) = true <-> hasInterleavedIndex t.
Proof.
  unfold hasInterleavedIndex, interleaved. rewrite existsb_exists. split.
  - intros (sl & Hin & Hsl).
    destruct (get_index sl t) as [idx| |] eqn:E; try discriminate.
    exists sl, idx. split; [apply list_elem_of_In; exact Hin|].
    split; [exact E|]. destruct (idx_Interleave idx); [discriminate|].
    discriminate.
  - intros (sl & idx & Hin & Hidx & Hne). exists sl.
    split; [apply list_elem_of_In; exact Hin|]. rewrite Hidx.
    destruct (idx_Interleave idx); [contradiction|reflexivity].
Qed.

(** The run of a successful plain CREATE TABLE, as far as the state of the
    new descriptor goes. *)
Lemma startExec_gate_run n s s' :
  n_As n = false ->
  snd (getTableCreateParams (n_dbID n) (n_Persistence n) (n_Table n)) = Ok tt ->
  startExec n s = (Ok tt, s') ->
  exists schemaID id p s2 t2,
    newTableDesc n schemaID id
      {| heap := heap s; backrefs := ∅; written := written s |} = (Ok p, s2)
    /\ heap s2 !! p = Some t2
    /\ (Adding t2 = true ->
        exists refs t3 later t',
          FindAllReferences t2 = Ok refs
          /\ t3 = (if foundExternalReference s2 refs then t2
                   else set_State DescriptorState_PUBLIC t2)
          /\ written s' = written s2 ++ (ID t3, t3) :: later
          /\ heap s' !! p = Some t'
          /\ State t' =
             (if negb (foundExternalReference s2 refs)
                 || existsb (interleaved t3) (AllNonDropIndexes t3)
              then DescriptorState_PUBLIC else DescriptorState_ADD)).
Proof.
  intros Has Hparams H. unfold startExec in H.
  destruct (getTableCreateParams (n_dbID n) (n_Persistence n) (n_Table n))
    as [[tKey schemaID] r].
  cbn in Hparams. subst r.
  destruct tKey as [tKey|]; [|discriminate].
  mstep H as u1 s0 Hon.
  assert (s0 = s) as ->.
  { destruct (IsTemporary (n_Persistence n)), (n_OnCommit n);
      first [discriminate | apply mret_ok in Hon as [_ ->]; reflexivity]. }
  clear Hon u1.
  mstep H as id s0 Hid. injection Hid as _ <-.
  mstep H as u1 s1 Hclr. unfold clear_backrefs in Hclr. injection Hclr as Hclr.
  subst s1. rewrite Has in H. cbn [andb] in H.
  mstep H as p s3 Hdesc.
  mstep Hdesc as p' s2 Hnew. mstep Hdesc as u2 s3' Hgate.
  apply mret_ok in Hdesc as [-> ->].
  mstep H as u3 s4 Hcreate.
  mstep H as u4 s5 Hwa.
  mstep H as t5 s5' Ht5. apply load_ok in Ht5 as [Ht5 ->].
  mstep H as u5 s6 Hfin.
  mstep H as t6 s6' Ht6. apply load_ok in Ht6 as [Ht6 ->].
  mstep H as u6 s7 H6. apply lift_ok in H6 as [_ ->].
  mstep H as u7 s7 H7. apply lift_ok in H7 as [_ ->].
  mstep H as u8 s7 H8. apply lift_ok in H8 as [_ ->].
  apply mret_ok in H as [_ ->].
  (* the descriptor as written first *)
  apply write_desc_ok in Hcreate as (t3 & Ht3 & Hh4 & _ & Hw4).
  apply writeAffected_written in Hwa as (Hh5 & _ & wa & Hw5 & _).
  destruct (finalizeInterleaves_appends _ _ _ _ _ Hfin) as (w & Hw6).
  assert (Ht2 : exists t2, heap s2 !! p' = Some t2).
  { unfold stateGate in Hgate. mstep Hgate as t2 s2' Ht2.
    apply load_ok in Ht2 as [Ht2 _]. eauto. }
  destruct Ht2 as (t2 & Ht2).
  exists schemaID, id, p', s2, t2. split; [exact Hnew|]. split; [exact Ht2|].
  intros Hadd.
  pose proof (stateGate_ok _ _ _ _ _ Hgate Ht2) as Hg. rewrite Hadd in Hg.
  destruct Hg as (refs & Hrefs & Hs3).
  assert (Ht3' : t3 = (if foundExternalReference s2 refs then t2
                       else set_State DescriptorState_PUBLIC t2)).
  { destruct (foundExternalReference s2 refs); subst s3'.
    - rewrite Ht2 in Ht3. congruence.
    - cbn in Ht3. rewrite lookup_insert_eq in Ht3. congruence. }
  assert (Hw3 : written s3' = written s2).
  { destruct (foundExternalReference s2 refs); subst s3'; reflexivity. }
  assert (Ht5' : t5 = t3).
  { rewrite Hh5, Hh4, Ht3 in Ht5. congruence. }
  subst t5.
  destruct (finalizeInterleaves_ok _ _ _ _ _ _ Hfin Ht5) as (t' & Ht' & Hst' & _).
  exists refs, t3, (wa ++ w), t'. split; [exact Hrefs|]. split; [exact Ht3'|].
  split.
  { rewrite Hw6, Hw5, Hw4, Hw3, <- !app_assoc. reflexivity. }
  split; [exact Ht'|].
  rewrite Hst'.
  assert (Hst2 : State t2 = DescriptorState_ADD).
  { unfold Adding in Hadd. destruct (State t2); congruence. }
  rewrite Ht3'.
  destruct (foundExternalReference s2 refs); cbn [negb orb].
  - rewrite Hst2. destruct (existsb _ _); reflexivity.
  - cbn [State set_State published].
    repeat match goal with
           | |- context [if ?c then _ else _] => destruct c
           end; reflexivity.
Qed.


End ExecFacts.

(** ** startExec on the interleaved scenario *)



(** ** The scenarios, computed *)

(** A drop behaviour other than the default is refused before the prefix
    is looked at, with an error that is not InvalidSchemaDefinition. *)
Example addInterleave_unsupported_shorthand :
  addInterleave (cat:=Ref.cat) Ref.vt Ref.orders (PrimaryIndex Ref.orders)
    {| ild_Parent := Ref.tn "customers"; ild_Fields := ["customer"%string];
       ild_DropBehavior := DropCascade |}
  = Err (NewWithIssue 7854 "unsupported shorthand %s").
Proof. reflexivity. Qed.

(** Below NoOriginFKIndexes the child gets the automatic index on [a]; at
    or above it, none. *)
Example resolve_child_auto_index :
  @Indexes Ref.types <$> heap (snd (Ref.resolve_child Ref.child ["a"%string] NoAction
                           ValidationDefault Ref.evalCtx_old)) !! 0%nat
  = Some [{| idx_ID := 2;
             idx_Name := "child_auto_index_fk_a_ref_parent";
             idx_Unique := false;
             idx_ColumnNames := ["a"%string];
             idx_ColumnDirections := [IndexDescriptor_ASC];
             idx_ColumnIDs := [1];
             idx_Interleave := [];
             idx_InterleavedBy := [];
             idx_Version := 0;
             idx_StoreColumnNames := []; idx_Type := IndexDescriptor_FORWARD;
             idx_GeoConfig := GeoConfig_zero;
             idx_Partitioning := PartitioningDescriptor_zero;
             idx_Predicate := EmptyString;
             idx_Sharded := ShardedDescriptor_zero |}].
Proof. vm_compute. reflexivity. Qed.

Example resolve_child_no_index :
  @Indexes Ref.types <$> heap (snd (Ref.resolve_child Ref.child ["a"%string] NoAction
                           ValidationDefault Ref.evalCtx_new)) !! 0%nat
  = Some [].
Proof. vm_compute. reflexivity. Qed.

(** On an existing table the constraint is queued as a mutation, after the
    mutation of its automatic index, and its validity follows the
    validation behaviour. *)
Example alter_child_mutations :
  fst (Ref.alter_child ValidationDefault) = Ok tt
  /\ (map (fun m => match Descriptor_ m with
                    | DescriptorMutation_Constraint fk => Some (Validity fk)
                    | _ => None
                    end)
       <$> (@Mutations Ref.types <$> heap (snd (Ref.alter_child ValidationDefault)) !! 0%nat))
     = Some [None; Some ConstraintValidity_Validating]
  /\ (map (fun m => match Descriptor_ m with
                    | DescriptorMutation_Constraint fk => Some (Validity fk)
                    | _ => None
                    end)
       <$> (@Mutations Ref.types <$> heap (snd (Ref.alter_child ValidationSkip)) !! 0%nat))
     = Some [None; Some ConstraintValidity_Unvalidated]
  /\ (@OutboundFKs Ref.types <$> heap (snd (Ref.alter_child ValidationDefault)) !! 0%nat)
     = Some [].
Proof. repeat split; vm_compute; reflexivity. Qed.

(** The hash-sharded table as NewTableDesc builds it: two columns, the
    first the hidden shard column, and one hidden check. *)
Example new_t_descriptor :
  fst Ref.new_t = Ok 2%nat
  /\ (map (fun c => (col_Name c, col_Type c, col_Hidden c, col_Nullable c,
                     col_ComputeExpr c))
       <$> (@Columns Ref.types <$> heap (snd Ref.new_t) !! 2%nat))
     = Some [("crdb_internal_a_shard_4"%string, Ref.INT4, true, false,
              Some "mod(fnv32(COALESCE(a::STRING, '':::STRING)), 4:::INT8)"%string);
             ("a"%string, Ref.INT8, false, false, None)]
  /\ (@Checks Ref.types <$> heap (snd Ref.new_t) !! 2%nat)
     = Some [{| ck_Name := "check";
                ck_Expr := "crdb_internal_a_shard_4 IN (0, 1, 2, 3)";
                ck_Hidden := true |}].
Proof. repeat split; vm_compute; reflexivity. Qed.

(** * Further properties of the source

    Properties of the functions of create_table.go beyond the claims of the
    specification: the checks of ResolveFK and their errors, the passes of
    NewTableDesc, the hash-shard helpers, finalizeInterleave and the writes
    of startExec. *)

(** ** ResolveFK: the origin columns and the checks on the target *)

Section ForeignKeyChecks.
Context {types : Types} {cat : Catalog}.

Lemma resolveOriginCols_sound t names set acc cols :
  resolveOriginCols t names set acc = Ok cols ->
  exists new,
    cols = acc ++ new
    /\ Forall2 (originColumn t) names new
    /\ NoDup (map col_ID new)
    /\ (forall c, c ∈ new -> col_ID c ∉ set).
Proof.
  revert set acc. induction names as [|n names IH]; intros set acc H; cbn in H.
  - injection H as <-. exists []. rewrite app_nil_r.
    split; [reflexivity|]. split; [constructor|]. split; [constructor|].
    intros c Hc. apply elem_of_nil in Hc. contradiction.
  - destruct (FindActiveOrNewColumnByName t n) as [c | |] eqn:Ec; try discriminate.
    cbn [rbind] in H.
    destruct (CheckCanBeFKRef c) as [[] | |] eqn:Ek; try discriminate.
    cbn [rbind] in H.
    destruct (bool_decide (col_ID c ∈ set)) eqn:Eb; [discriminate|].
    apply bool_decide_eq_false in Eb.
    apply IH in H as (new & -> & Hall & Hnd & Hset).
    exists (c :: new). rewrite <- app_assoc. split; [reflexivity|].
    split; [constructor; [split; assumption|assumption]|].
    split.
    + cbn. constructor; [|exact Hnd].
      intros Hin. apply list_elem_of_fmap in Hin as (c' & Hid & Hc').
      apply (Hset c' Hc'). rewrite <- Hid. set_solver.
    + intros c' Hc'. apply elem_of_cons in Hc' as [-> | Hc']; [exact Eb|].
      specialize (Hset c' Hc'). set_solver.
Qed.

Lemma resolveOriginCols_complete t names set acc new :
  Forall2 (originColumn t) names new ->
  NoDup (map col_ID new) ->
  (forall c, c ∈ new -> col_ID c ∉ set) ->
  resolveOriginCols t names set acc = Ok (acc ++ new).
Proof.
  intros Hall. revert set acc.
  induction Hall as [|n c names new [Hf Hk] Hall IH]; intros set acc Hnd Hset; cbn.
  - rewrite app_nil_r. reflexivity.
  - rewrite Hf. cbn [rbind]. rewrite Hk. cbn [rbind].
    rewrite bool_decide_eq_false_2 by (apply Hset; left).
    cbn in Hnd. apply NoDup_cons in Hnd as [Hnotin Hnd].
    rewrite IH; [rewrite <- app_assoc; reflexivity | exact Hnd |].
    intros c' Hc'. intros Hin. apply elem_of_union in Hin as [Hin | Hin].
    + apply elem_of_singleton in Hin. apply Hnotin. rewrite <- Hin.
      apply list_elem_of_fmap. eauto.
    + apply (Hset c'); [right; exact Hc'|exact Hin].
Qed.

Lemma resolveOriginCols_duplicate t names set acc new :
  Forall2 (originColumn t) names new ->
  ~ (NoDup (map col_ID new) /\ forall c, c ∈ new -> col_ID c ∉ set) ->
  resolveOriginCols t names set acc
  = Err (Newf pgcode.InvalidForeignKey "foreign key contains duplicate column %q").
Proof.
  intros Hall. revert set acc.
  induction Hall as [|n c names new [Hf Hk] Hall IH]; intros set acc Hbad; cbn.
  - exfalso. apply Hbad. split; [constructor|]. intros c Hc.
    apply elem_of_nil in Hc. contradiction.
  - rewrite Hf. cbn [rbind]. rewrite Hk. cbn [rbind].
    destruct (bool_decide (col_ID c ∈ set)) eqn:Eb; [reflexivity|].
    apply bool_decide_eq_false in Eb.
    apply IH. intros [Hnd Hset]. apply Hbad. split.
    + cbn. constructor; [|exact Hnd].
      intros Hin. apply list_elem_of_fmap in Hin as (c' & Hid & Hc').
      apply (Hset c' Hc'). rewrite <- Hid. set_solver.
    + intros c' Hc'. apply elem_of_cons in Hc' as [-> | Hc']; [exact Eb|].
      specialize (Hset c' Hc'). set_solver.
Qed.

(** X1. The loop over [d.FromCols] returns the origin columns
    exactly when every name resolves to a column that may be the origin of
    a foreign key and no two of the resolved columns have the same ID; the
    result is then the resolved columns in the order of the names. If the
    names resolve but two columns have the same ID, the error is
    InvalidForeignKey, "foreign key contains duplicate column". *)
Theorem resolveOriginCols_no_duplicates t names cols :
  (resolveOriginCols t names ∅ [] = Ok cols
   <-> Forall2 (originColumn t) names cols /\ NoDup (map col_ID cols))
  /\ (Forall2 (originColumn t) names cols -> ~ NoDup (map col_ID cols) ->
      resolveOriginCols t names ∅ []
      = Err (Newf pgcode.InvalidForeignKey
               "foreign key contains duplicate column %q")).
Proof.
  split; [split|].
  - intros H. apply resolveOriginCols_sound in H as (new & -> & Hall & Hnd & _).
    auto.
  - intros [Hall Hnd].
    apply (resolveOriginCols_complete t names ∅ [] cols Hall Hnd).
    intros c _. set_solver.
  - intros Hall Hnd. apply (resolveOriginCols_duplicate t names ∅ [] cols Hall).
    intros [Hnd' _]. contradiction.
Qed.

Lemma checkColumnTypes_ok oc rc :
  length rc = length oc ->
  checkColumnTypes oc rc = Ok tt -> Forall2 equivalentTypes oc rc.
Proof.
  revert rc. induction oc as [|o oc IH]; intros [|r rc] Hlen H; try discriminate.
  - constructor.
  - cbn in H. destruct (Equivalent (col_Type o) (col_Type r)) eqn:E; [|discriminate].
    cbn in H. constructor; [exact E|]. apply IH; [cbn in Hlen; lia|exact H].
Qed.

Lemma checkColumnTypes_mismatch oc rc :
  length rc = length oc ->
  ~ Forall2 equivalentTypes oc rc ->
  checkColumnTypes oc rc
  = Err (Newf pgcode.DatatypeMismatch
           "type of %q (%s) does not match foreign key %q.%q (%s)").
Proof.
  revert rc. induction oc as [|o oc IH]; intros [|r rc] Hlen H; try discriminate.
  - exfalso. apply H. constructor.
  - cbn. destruct (Equivalent (col_Type o) (col_Type r)) eqn:E; [|reflexivity].
    cbn. apply IH; [cbn in Hlen; lia|]. intros Hall. apply H.
    constructor; [exact E|exact Hall].
Qed.

Lemma checkColumnTypes_complete oc rc :
  Forall2 equivalentTypes oc rc -> checkColumnTypes oc rc = Ok tt.
Proof.
  induction 1 as [|o r oc rc E _ IH]; cbn; [reflexivity|].
  unfold equivalentTypes in E. rewrite E. cbn. exact IH.
Qed.

Lemma resolveReferenced_ok tbl target d oc s rc cn s1 :
  resolveReferenced tbl target d oc s = (Ok (rc, cn), s1) ->
  exists tg t ci,
    heap s !! target = Some tg
    /\ heap s !! tbl = Some t
    /\ FindActiveColumnsByNames tg (referencedColNames tg d) = Ok rc
    /\ length rc = length oc
    /\ Forall2 equivalentTypes oc rc
    /\ GetConstraintInfo t = Ok ci
    /\ (if String.eqb (fkd_Name d) EmptyString
        then exists c0, fkd_FromCols d !! 0%nat = Some c0
               /\ cn = GenerateUniqueConstraintName
                         ("fk_" +:+ c0 +:+ "_ref_" +:+ Name tg)
                         (fun p => bool_decide (p ∈ ci))
        else cn = fkd_Name d /\ cn ∉ ci).
Proof.
  unfold resolveReferenced. intros H.
  mstep H as tg s0 Htg. apply load_ok in Htg as [Htg ->].
  mstep H as rc0 s0 Hrc. apply lift_ok in Hrc as [Hrc ->].
  mstep H as u1 s0 Hlen.
  destruct (length rc0 =? length oc)%nat eqn:El; cbn [negb] in Hlen; [|discriminate].
  apply mret_ok in Hlen as [_ ->]. apply Nat.eqb_eq in El.
  mstep H as u2 s0 Hty. apply lift_ok in Hty as [Hty ->]. destruct u2.
  mstep H as t s0 Ht. apply load_ok in Ht as [Ht ->].
  mstep H as ci s0 Hci. apply lift_ok in Hci as [Hci ->].
  mstep H as cn0 s0 Hcn.
  apply mret_ok in H as [[= <- <-] ->].
  exists tg, t, ci. do 4 (split; [solve [auto]|]).
  split; [apply checkColumnTypes_ok; assumption|]. split; [exact Hci|].
  destruct (String.eqb (fkd_Name d) EmptyString).
  - mstep Hcn as c0 s1 Hc0. apply lift_ok in Hc0 as [Hc0 ->].
    apply mret_ok in Hcn as [-> _]. exists c0. split; [|reflexivity].
    unfold index in Hc0. destruct (fkd_FromCols d !! 0%nat); congruence.
  - destruct (bool_decide (fkd_Name d ∈ ci)) eqn:Eb; [discriminate|].
    apply mret_ok in Hcn as [-> _]. apply bool_decide_eq_false in Eb. auto.
Qed.

Lemma ResolveFK_parts sc tbl d ts vb ec s u s' :
  ResolveFK sc tbl d ts vb ec s = (Ok u, s') ->
  exists oc target rc cn s1 s2 t2 tg2,
    resolveTarget sc tbl d ts ec s = (Ok (oc, target), s1)
    /\ resolveReferenced tbl target d oc s1 = (Ok (rc, cn), s1)
    /\ checkActions d oc = Ok tt
    /\ ensureOriginIndex tbl ts ec oc cn s1 = (Ok tt, s2)
    /\ heap s2 !! tbl = Some t2
    /\ heap s2 !! target = Some tg2
    /\ recorded (makeRef t2 tg2 d ts vb oc rc cn) tbl ts s'.
Proof.
  intros H.
  apply ResolveFK_inv in H as (oc & target & rc & cn & s1 & s2 & H1 & H2 & H3 & H4 & H5).
  apply addConstraint_ok in H5 as (t2 & tg2 & Ht2 & Htg2 & _ & Hfin).
  exists oc, target, rc, cn, s1, s2, t2, tg2.
  do 6 (split; [assumption|]).
  cbn zeta in Hfin. unfold recorded.
  destruct ts; cbn [FKTableState_eqb] in Hfin.
  - destruct Hfin as (tg1 & Htg1 & ->). cbn [heap with_heap].
    destruct (decide (target = tbl)) as [-> | Hne].
    + rewrite lookup_insert_eq in Htg1. injection Htg1 as <-.
      eexists. rewrite lookup_insert_eq. split; [reflexivity|].
      cbn. apply last_snoc.
    + eexists. rewrite lookup_insert_ne by auto. rewrite lookup_insert_eq.
      split; [reflexivity|]. cbn. apply last_snoc.
  - subst s'. cbn. exists t2. apply lookup_insert_eq.
  - subst s'. cbn. exists t2. apply lookup_insert_eq.
Qed.

(** X2. The constraint that a successful ResolveFK records has one origin
    column ID for each name of [d.FromCols], in order and without
    duplicates; its referenced column IDs are those of the columns that
    FindActiveColumnsByNames finds in the target table under the names of
    [d.ToCols] (of the primary index of the target, if there is none), as
    many as origin columns; the types of the origin columns and of these
    columns of the target are pairwise equivalent; and a name given in the
    definition is the name of the constraint. *)
Theorem ResolveFK_constraint_shape sc tbl d ts vb ec s s' t :
  ResolveFK sc tbl d ts vb ec s = (Ok tt, s') ->
  heap s !! tbl = Some t ->
  constraint_shape sc d tbl ts ec t s s'.
Proof.
  unfold constraint_shape.
  intros H Ht.
  apply ResolveFK_parts in H
    as (oc & target & rc & cn & s1 & s2 & t2 & tg2 & H1 & H2 & _ & _ & _ & _ & Hrec).
  pose proof H1 as H1'.
  apply resolveTarget_ok in H1' as (t0 & _ & _ & Ht0 & Hoc & _).
  rewrite Ht in Ht0. injection Ht0 as <-.
  apply resolveOriginCols_sound in Hoc as (new & Hnew & Hall & Hnd & _).
  cbn in Hnew. subst new.
  apply resolveReferenced_ok in H2
    as (tg & t1 & ci & Htg & _ & Hrc & Hlen & Hty & _ & Hname).
  exists (makeRef t2 tg2 d ts vb oc rc cn), oc, rc, target, s1, tg.
  split; [exact Hrec|]. split; [exact H1|]. split; [exact Htg|].
  split; [exact Hrc|]. split; [exact Hall|]. cbn.
  split; [reflexivity|]. split; [reflexivity|]. split; [exact Hnd|].
  split; [rewrite length_map; symmetry; eapply Forall2_length; eauto|].
  split; [rewrite !length_map; exact Hlen|]. split; [exact Hty|].
  intros Hn. apply String.eqb_neq in Hn. rewrite Hn in Hname. tauto.
Qed.

(** X3. A reference to a table of another database, unless the cluster
    setting allows it, is refused with InvalidForeignKey, and a reference
    between a temporary and a permanent table with InvalidTableDefinition
    (the first of the two when both apply); in both cases the store is
    exactly as before: the origin is not put in the ADD state and the
    target is not entered in [backrefs]. *)
Theorem ResolveFK_rejects_other_database sc tbl d ts vb ec s t oc p0 tg st :
  heap s !! tbl = Some t ->
  resolveOriginCols t (fkd_FromCols d) ∅ [] = Ok oc ->
  sc (fkd_Table d) = Ok p0 ->
  heap s !! p0 = Some tg ->
  ec_Settings ec = Some st ->
  (ParentID tg <> ParentID t /\ allowCrossDatabaseFKs st = false)
  \/ Temporary tg <> Temporary t ->
  exists e,
    ResolveFK sc tbl d ts vb ec s = (Err e, s)
    /\ GetPGCode e =
       (if negb (ParentID tg =? ParentID t) && negb (allowCrossDatabaseFKs st)
        then pgcode.InvalidForeignKey else pgcode.InvalidTableDefinition).
Proof.
  intros Ht Hoc Hsc Htg Hst Hbad.
  unfold ResolveFK, resolveTarget.
  unfold mbind' at 1. unfold mbind' at 1. rewrite (load_run _ _ _ Ht).
  unfold mbind' at 1. unfold lift at 1. rewrite Hoc.
  unfold mbind' at 1. unfold lift at 1. rewrite Hsc.
  unfold mbind' at 1. rewrite (load_run _ _ _ Htg).
  rewrite Hst.
  destruct (ParentID tg =? ParentID t) eqn:Ep; cbn [negb andb].
  - destruct Hbad as [[Hp _] | Htmp];
      [apply Z.eqb_eq in Ep; contradiction|].
    unfold mbind' at 1. cbn [mret].
    destruct (eqb (Temporary t) (Temporary tg)) eqn:Et.
    { apply eqb_prop in Et. congruence. }
    cbn [negb]. eexists. split; [reflexivity|]. reflexivity.
  - destruct (allowCrossDatabaseFKs st) eqn:Ea; cbn [negb].
    + destruct Hbad as [[_ Hp] | Htmp]; [discriminate|].
      unfold mbind' at 1. cbn [mret].
      destruct (eqb (Temporary t) (Temporary tg)) eqn:Et.
      { apply eqb_prop in Et. congruence. }
      cbn [negb]. eexists. split; [reflexivity|]. reflexivity.
    + eexists. split; [reflexivity|]. reflexivity.
Qed.

(** X4. When the target is resolved and its referenced columns are found,
    ResolveFK fails with Syntax if their number differs from the number of
    origin columns, and with DatatypeMismatch if the numbers agree but the
    types of some pair are not equivalent; no constraint is added: the
    store is as resolveTarget left it, that is as before except that the
    origin may be in the ADD state. *)
Theorem ResolveFK_arity_and_types sc tbl d ts vb ec s oc target s1 tg rc :
  resolveTarget sc tbl d ts ec s = (Ok (oc, target), s1) ->
  heap s1 !! target = Some tg ->
  FindActiveColumnsByNames tg (referencedColNames tg d) = Ok rc ->
  ~ (length rc = length oc /\ Forall2 equivalentTypes oc rc) ->
  ResolveFK sc tbl d ts vb ec s
  = (Err (if (length rc =? length oc)%nat
          then Newf pgcode.DatatypeMismatch
                 "type of %q (%s) does not match foreign key %q.%q (%s)"
          else Newf pgcode.Syntax
                 "%d columns must reference exactly %d columns in referenced table (found %d)"),
     s1)
  /\ only_state_added tbl s s1.
Proof.
  intros H1 Htg Hrc Hbad.
  split; [|eapply resolveTarget_frame; eauto].
  unfold ResolveFK. unfold mbind' at 1. rewrite H1.
  unfold resolveReferenced.
  unfold mbind' at 1. unfold mbind' at 1. rewrite (load_run _ _ _ Htg).
  fold (referencedColNames tg d). unfold mbind' at 1. unfold lift at 1. rewrite Hrc.
  destruct (length rc =? length oc)%nat eqn:El; cbn [negb].
  - apply Nat.eqb_eq in El.
    unfold mbind' at 1. cbn [mret]. unfold mbind' at 1. unfold lift at 1.
    rewrite checkColumnTypes_mismatch; [reflexivity | exact El | tauto].
  - reflexivity.
Qed.

(** X5. A constraint name given in the definition that is already among the
    constraints of the origin table is refused with DuplicateObject,
    after the arity and type checks have passed and before anything is
    added. *)
Theorem ResolveFK_duplicate_constraint_name
    sc tbl d ts vb ec s oc target s1 tg t1 rc ci :
  resolveTarget sc tbl d ts ec s = (Ok (oc, target), s1) ->
  heap s1 !! target = Some tg ->
  heap s1 !! tbl = Some t1 ->
  FindActiveColumnsByNames tg (referencedColNames tg d) = Ok rc ->
  length rc = length oc ->
  Forall2 equivalentTypes oc rc ->
  GetConstraintInfo t1 = Ok ci ->
  fkd_Name d <> EmptyString ->
  fkd_Name d ∈ ci ->
  ResolveFK sc tbl d ts vb ec s
  = (Err (Newf pgcode.DuplicateObject "duplicate constraint name: %q"), s1)
  /\ only_state_added tbl s s1.
Proof.
  intros H1 Htg Ht1 Hrc Hlen Hty Hci Hname Hin.
  split; [|eapply resolveTarget_frame; eauto].
  unfold ResolveFK. unfold mbind' at 1. rewrite H1.
  unfold resolveReferenced.
  unfold mbind' at 1. unfold mbind' at 1. rewrite (load_run _ _ _ Htg).
  fold (referencedColNames tg d). unfold mbind' at 1. unfold lift at 1. rewrite Hrc.
  apply Nat.eqb_eq in Hlen. rewrite Hlen. cbn [negb].
  unfold mbind' at 1. cbn [mret]. unfold mbind' at 1. unfold lift at 1.
  rewrite (checkColumnTypes_complete _ _ Hty).
  unfold mbind' at 1. rewrite (load_run _ _ _ Ht1).
  unfold mbind' at 1. unfold lift at 1. rewrite Hci.
  apply String.eqb_neq in Hname. rewrite Hname.
  rewrite bool_decide_eq_true_2 by exact Hin.
  reflexivity.
Qed.

(** *** Existing tables *)

Lemma keeps_heap_stateless {A} (m : M A) : stateless m -> keeps_heap m.
Proof. intros Hm s r s' H. apply Hm in H as ->. auto. Qed.

Lemma keeps_heap_bind {A B} (m : M A) (k : A -> M B) :
  keeps_heap m -> (forall a, keeps_heap (k a)) -> keeps_heap (mbind' m k).
Proof.
  intros Hm Hk s r s'. unfold mbind'.
  destruct (m s) as [[a | e |] s1] eqn:E; intros H.
  - apply Hm in E as [E1 E2]. apply Hk in H as [H1 H2]. split; congruence.
  - injection H as _ <-. eapply Hm; eauto.
  - injection H as _ <-. eapply Hm; eauto.
Qed.

Lemma keeps_heap_insert_backref id p : keeps_heap (insert_backref id p).
Proof. intros s r s'. unfold insert_backref. intros [= _ <-]. auto. Qed.

Lemma keeps_heap_lookup_backref id : keeps_heap (lookup_backref id).
Proof. intros s r s'. unfold lookup_backref. intros [= _ <-]. auto. Qed.

Ltac keeps_heap_tac :=
  repeat first
    [ apply keeps_heap_insert_backref | apply keeps_heap_lookup_backref
    | apply keeps_heap_stateless;
      first [ apply stateless_load | apply stateless_lift | apply stateless_mret
            | apply stateless_fail ]
    | apply keeps_heap_bind; [|intros ?]
    | match goal with
      | |- keeps_heap (if ?c then _ else _) => destruct c
      | |- keeps_heap (match ?c with _ => _ end) => destruct c
      end ].

Lemma resolveTarget_existing_table sc tbl d ts ec :
  ts <> NewTable -> keeps_heap (resolveTarget sc tbl d ts ec).
Proof.
  intros Hts. unfold resolveTarget.
  assert (E : FKTableState_eqb ts NewTable = false) by (destruct ts; cbn; congruence).
  rewrite E. keeps_heap_tac.
Qed.

Lemma ensureOriginIndex_nonempty tbl ec oc cn :
  stateless (ensureOriginIndex tbl NonEmptyTable ec oc cn).
Proof.
  unfold ensureOriginIndex. cbn [FKTableState_eqb].
  repeat first
    [ apply stateless_load | apply stateless_lift | apply stateless_mret
    | apply stateless_fail
    | apply stateless_bind; [|intros ?]
    | match goal with
      | |- stateless (if ?c then _ else _) => destruct c
      | |- stateless (match ?c with _ => _ end) => destruct c
      end ].
Qed.

Lemma ensureOriginIndex_nonempty_ok tbl ec oc cn s u s2 t :
  ensureOriginIndex tbl NonEmptyTable ec oc cn s = (Ok u, s2) ->
  heap s !! tbl = Some t ->
  needsAutoIndex ec t oc = false.
Proof.
  intros H Ht. pose proof (ensureOriginIndex_ok _ _ _ _ _ _ _ _ _ H Ht) as Hx.
  destruct (needsAutoIndex ec t oc); [|reflexivity].
  destruct Hx as [Hx _]. contradiction.
Qed.

Lemma addConstraint_existing_fails tbl target d ts vb oc rc cn s r s' :
  ts <> NewTable ->
  addConstraint tbl target d ts vb oc rc cn s = (r, s') ->
  isOk r = false -> s' = s.
Proof.
  intros Hts H Hr. unfold addConstraint in H.
  assert (E : FKTableState_eqb ts NewTable = false) by (destruct ts; cbn; congruence).
  rewrite E in H.
  apply mbind_inv in H as [(tg & s0 & Htg & H) | (_ & r0 & H & _)];
    [|eapply stateless_load; eauto].
  apply load_ok in Htg as [Htg ->].
  apply mbind_inv in H as [(i & s0 & Hi & H) | (_ & r0 & H & _)];
    [|eapply stateless_lift; eauto].
  apply lift_ok in Hi as [Hi ->].
  apply mbind_inv in H as [(t & s0 & Ht & H) | (_ & r0 & H & _)];
    [|eapply stateless_load; eauto].
  apply load_ok in Ht as [Ht ->].
  rewrite (modify_run _ _ _ _ Ht) in H. injection H as <- _. discriminate.
Qed.

(** X6. On a non-empty existing table ResolveFK never adds an index. Whatever
    it returns, nothing is written; when it fails, every descriptor is as
    before; when it succeeds, the origin is the descriptor as it was with
    the one constraint queued by AddForeignKeyMutation, and either the
    cluster no longer requires origin indexes or FindFKOriginIndexInTxn
    found one. *)
Theorem ResolveFK_nonempty_table_adds_no_index sc tbl d vb ec s r s' t :
  ResolveFK sc tbl d NonEmptyTable vb ec s = (r, s') ->
  heap s !! tbl = Some t ->
  nonempty_table_outcome d tbl ec t s r s'.
Proof.
  unfold nonempty_table_outcome.
  intros H Ht.
  assert (Hts : NonEmptyTable <> NewTable) by discriminate.
  destruct r as [u | e |].
  - apply ResolveFK_inv in H
      as (oc & target & rc & cn & s1 & s2 & H1 & H2 & H3 & H4 & H5).
    pose proof (resolveTarget_existing_table sc tbl d _ ec Hts _ _ _ H1) as [Hh1 Hw1].
    pose proof (ensureOriginIndex_nonempty _ _ _ _ _ _ _ H4) as ->.
    assert (Ht1 : heap s1 !! tbl = Some t) by (rewrite Hh1; exact Ht).
    pose proof (ensureOriginIndex_nonempty_ok _ _ _ _ _ _ _ _ H4 Ht1) as Hni.
    apply resolveTarget_ok in H1 as (t0 & _ & _ & Ht0 & Hoc & _).
    rewrite Ht in Ht0. injection Ht0 as <-.
    apply addConstraint_ok in H5 as (t2 & tg2 & Ht2 & _ & _ & Hfin).
    rewrite Ht1 in Ht2. injection Ht2 as <-.
    cbn in Hfin. subst s'. cbn. split; [exact Hw1|].
    eexists _, oc. split; [exact Hoc|]. split; [exact Hni|].
    rewrite Hh1. reflexivity.
  - unfold ResolveFK in H.
    apply mbind_inv in H as [([oc target] & s1 & H1 & H) | (_ & r0 & H & _)];
      [|destruct (resolveTarget_existing_table sc tbl d _ ec Hts _ _ _ H); auto].
    destruct (resolveTarget_existing_table sc tbl d _ ec Hts _ _ _ H1) as [Hh1 Hw1].
    apply mbind_inv in H as [([rc cn] & s2 & H2 & H) | (_ & r0 & H & _)];
      [|apply resolveReferenced_stateless in H as ->; auto].
    apply resolveReferenced_stateless in H2 as ->.
    apply mbind_inv in H as [(u & s2 & H3 & H) | (_ & r0 & H & _)];
      [|apply stateless_lift in H as ->; auto].
    apply stateless_lift in H3 as ->.
    apply mbind_inv in H as [(u' & s2 & H4 & H) | (_ & r0 & H & _)];
      [|apply ensureOriginIndex_nonempty in H as ->; auto].
    apply ensureOriginIndex_nonempty in H4 as ->.
    apply addConstraint_existing_fails in H as ->; auto.
  - unfold ResolveFK in H.
    apply mbind_inv in H as [([oc target] & s1 & H1 & H) | (_ & r0 & H & _)];
      [|destruct (resolveTarget_existing_table sc tbl d _ ec Hts _ _ _ H); auto].
    destruct (resolveTarget_existing_table sc tbl d _ ec Hts _ _ _ H1) as [Hh1 Hw1].
    apply mbind_inv in H as [([rc cn] & s2 & H2 & H) | (_ & r0 & H & _)];
      [|apply resolveReferenced_stateless in H as ->; auto].
    apply resolveReferenced_stateless in H2 as ->.
    apply mbind_inv in H as [(u & s2 & H3 & H) | (_ & r0 & H & _)];
      [|apply stateless_lift in H as ->; auto].
    apply stateless_lift in H3 as ->.
    apply mbind_inv in H as [(u' & s2 & H4 & H) | (_ & r0 & H & _)];
      [|apply ensureOriginIndex_nonempty in H as ->; auto].
    apply ensureOriginIndex_nonempty in H4 as ->.
    apply addConstraint_existing_fails in H as ->; auto.
Qed.

(** X7. On a non-empty existing table, below NoOriginFKIndexes, when the
    earlier checks pass and FindFKOriginIndexInTxn finds no index on the
    origin columns, ResolveFK fails with ForeignKeyViolation, "foreign key
    requires an existing index on columns", and no descriptor has
    changed. *)
Theorem ResolveFK_nonempty_table_requires_index
    sc tbl d vb ec s oc target s1 rc cn t1 e0 :
  resolveTarget sc tbl d NonEmptyTable ec s = (Ok (oc, target), s1) ->
  resolveReferenced tbl target d oc s1 = (Ok (rc, cn), s1) ->
  checkActions d oc = Ok tt ->
  heap s1 !! tbl = Some t1 ->
  originIndexRequired ec = true ->
  FindFKOriginIndexInTxn t1 (map col_ID oc) = Err e0 ->
  originColumnNames t1 (map col_ID oc) = Ok tt ->
  ResolveFK sc tbl d NonEmptyTable vb ec s
  = (Err (Newf pgcode.ForeignKeyViolation
            "foreign key requires an existing index on columns %s"), s1)
  /\ heap s1 = heap s.
Proof.
  intros H1 H2 H3 Ht1 Hreq Hfind Hnames.
  split.
  2:{ apply (resolveTarget_existing_table sc tbl d NonEmptyTable ec
               ltac:(discriminate) _ _ _ H1). }
  unfold ResolveFK. unfold mbind' at 1. rewrite H1.
  unfold mbind' at 1. rewrite H2.
  unfold mbind' at 1. unfold lift at 1. rewrite H3.
  unfold mbind' at 1. unfold ensureOriginIndex. rewrite Hreq.
  unfold mbind' at 1. rewrite (load_run _ _ _ Ht1). rewrite Hfind.
  cbn [FKTableState_eqb]. unfold mbind' at 1. unfold lift at 1. rewrite Hnames.
  reflexivity.
Qed.

(** X8. On an existing table (empty or not) a successful ResolveFK queues
    the constraint with the validity Unvalidated if validation is to be
    skipped and Validating otherwise; no descriptor other than the origin
    is edited (the back-reference is not added to the referenced table),
    and nothing is written. *)
Theorem ResolveFK_existing_table_validity sc tbl d ts vb ec s s' :
  ts <> NewTable ->
  ResolveFK sc tbl d ts vb ec s = (Ok tt, s') ->
  queued_with_validity tbl vb s s'.
Proof.
  unfold queued_with_validity.
  intros Hts H.
  apply ResolveFK_inv in H
    as (oc & target & rc & cn & s1 & s2 & H1 & H2 & H3 & H4 & H5).
  assert (E : FKTableState_eqb ts NewTable = false) by (destruct ts; cbn; congruence).
  destruct (resolveTarget_existing_table sc tbl d ts ec Hts _ _ _ H1) as [Hh1 Hw1].
  assert (Hh2 : (forall p, p <> tbl -> heap s2 !! p = heap s1 !! p)
                /\ written s2 = written s1).
  { apply resolveTarget_ok in H1 as (t & _ & _ & Ht & _).
    assert (Ht1 : heap s1 !! tbl = Some t) by (rewrite Hh1; exact Ht).
    pose proof (ensureOriginIndex_ok _ _ _ _ _ _ _ _ _ H4 Ht1) as Hx.
    destruct (needsAutoIndex ec t oc).
    - destruct Hx as [_ ->]. cbn. split; [|reflexivity].
      intros p Hp. apply lookup_insert_ne. congruence.
    - subst s2. auto. }
  destruct Hh2 as [Hh2 Hw2].
  apply addConstraint_ok in H5 as (t2 & tg2 & Ht2 & _ & _ & Hfin).
  cbn zeta in Hfin. rewrite E in Hfin. subst s'. cbn.
  eexists _, t2. rewrite lookup_insert_eq. split; [reflexivity|].
  split.
  { cbn. unfold validityFor. rewrite E. cbn. destruct vb; reflexivity. }
  split; [|congruence].
  intros p Hp. rewrite lookup_insert_ne by congruence.
  rewrite Hh2 by exact Hp. rewrite Hh1. reflexivity.
Qed.

(** X9. On an empty existing table a successful ResolveFK leaves the origin
    as it was with the constraint queued by AddForeignKeyMutation and,
    exactly when the cluster requires origin indexes and
    FindFKOriginIndexInTxn finds none, before it the index made by
    addIndexForFK, queued by AddIndexMutation in the ADD direction and
    followed by AllocateIDs: an index over the names of the origin
    columns in their order, every direction ascending, not unique, named
    after the constraint. *)
Theorem ResolveFK_empty_table_index_mutation sc tbl d vb ec s s' t :
  ResolveFK sc tbl d EmptyTable vb ec s = (Ok tt, s') ->
  heap s !! tbl = Some t ->
  empty_table_outcome d tbl ec t s'.
Proof.
  unfold empty_table_outcome.
  intros H Ht.
  apply ResolveFK_ok in H
    as (t0 & p0 & tg0 & oc & target & rc & cn & Ht0 & Hsc & Htg0 & Hoc & Hact
        & Hw & Hsel & tg2 & Htg2 & Hfin).
  rewrite Ht in Ht0. injection Ht0 as <-.
  cbn in Hfin.
  exists oc, (makeRef (originBefore EmptyTable ec (ID tg0 =? ID t) t oc cn) tg2 d
                EmptyTable vb oc rc cn).
  split; [exact Hoc|]. cbn zeta. rewrite Hfin, lookup_insert_eq.
  split; [|split_and!; reflexivity].
  unfold originBefore, withAutoIndex. cbn [FKTableState_eqb].
  rewrite andb_false_r. cbn. reflexivity.
Qed.

(** X10. When the referenced table is already in [backrefs], ResolveFK for
    a new table edits the object recorded there and not the one the
    resolver returned: the InboundFKs of the recorded object are those it
    had followed by the constraint, which is the last outbound key of the
    origin and has the ID of the recorded table as ReferencedTableID;
    nothing else of the recorded object changes, [backrefs] is as before,
    and every object other than the origin and the recorded one is
    untouched. *)
Theorem ResolveFK_edits_recorded_backref
    sc tbl d vb ec s s' t p0 tg0 prev tgp :
  ResolveFK sc tbl d NewTable vb ec s = (Ok tt, s') ->
  heap s !! tbl = Some t ->
  sc (fkd_Table d) = Ok p0 ->
  heap s !! p0 = Some tg0 ->
  ID tg0 <> ID t ->
  backrefs s !! ID tg0 = Some prev ->
  heap s !! prev = Some tgp ->
  prev <> tbl ->
  recorded_backref_edited tbl prev tgp s s'.
Proof.
  unfold recorded_backref_edited.
  intros H Ht Hsc Htg0 Hid Hb Hprev Hne.
  apply ResolveFK_ok in H
    as (t0 & p0' & tg0' & oc & target & rc & cn & Ht0 & Hsc' & Htg0' & Hoc & Hact
        & Hw & Hsel & tg2 & Htg2 & Hfin).
  rewrite Ht in Ht0. injection Ht0 as <-.
  rewrite Hsc in Hsc'. injection Hsc' as <-.
  rewrite Htg0 in Htg0'. injection Htg0' as <-.
  destruct Hsel as [(E & _) | (_ & [(prev' & E & -> & Hb') | (E & _)])];
    [contradiction | | congruence].
  rewrite Hb in E. injection E as <-.
  rewrite lookup_insert_ne in Htg2 by auto. rewrite Hprev in Htg2.
  injection Htg2 as <-.
  cbn in Hfin. destruct Hfin as (tg3 & Htg3 & Hh).
  rewrite lookup_insert_ne in Htg3 by auto. rewrite Hprev in Htg3.
  injection Htg3 as <-.
  split; [exact Hb'|]. split.
  - intros p Hp1 Hp2. rewrite Hh. rewrite !lookup_insert_ne by auto. reflexivity.
  - eexists _, _, _. rewrite Hh.
    rewrite (lookup_insert_ne _ prev tbl) by auto. rewrite !lookup_insert_eq.
    split; [reflexivity|]. split; [cbn; apply last_snoc|].
    split; [reflexivity|]. split; [reflexivity|]. split; reflexivity.
Qed.

End ForeignKeyChecks.

(** ** The constraint pass of NewTableDesc *)

Section ConstraintPass.
Context {types : Types} {cat : Catalog} {laws : CatalogLaws}.
Context {env : ShardEnv} {benv : BuildEnv}.

Lemma ResolveFK_new_table_outbound sc tbl d vb ec s u s' t :
  ResolveFK sc tbl d NewTable vb ec s = (Ok u, s') ->
  heap s !! tbl = Some t ->
  exists t' ref,
    heap s' !! tbl = Some t'
    /\ ID t' = ID t
    /\ OutboundFKs t' = OutboundFKs t ++ [ref]
    /\ built_from t d ref
    /\ written s' = written s.
Proof.
  intros H Ht.
  apply ResolveFK_ok in H
    as (t0 & p0 & tg0 & oc & target & rc & cn & Ht0 & Hsc & Htg0 & Hoc & Hact
        & Hw & Hsel & tg2 & Htg2 & Hfin).
  rewrite Ht in Ht0. injection Ht0 as <-.
  set (t2 := originBefore NewTable ec (ID tg0 =? ID t) t oc cn) in *.
  destruct (originBefore_keeps NewTable ec (ID tg0 =? ID t) t oc cn)
    as (Hid & Hout & Hin).
  fold t2 in Hid, Hout, Hin.
  cbn in Hfin. destruct Hfin as (tg3 & Htg3 & Hh).
  assert (Hlen : length oc = length (fkd_FromCols d)).
  { apply resolveOriginCols_sound in Hoc as (new & Hnew & Hall & _).
    cbn in Hnew. subst new. symmetry. eapply Forall2_length; eauto. }
  assert (Hb : built_from t d (makeRef t2 tg2 d NewTable vb oc rc cn)).
  { unfold built_from. cbn. rewrite length_map. auto 10. }
  destruct (decide (target = tbl)) as [-> | Hne].
  - rewrite lookup_insert_eq in Htg3. injection Htg3 as <-.
    eexists _, _. rewrite Hh, lookup_insert_eq. split; [reflexivity|].
    cbn. split; [exact Hid|]. rewrite Hout. split; [reflexivity|].
    split; [exact Hb|exact Hw].
  - eexists _, _. rewrite Hh. rewrite lookup_insert_ne by auto.
    rewrite lookup_insert_eq. split; [reflexivity|].
    cbn. split; [exact Hid|]. rewrite Hout. split; [reflexivity|].
    split; [exact Hb|exact Hw].
Qed.

(** X11. A successful constraint pass appends to the OutboundFKs of the new
    table exactly one constraint for each FOREIGN KEY definition, in the
    order of the definitions; each has the ID of the new table as origin,
    one origin column for each column of its definition, the actions and
    the match method of its definition and the validity Validated. The ID
    of the table is unchanged and nothing is written. *)
Theorem constraintPass_foreign_keys_in_order fkResolver desc ec defs b s s' t :
  constraintPass fkResolver desc ec defs b s = (Ok tt, s') ->
  heap s !! desc = Some t ->
  foreign_keys_appended defs desc t s s'.
Proof.
  unfold foreign_keys_appended.
  revert b s t. induction defs as [|def defs IH]; intros b s t H Ht;
    cbn [constraintPass] in H.
  - apply mret_ok in H as [_ ->]. exists t, []. rewrite app_nil_r.
    split; [exact Ht|]. split; [reflexivity|]. split; [reflexivity|].
    split; [constructor|reflexivity].
  - mstep H as b1 s1 Hdef.
    assert (Hstep : exists t1 refs1,
      heap s1 !! desc = Some t1 /\ ID t1 = ID t
      /\ OutboundFKs t1 = OutboundFKs t ++ refs1
      /\ Forall2 (built_from t) (fkDefs [def]) refs1
      /\ written s1 = written s).
    { destruct def as [c | | | d | d | | |].
      1-3,6-7: apply mret_ok in Hdef as [_ ->]; exists t, [];
        rewrite app_nil_r; cbn; split_and!; auto; constructor.
      - mstep Hdef as t0 s0 Ht0. apply load_ok in Ht0 as [Ht0 ->].
        rewrite Ht in Ht0. injection Ht0 as <-.
        mstep Hdef as ck s0 Hck. apply lift_ok in Hck as [_ ->].
        mstep Hdef as u s0 Hmod. apply modify_ok in Hmod as (t0 & Ht0 & ->).
        rewrite Ht in Ht0. injection Ht0 as <-.
        apply mret_ok in Hdef as [_ ->]. cbn.
        eexists _, []. rewrite lookup_insert_eq. split; [reflexivity|].
        cbn. rewrite app_nil_r. split_and!; auto.
      - mstep Hdef as u s0 Hfk. apply mret_ok in Hdef as [_ ->].
        destruct (ResolveFK_new_table_outbound _ _ _ _ _ _ _ _ _ Hfk Ht)
          as (t1 & ref & A & B & C & D & E).
        exists t1, [ref]. cbn. split_and!; auto.
      - discriminate. }
    destruct Hstep as (t1 & refs1 & Ht1 & Hid1 & Hout1 & Hall1 & Hw1).
    destruct (IH _ _ _ H Ht1) as (t' & refs & Ht' & Hid' & Hout' & Hall' & Hw').
    exists t', (refs1 ++ refs). split; [exact Ht'|]. split; [congruence|].
    split; [rewrite Hout', Hout1, app_assoc; reflexivity|].
    split; [|congruence].
    change (def :: defs) with ([def] ++ defs). unfold fkDefs.
    rewrite omap_app. apply Forall2_app; [exact Hall1|].
    eapply Forall2_impl; [exact Hall'|].
    intros d ref (A1 & A2). split; [congruence|exact A2].
Qed.

End ConstraintPass.

(** ** The column pass of NewTableDesc *)

Section ColumnPass.
Context {types : Types} {cat : Catalog} {env : ShardEnv} {benv : BuildEnv}.

(** X12. isTypeSupportedInVersion never returns an error. The answer is that
    of the family of the type, or of its contents if the type is an array:
    GeospatialType must be active for Geography and Geometry, Box2DType
    for Box2D, and every other family is supported. An array is unwrapped
    once: an array of a type that is not an array has the answer of that
    type, and an array of arrays is always supported. *)
Theorem isTypeSupportedInVersion_families v t :
  let elem := match types_Family t with
              | ArrayFamily => ArrayContents t
              | _ => t
              end in
  isTypeSupportedInVersion v t
  = Ok match types_Family elem with
       | GeographyFamily | GeometryFamily => IsActive v GeospatialType
       | Box2DFamily => IsActive v Box2DType
       | _ => true
       end
  /\ (types_Family t = ArrayFamily ->
      types_Family (ArrayContents t) <> ArrayFamily ->
      isTypeSupportedInVersion v t = isTypeSupportedInVersion v (ArrayContents t))
  /\ (types_Family t = ArrayFamily ->
      types_Family (ArrayContents t) = ArrayFamily ->
      isTypeSupportedInVersion v t = Ok true).
Proof.
  cbn zeta. unfold isTypeSupportedInVersion. split; [|split].
  - destruct (types_Family t) eqn:E; cbn; rewrite ?E; try reflexivity.
    destruct (types_Family (ArrayContents t)); reflexivity.
  - intros Ha Hn. rewrite Ha.
    destruct (types_Family (ArrayContents t)) eqn:E; cbn; rewrite ?E;
      try reflexivity.
    contradiction.
  - intros Ha He. rewrite Ha, He. reflexivity.
Qed.

Lemma columnDef_ok PB IL En version iev i d st st' :
  columnDef PB IL En version iev i d st = Ok st' ->
  acceptedColumnDef PB IL En version (cp_desc st) d
  /\ exists col idx expr h,
       MakeColumnDefDescs d = Ok (col, idx, expr)
       /\ (if ctd_Sharded d then exists c, h = [c] /\ hoistedCheck c else h = [])
       /\ cp_Defs st' = cp_Defs st ++ map Def_CheckConstraint h
       /\ (i < length (cp_columnDefaultExprs st) + length h)%nat
       /\ cp_columnDefaultExprs st'
          = <[i := if ctd_HasDefaultExpr d then expr else None]>
              (cp_columnDefaultExprs st ++ replicate (length h) None).
Proof.
  unfold columnDef. intros H.
  destruct (ResolveType (ctd_Type d)) as [ty | |] eqn:Ety; try discriminate.
  cbn [rbind] in H.
  destruct (negb (IsVirtualTable (cp_desc st))
            && ((Oid ty =? T_int2vector) || (Oid ty =? T_oidvector))) eqn:Evec;
    [discriminate|]. cbn [rbind] in H.
  destruct (isTypeSupportedInVersion version ty) as [sup | |] eqn:Esup;
    try discriminate. cbn [rbind] in H.
  destruct sup; [|discriminate]. cbn [negb rbind] in H.
  set (shard := if ctd_Sharded d then _ else _) in H.
  destruct shard as [st1 | |] eqn:Eshard; try discriminate.
  cbn [rbind] in H.
  destruct (ctd_IsVirtual d) eqn:Evirt; [discriminate|].
  destruct (MakeColumnDefDescs d) as [[[col idx] expr] | |] eqn:Emk;
    try discriminate. cbn [rbind] in H.
  destruct (assign (cp_columnDefaultExprs st1) i
              (if ctd_HasDefaultExpr d then expr else None))
    as [cde | |] eqn:Eas; try discriminate. cbn [rbind] in H.
  assert (Hst' : cp_Defs st' = cp_Defs st1 /\ cp_columnDefaultExprs st' = cde).
  { destruct (match idx with Some _ => _ | None => _ end) as [d1 | |];
      try discriminate. cbn [rbind] in H.
    destruct (if ctd_HasColumnFamily d then _ else _) as [d2 | |];
      try discriminate. cbn [rbind] in H. injection H as <-. auto. }
  destruct Hst' as [Hdefs Hcde].
  unfold assign in Eas.
  destruct (i <? length (cp_columnDefaultExprs st1))%nat eqn:Ei; [|discriminate].
  injection Eas as <-. apply Nat.ltb_lt in Ei.
  assert (Hsh : (if ctd_Sharded d
                 then En = true /\ PB = false /\ IL = false
                      /\ isOk (EvalShardBucketCount (ctd_ShardBuckets d)) = true
                 else True)
                /\ exists h,
                     (if ctd_Sharded d then exists c, h = [c] /\ hoistedCheck c
                      else h = [])
                     /\ cp_Defs st1 = cp_Defs st ++ map Def_CheckConstraint h
                     /\ cp_columnDefaultExprs st1
                        = cp_columnDefaultExprs st ++ replicate (length h) None
                     /\ (i < length (cp_columnDefaultExprs st1))%nat).
  { subst shard. destruct (ctd_Sharded d).
    - destruct En; [|discriminate]. destruct PB; [discriminate|].
      destruct IL; [discriminate|]. cbn [negb] in Eshard.
      destruct (EvalShardBucketCount (ctd_ShardBuckets d)) as [b | |];
        try discriminate. cbn [rbind] in Eshard.
      destruct (maybeCreateAndAddShardCol b (cp_desc st) [ctd_Name d] true)
        as [[[sc new] desc1] | |]; try discriminate. cbn [rbind] in Eshard.
      unfold makeShardCheckConstraintDef in Eshard. cbn [rbind] in Eshard.
      injection Eshard as <-. cbn in *. split; [auto|].
      exists [{| ckd_Name := EmptyString;
                 ckd_Expr := ComparisonExpr tree_In (ColumnItem (col_Name sc))
                               (Tuple (shardValues b));
                 ckd_Hidden := true |}].
      split; [eexists; split; [reflexivity|split; reflexivity]|].
      auto.
    - injection Eshard as <-. split; [exact I|]. exists []. cbn.
      rewrite !app_nil_r. auto. }
  destruct Hsh as (Hreq & h & Hh & Hd1 & Hc1 & Hi1).
  split.
  - unfold acceptedColumnDef. split.
    { exists ty. split; [exact Ety|]. split; [exact Esup|].
      intros Hv. rewrite Hv in Evec. cbn in Evec.
      apply orb_false_iff in Evec as [A B].
      apply Z.eqb_neq in A, B. auto. }
    split; [exact Evirt|]. split; [rewrite Emk; reflexivity|].
    intros Hs. rewrite Hs in Hreq. exact Hreq.
  - exists col, idx, expr, h. split; [reflexivity|]. split; [exact Hh|].
    split; [congruence|].
    split.
    { rewrite Hc1 in Hi1. rewrite length_app, length_replicate in Hi1. exact Hi1. }
    rewrite Hcde, Hc1. reflexivity.
Qed.

Lemma columnPassLoop_ok PB IL En version iev defs :
  forall i st st',
    columnPassLoop PB IL En version iev i defs st = Ok st' ->
    (i + length defs <= length (cp_columnDefaultExprs st))%nat ->
    exists h,
      cp_Defs st' = cp_Defs st ++ map Def_CheckConstraint h
      /\ length h = length (List.filter isShardedColumnDef defs)
      /\ Forall hoistedCheck h
      /\ length (cp_columnDefaultExprs st')
         = (length (cp_columnDefaultExprs st) + length h)%nat
      /\ (forall j, (j < i \/ i + length defs <= j)%nat ->
            cp_columnDefaultExprs st' !! j
            = (cp_columnDefaultExprs st ++ replicate (length h) None) !! j)
      /\ (forall k def,
            defs !! k = Some def ->
            match def with
            | Def_Column _ =>
                exists slot,
                  cp_columnDefaultExprs st' !! (i + k)%nat = Some slot
                  /\ defaultExprSlot def slot
            | _ => cp_columnDefaultExprs st' !! (i + k)%nat
                   = cp_columnDefaultExprs st !! (i + k)%nat
            end).
Proof.
  induction defs as [|def rest IH]; intros i st st' H Hlen; cbn [columnPassLoop] in H.
  - injection H as <-. exists []. cbn. rewrite !app_nil_r, Nat.add_0_r.
    split_and!; auto. intros k def Hk. rewrite lookup_nil in Hk. discriminate.
  - cbn [length] in Hlen.
    destruct (match def with
              | Def_Column d => columnDef PB IL En version iev i d st
              | _ => Ok st
              end) as [st1 | |] eqn:Estep; try discriminate.
    cbn [rbind] in H.
    assert (Hstep : exists h1 x,
      cp_Defs st1 = cp_Defs st ++ map Def_CheckConstraint h1
      /\ length h1 = length (List.filter isShardedColumnDef [def])
      /\ Forall hoistedCheck h1
      /\ cp_columnDefaultExprs st1
         = <[i := x]> (cp_columnDefaultExprs st ++ replicate (length h1) None)
      /\ match def with
         | Def_Column _ => defaultExprSlot def x
         | _ => cp_columnDefaultExprs st !! i = Some x
         end).
    { destruct (lookup_lt_is_Some_2 (cp_columnDefaultExprs st) i ltac:(lia))
        as [x0 Hx0].
      destruct def as [d | | | c | f | | |];
        try (injection Estep as <-; exists [], x0; cbn; rewrite !app_nil_r;
             rewrite list_insert_id by exact Hx0; split_and!; auto; fail).
      apply columnDef_ok in Estep
        as (Hacc & col & idx & expr & h1 & Hmk & Hh1 & Hd1 & Hi & Hc1).
      exists h1, (if ctd_HasDefaultExpr d then expr else None).
      split; [exact Hd1|]. cbn [List.filter isShardedColumnDef].
      split.
      { destruct (ctd_Sharded d) eqn:Es.
        - destruct Hh1 as (c & -> & _). reflexivity.
        - subst h1. reflexivity. }
      split.
      { destruct (ctd_Sharded d).
        - destruct Hh1 as (c & -> & Hc). constructor; [exact Hc|constructor].
        - subst h1. constructor. }
      split; [exact Hc1|].
      cbn. eauto. }
    destruct Hstep as (h1 & x & Hd1 & Hl1 & Hf1 & Hc1 & Hx).
    assert (Hlen1 : length (cp_columnDefaultExprs st1)
                    = (length (cp_columnDefaultExprs st) + length h1)%nat).
    { rewrite Hc1, length_insert, length_app, length_replicate. reflexivity. }
    destruct (IH (S i) st1 st' H ltac:(lia))
      as (h2 & Hd2 & Hl2 & Hf2 & Hlen2 & Hout & Hin).
    exists (h1 ++ h2).
    split; [rewrite Hd2, Hd1, map_app, app_assoc; reflexivity|].
    split.
    { change (def :: rest) with ([def] ++ rest).
      rewrite List.filter_app, !length_app. congruence. }
    split; [apply Forall_app; auto|].
    split; [rewrite Hlen2, Hlen1, length_app; lia|].
    assert (Hother : forall j, j <> i ->
              (cp_columnDefaultExprs st1 ++ replicate (length h2) None) !! j
              = (cp_columnDefaultExprs st ++ replicate (length (h1 ++ h2)) None) !! j).
    { intros j Hj. rewrite Hc1.
      rewrite length_app, replicate_add, app_assoc.
      destruct (decide (j < length (cp_columnDefaultExprs st ++ replicate (length h1) None))%nat)
        as [Hlt | Hge].
      - rewrite !lookup_app_l by (rewrite ?length_insert; exact Hlt).
        apply list_lookup_insert_ne. auto.
      - rewrite !lookup_app_r by (rewrite ?length_insert; lia).
        rewrite length_insert. reflexivity. }
    split.
    { intros j Hj. cbn [length] in Hj. rewrite Hout by lia. apply Hother. lia. }
    intros k def' Hk. destruct k as [|k].
    + cbn in Hk. injection Hk as <-. rewrite Nat.add_0_r.
      assert (Hi' : cp_columnDefaultExprs st' !! i = Some x).
      { rewrite Hout by lia. rewrite lookup_app_l by lia.
        rewrite Hc1. apply list_lookup_insert_eq.
        rewrite length_app. lia. }
      destruct def; first [ exists x; split; [exact Hi'|exact Hx]
                          | rewrite Hi'; symmetry; exact Hx ].
    + cbn in Hk. specialize (Hin k def' Hk).
      replace (i + S k)%nat with (S i + k)%nat by lia.
      pose proof (lookup_lt_Some _ _ _ Hk) as Hklt.
      destruct def'; try exact Hin;
        rewrite Hin, Hc1;
        rewrite list_lookup_insert_ne by lia;
        apply lookup_app_l; lia.
Qed.

(** X13. After a successful column pass, [n.Defs] is the list it started
    from followed by one hidden, unnamed check definition for each
    hash-sharded column definition, [columnDefaultExprs] has one entry for
    each definition, and the entry of a definition is the default
    expression that MakeColumnDefDescs returned if the definition is a
    column definition with a default expression, and nil otherwise. *)
Theorem columnPass_default_exprs_aligned PB IL En version iev desc Defs st :
  columnPass PB IL En version iev desc Defs = Ok st ->
  default_exprs_aligned Defs st.
Proof.
  unfold default_exprs_aligned.
  unfold columnPass. intros H.
  apply columnPassLoop_ok in H
    as (h & Hd & Hl & Hf & Hlen & Hout & Hin);
    [|cbn; rewrite length_replicate; lia].
  cbn [cp_Defs cp_columnDefaultExprs] in *.
  rewrite length_replicate in Hlen.
  exists h. split; [exact Hd|]. split; [exact Hl|]. split; [exact Hf|].
  split; [rewrite Hd, length_app, length_map; exact Hlen|].
  intros i def Hi. rewrite Hd in Hi.
  destruct (decide (i < length Defs)%nat) as [Hlt | Hge].
  - rewrite lookup_app_l in Hi by exact Hlt.
    specialize (Hin i def Hi). cbn in Hin.
    destruct def; try exact Hin;
      rewrite Hin; rewrite lookup_replicate_2 by exact Hlt;
      exists None; split; reflexivity.
  - rewrite lookup_app_r in Hi by lia.
    apply list_lookup_fmap_Some in Hi as (c & -> & Hc).
    pose proof (lookup_lt_Some _ _ _ Hc) as Hclt.
    rewrite Hout by (right; cbn; lia).
    rewrite <- replicate_add. rewrite lookup_replicate_2 by lia.
    exists None. split; reflexivity.
Qed.

Context {claws : ColumnLaws}.

Lemma commit_snd (r : result unit * Mutable) t : commit r = Ok t -> t = snd r.
Proof. destruct r as [[[] | |] t0]; cbn; congruence. Qed.

Lemma columnDef_columns PB IL En version iev i d st st' :
  columnDef PB IL En version iev i d st = Ok st' ->
  ID (cp_desc st') = ID (cp_desc st)
  /\ exists cols,
       columnsOf (Columns (cp_desc st)) d cols
       /\ Columns (cp_desc st') = Columns (cp_desc st) ++ cols.
Proof.
  unfold columnDef. intros H.
  destruct (ResolveType (ctd_Type d)) as [ty | |]; try discriminate.
  cbn [rbind] in H.
  destruct (negb (IsVirtualTable (cp_desc st)) && _); [discriminate|].
  cbn [rbind] in H.
  destruct (isTypeSupportedInVersion version ty) as [sup | |]; try discriminate.
  cbn [rbind] in H. destruct sup; [|discriminate]. cbn [negb rbind] in H.
  set (shard := if ctd_Sharded d then _ else _) in H.
  destruct shard as [st1 | |] eqn:Eshard; try discriminate.
  cbn [rbind] in H.
  destruct (ctd_IsVirtual d); [discriminate|].
  destruct (MakeColumnDefDescs d) as [[[col idx] expr] | |] eqn:Emk;
    try discriminate. cbn [rbind] in H.
  destruct (assign _ _ _) as [cde | |]; try discriminate. cbn [rbind] in H.
  assert (Hcols : Columns (cp_desc st') = Columns (cp_desc st1) ++ [col]
                  /\ ID (cp_desc st') = ID (cp_desc st1)).
  { destruct idx as [idx|].
    - destruct (commit _) as [d1 | |] eqn:E1; try discriminate.
      cbn [rbind] in H. apply commit_snd in E1.
      destruct (ctd_HasColumnFamily d).
      + destruct (commit _) as [d2 | |] eqn:E2; try discriminate.
        cbn [rbind] in H. apply commit_snd in E2. injection H as <-. cbn.
        rewrite E2, AddColumnToFamilyMaybeCreate_Columns,
          AddColumnToFamilyMaybeCreate_ID, E1, AddIndex_Columns, AddIndex_ID.
        split; reflexivity.
      + cbn [rbind] in H. injection H as <-. cbn.
        rewrite E1, AddIndex_Columns, AddIndex_ID. split; reflexivity.
    - cbn [rbind] in H.
      destruct (ctd_HasColumnFamily d).
      + destruct (commit _) as [d2 | |] eqn:E2; try discriminate.
        cbn [rbind] in H. apply commit_snd in E2. injection H as <-. cbn.
        rewrite E2, AddColumnToFamilyMaybeCreate_Columns,
          AddColumnToFamilyMaybeCreate_ID. split; reflexivity.
      + cbn [rbind] in H. injection H as <-. split; reflexivity. }
  destruct Hcols as [Hcols Hid].
  subst shard. unfold columnsOf. destruct (ctd_Sharded d) eqn:Es.
  - destruct (negb En); [discriminate|]. destruct PB; [discriminate|].
    destruct IL; [discriminate|].
    destruct (EvalShardBucketCount (ctd_ShardBuckets d)) as [b | |] eqn:Eb;
      try discriminate. cbn [rbind] in Eshard.
    unfold maybeCreateAndAddShardCol in Eshard.
    destruct (makeShardColumnDesc [ctd_Name d] b) as [sc | |] eqn:Esc;
      try discriminate. cbn [rbind] in Eshard.
    destruct (find _ (Columns (cp_desc st))) as [existing|] eqn:Efind.
    + destruct (negb (col_Hidden existing)); [discriminate|].
      cbn [rbind] in Eshard. unfold makeShardCheckConstraintDef in Eshard.
      cbn [rbind] in Eshard. injection Eshard as <-. cbn in Hcols, Hid.
      split; [exact Hid|].
      exists [col]. split; [|exact Hcols].
      exists col, idx, expr. split; [exact Emk|]. exists b, sc.
      split; [first [exact Eb|reflexivity]|].
      split; [first [exact Esc|reflexivity]|]. right.
      split; [|reflexivity].
      apply find_some in Efind as [Hin Hname].
      apply List.Exists_exists. exists existing.
      split; [exact Hin|]. apply String.eqb_eq. exact Hname.
    + cbn [rbind] in Eshard. unfold makeShardCheckConstraintDef in Eshard.
      cbn [rbind] in Eshard. injection Eshard as <-. cbn in Hcols, Hid.
      split; [exact Hid|].
      exists [sc; col]. split; [|rewrite Hcols, <- app_assoc; reflexivity].
      exists col, idx, expr. split; [exact Emk|]. exists b, sc.
      split; [first [exact Eb|reflexivity]|].
      split; [first [exact Esc|reflexivity]|]. left.
      split; [|reflexivity].
      apply List.Forall_forall. intros c Hc.
      apply (find_none _ _ Efind) in Hc. apply String.eqb_neq. exact Hc.
  - injection Eshard as <-. split; [exact Hid|].
    exists [col]. split; [|exact Hcols].
    exists col, idx, expr. auto.
Qed.

Lemma acceptedDef_virtual PB IL En version desc desc' def :
  IsVirtualTable desc' = IsVirtualTable desc ->
  acceptedDef PB IL En version desc def ->
  acceptedDef PB IL En version desc' def.
Proof.
  intros Hv. destruct def as [d | | | | | | |]; cbn; auto.
  unfold acceptedColumnDef. rewrite Hv. auto.
Qed.

Lemma columnPassLoop_columns PB IL En version iev defs :
  forall i st st',
    columnPassLoop PB IL En version iev i defs st = Ok st' ->
    Forall (acceptedDef PB IL En version (cp_desc st)) defs
    /\ exists groups,
         columnGroups (Columns (cp_desc st)) (columnDefs defs) groups
         /\ Columns (cp_desc st') = Columns (cp_desc st) ++ concat groups.
Proof.
  induction defs as [|def rest IH]; intros i st st' H; cbn [columnPassLoop] in H.
  - injection H as <-. split; [constructor|]. exists []. cbn.
    rewrite app_nil_r. split; [exact I|reflexivity].
  - destruct (match def with
              | Def_Column d => columnDef PB IL En version iev i d st
              | _ => Ok st
              end) as [st1 | |] eqn:Estep; try discriminate.
    cbn [rbind] in H.
    destruct (IH _ _ _ H) as (Hacc & groups & Hall & Hcols).
    destruct def as [d | | | c | f | | |];
      try (injection Estep as <-;
           split; [constructor; [exact I|exact Hacc]|];
           exists groups; split; [exact Hall|exact Hcols]).
    pose proof (columnDef_ok _ _ _ _ _ _ _ _ _ Estep) as [Hd _].
    apply columnDef_columns in Estep as (Hid & cols & Hc & Hc1).
    split.
    + constructor; [exact Hd|].
      eapply Forall_impl; [exact Hacc|]. intros def.
      apply acceptedDef_virtual. apply IsVirtualTable_ID. symmetry. exact Hid.
    + exists (cols :: groups). rewrite Hc1 in Hall.
      split; [exact (conj Hc Hall)|].
      cbn [concat]. rewrite Hcols, Hc1, <- app_assoc. reflexivity.
Qed.

(** X14. The column pass succeeds only if every column definition has a
    type that resolves and is supported in the cluster version and, when
    the descriptor is not that of a virtual table, is not int2vector or
    oidvector; is not a virtual computed column; is accepted by
    MakeColumnDefDescs; and, if it is hash-sharded, hash-sharded indexes
    are enabled, the table is neither partitioned nor interleaved and the
    bucket count evaluates. *)
Theorem columnPass_accepts_only PB IL En version iev desc Defs st :
  columnPass PB IL En version iev desc Defs = Ok st ->
  Forall (acceptedDef PB IL En version desc) Defs.
Proof.
  unfold columnPass. intros H.
  apply columnPassLoop_columns in H as [Hall _]. exact Hall.
Qed.

(** X15. A successful column pass appends to the columns of the descriptor,
    for each column definition in order, the column made by
    MakeColumnDefDescs, preceded by the shard column made by
    makeShardColumnDesc exactly when the definition is hash-sharded and
    the descriptor has, at that point, no column of that name; nothing
    else is added, and the columns the descriptor had stay in front. *)
Theorem columnPass_column_order PB IL En version iev desc Defs st :
  columnPass PB IL En version iev desc Defs = Ok st ->
  columns_appended desc Defs st.
Proof.
  unfold columns_appended.
  unfold columnPass. intros H.
  apply columnPassLoop_columns in H as (_ & groups & Hall & Hcols).
  exists groups. split; [exact Hall|exact Hcols].
Qed.

End ColumnPass.

(** ** The hash-shard helpers *)

Section ShardHelpers.
Context {types : Types} {env : ShardEnv}.

(** X16. makeShardCheckConstraintDef never fails. The definition it returns
    is hidden and unnamed and says that the shard column is IN a tuple of
    [buckets] constants without duplicates, each the number [v] written
    as [strconv.Itoa v] and not negative, and [v] is among them exactly
    when [0 <= v < buckets]; for [buckets <= 0] the tuple is empty. *)
Theorem makeShardCheckConstraintDef_values desc buckets shardCol :
  exists values,
    makeShardCheckConstraintDef desc buckets shardCol
    = Ok {| ckd_Name := EmptyString;
            ckd_Expr := ComparisonExpr tree_In (ColumnItem (col_Name shardCol))
                          (Tuple values);
            ckd_Hidden := true |}
    /\ length values = Z.to_nat buckets
    /\ (forall v, NumVal v (Itoa v) false ∈ values <-> 0 <= v < buckets)
    /\ (forall e, e ∈ values -> exists v, e = NumVal v (Itoa v) false)
    /\ NoDup values.
Proof.
  exists (shardValues buckets). split; [reflexivity|]. unfold shardValues.
  split; [rewrite length_map, length_seq; reflexivity|].
  split.
  { intros v. rewrite list_elem_of_fmap. split.
    - intros (i & Hi & Hin). injection Hi as ->. apply elem_of_seq in Hin. lia.
    - intros Hv. exists (Z.to_nat v). rewrite Z2Nat.id by lia.
      split; [reflexivity|]. apply elem_of_seq. lia. }
  split.
  { intros e He. apply list_elem_of_fmap in He as (i & -> & _). eauto. }
  apply NoDup_fmap_2; [|apply NoDup_seq].
  intros i j Hij. injection Hij as Hij _. lia.
Qed.

Lemma hashedColumnExpr_inj c c' : hashedColumnExpr c = hashedColumnExpr c' -> c = c'.
Proof. unfold hashedColumnExpr. intros [= ->]. reflexivity. Qed.

Lemma hashSum_inj l1 l2 : hashSum l1 = hashSum l2 -> l1 = l2.
Proof.
  revert l2. induction l1 as [|c l1 IH]; intros l2 H.
  - symmetry. apply hashSum_nil_inv. auto.
  - destruct l2 as [|c' l2]; [apply hashSum_nil_inv in H; discriminate|].
    destruct l1 as [|d l1], l2 as [|d' l2].
    + cbn in H. apply hashedColumnExpr_inj in H as ->. reflexivity.
    + cbn in H. unfold hashedColumnExpr in H. discriminate.
    + cbn in H. unfold hashedColumnExpr in H. discriminate.
    + change (BinaryExpr Plus (hashedColumnExpr c) (hashSum (d :: l1))
              = BinaryExpr Plus (hashedColumnExpr c') (hashSum (d' :: l2))) in H.
      unfold hashedColumnExpr in H. injection H as -> Hrest.
      f_equal. apply IH. exact Hrest.
Qed.

(** X17. The expression that makeHashShardComputeExpr serializes determines
    the column names and the bucket count: two calls serialize the same
    expression only for the same list of names and the same count. The
    sum of the hashed columns is the nil expression exactly when there is
    no column name. *)
Theorem makeHashShardComputeExpr_tree colNames buckets colNames' buckets' :
  makeHashShardComputeExpr colNames buckets
  = Serialize (shardComputeTree colNames buckets)
  /\ (shardComputeTree colNames buckets = shardComputeTree colNames' buckets'
      <-> colNames = colNames' /\ buckets = buckets')
  /\ (hashSumExpr colNames = NilExpr <-> colNames = []).
Proof.
  split; [reflexivity|]. split; [split|split].
  - unfold shardComputeTree. rewrite !hashSumExpr_hashSum.
    intros [= H ->]. apply hashSum_inj in H. auto.
  - intros [-> ->]. reflexivity.
  - rewrite hashSumExpr_hashSum. apply hashSum_nil_inv.
  - intros ->. reflexivity.
Qed.

End ShardHelpers.

(** ** getTableCreateParams, startExec and finalizeInterleave *)

Section ExecWrites.
Context {types : Types} {cat : Catalog} {planner : Planner}.

(** X18. getTableCreateParams returns a nil key only together with the
    schema ID 0 and an error. When it returns a key, the name is not an
    alias of a type of the public schema, the key and the schema ID are
    those computed for the name (for a table that is not temporary, the ID
    of the schema resolved by getSchemaIDForCreate, which is public or
    user-defined), the user may create in the schema, and either there is
    no error and the lookup found no object, or the error is the one made
    by MakeObjectAlreadyExistsError for the descriptor of the object
    found. *)
Theorem getTableCreateParams_key_or_error dbID persistence tableName :
  match getTableCreateParams dbID persistence tableName with
  | (None, schemaID, err) => schemaID = 0 /\ isOk err = false
  | (Some tKey, schemaID, err) =>
      String.eqb (tn_Schema tableName) PublicSchema
      && PublicSchemaAliases (tn_Object tableName) = false
      /\ createKeys dbID persistence tableName tKey schemaID
      /\ canCreateOnSchema schemaID dbID = Ok tt
      /\ (IsTemporary persistence = false ->
          exists res,
            ResolveUncachedSchemaDescriptor dbID (tn_Schema tableName) = Ok res
            /\ rs_ID res = schemaID
            /\ (rs_Kind res = SchemaPublic \/ rs_Kind res = SchemaUserDefined))
      /\ match err with
         | Ok _ =>
             exists id,
               LookupObjectID dbID schemaID (tn_Object tableName)
               = (false, id, None)
         | Err e =>
             exists id desc,
               LookupObjectID dbID schemaID (tn_Object tableName)
               = (true, id, None)
               /\ GetAnyDescriptorByID id = Ok desc
               /\ e = MakeObjectAlreadyExistsError desc (tn_Object tableName)
         | Panic => False
         end
  end.
Proof.
  assert (Hkind : forall schemaID,
    getSchemaIDForCreate dbID (tn_Schema tableName) = Ok schemaID ->
    exists res,
      ResolveUncachedSchemaDescriptor dbID (tn_Schema tableName) = Ok res
      /\ rs_ID res = schemaID
      /\ (rs_Kind res = SchemaPublic \/ rs_Kind res = SchemaUserDefined)).
  { intros schemaID. unfold getSchemaIDForCreate.
    destruct (ResolveUncachedSchemaDescriptor dbID (tn_Schema tableName))
      as [res | |]; try discriminate. cbn [rbind].
    destruct (rs_Kind res) eqn:Ek; try discriminate;
      intros [= <-]; exists res; auto. }
  unfold getTableCreateParams, createKeys.
  destruct (String.eqb (tn_Schema tableName) PublicSchema
            && PublicSchemaAliases (tn_Object tableName)) eqn:Ealias;
    [split; reflexivity|].
  destruct (IsTemporary persistence) eqn:Etmp.
  - destruct TempTablesEnabled eqn:Een; cbn [negb]; [|split; reflexivity].
    destruct (getOrCreateTemporarySchema dbID) as [schemaID | e |] eqn:Esc;
      cbn [rbind]; [|split; reflexivity..].
    destruct (canCreateOnSchema schemaID dbID) as [[] | e |] eqn:Ecan;
      [|split; reflexivity..].
    destruct (LookupObjectID dbID schemaID (tn_Object tableName))
      as [[[] id] [e|]] eqn:El; try (split; reflexivity).
    + destruct (GetAnyDescriptorByID id) as [desc | e |] eqn:Ed;
        [|split; reflexivity..].
      split_and!; auto; [discriminate|eauto].
    + split_and!; auto; [discriminate|eauto].
  - destruct (getSchemaIDForCreate dbID (tn_Schema tableName))
      as [schemaID | e |] eqn:Esc; cbn [rbind]; [|split; reflexivity..].
    destruct (canCreateOnSchema schemaID dbID) as [[] | e |] eqn:Ecan;
      [|split; reflexivity..].
    destruct (LookupObjectID dbID schemaID (tn_Object tableName))
      as [[[] id] [e|]] eqn:El; try (split; reflexivity).
    + destruct (GetAnyDescriptorByID id) as [desc | e |] eqn:Ed;
        [|split; reflexivity..].
      split_and!; auto. eauto.
    + split_and!; auto. eauto.
Qed.

Lemma get_index_update_index asl f a aidx :
  get_index asl a = Ok aidx ->
  get_index asl (update_index asl f a) = Ok (f aidx).
Proof.
  destruct asl as [| i | i]; cbn [get_index update_index].
  - intros [= <-]. reflexivity.
  - unfold index. destruct (Indexes a !! i) as [x|] eqn:E; [|discriminate].
    intros [= <-]. cbn [Indexes set_Indexes].
    rewrite list_lookup_insert_eq by (eapply lookup_lt_Some; eauto).
    reflexivity.
  - unfold index. destruct (Mutations a !! i) as [m|] eqn:E; [|discriminate].
    cbn [rbind]. destruct (GetIndex m) as [x|] eqn:Eg; [|discriminate].
    intros [= <-]. cbn [Mutations set_Mutations].
    rewrite list_lookup_insert_eq by (eapply lookup_lt_Some; eauto).
    reflexivity.
Qed.

(** X20. For an index whose last interleave ancestor is an index of another
    table, a successful finalizeInterleave appends one back-reference (the
    ID of the table and of the index) to InterleavedBy of that ancestor
    index and writes the ancestor table; then, if the table was in the ADD
    state, it makes it PUBLIC and writes it, after the ancestor. No other
    descriptor is edited, nothing else is written, and only the last
    ancestor is touched. FindIndexByID is taken to return a pointer to an
    index of the ancestor table. *)
Theorem finalizeInterleave_back_reference
    p sl s s' t idx ancestor q a asl aidx :
  finalizeInterleave p sl s = (Ok tt, s') ->
  heap s !! p = Some t ->
  get_index sl t = Ok idx ->
  last (idx_Interleave idx) = Some ancestor ->
  anc_TableID ancestor <> ID t ->
  GetMutableTableVersionByID s (anc_TableID ancestor) = Ok q ->
  q <> p ->
  heap s !! q = Some a ->
  FindIndexByID a (anc_IndexID ancestor) = Ok asl ->
  get_index asl a = Ok aidx ->
  back_reference_installed p q t idx a asl aidx s s'.
Proof.
  unfold back_reference_installed.
  intros H Ht Hidx Hlast Hid Hq Hne Ha Hasl Haidx.
  unfold finalizeInterleave in H.
  mstep H as t0 s0 Ht0. apply load_ok in Ht0 as [Ht0 ->].
  rewrite Ht in Ht0. injection Ht0 as <-.
  mstep H as idx0 s0 Hidx0. apply lift_ok in Hidx0 as [Hidx0 ->].
  rewrite Hidx in Hidx0. injection Hidx0 as <-.
  rewrite Hlast in H.
  apply Z.eqb_neq in Hid. rewrite Hid in H.
  mstep H as q0 s0 Hq0. rewrite Hq in Hq0. injection Hq0 as <- <-.
  mstep H as a0 s0 Ha0. apply load_ok in Ha0 as [Ha0 ->].
  rewrite Ha in Ha0. injection Ha0 as <-.
  mstep H as asl0 s0 Hasl0. apply lift_ok in Hasl0 as [Hasl0 ->].
  rewrite Hasl in Hasl0. injection Hasl0 as <-.
  mstep H as u1 s1 Hmod. apply modify_ok in Hmod as (a0 & Ha0 & ->).
  rewrite Ha in Ha0. injection Ha0 as <-.
  fold (addInterleavedBy t idx) in *.
  mstep H as u2 s2 Hw. apply write_desc_ok in Hw as (a1 & Ha1 & Hh2 & Hb2 & Hw2).
  cbn in Ha1, Hh2, Hb2, Hw2. rewrite lookup_insert_eq in Ha1. injection Ha1 as <-.
  mstep H as t1 s3 Ht1. apply load_ok in Ht1 as [Ht1 ->].
  rewrite Hh2, lookup_insert_ne in Ht1 by auto. rewrite Ht in Ht1.
  injection Ht1 as <-.
  pose proof (get_index_update_index asl (addInterleavedBy t idx) a aidx Haidx)
    as Hnew.
  exists (update_index asl (addInterleavedBy t idx) a),
         (addInterleavedBy t idx aidx).
  unfold Adding. destruct (State t) eqn:Est.
  - apply mret_ok in H as [_ ->]. exists t. rewrite Hh2, Hb2, Hw2.
    rewrite lookup_insert_eq, lookup_insert_ne by auto.
    split_and!; auto.
    + rewrite Est, <- Est. symmetry. apply set_State_same.
    + intros r Hr1 Hr2. apply lookup_insert_ne. auto.
  - mstep H as u3 s3 Hmod. apply modify_ok in Hmod as (t1 & Ht1 & ->).
    rewrite Hh2, lookup_insert_ne in Ht1 by auto. rewrite Ht in Ht1.
    injection Ht1 as <-.
    apply write_desc_ok in H as (t2 & Ht2 & Hh3 & Hb3 & Hw3).
    cbn in Ht2, Hh3, Hb3, Hw3. rewrite lookup_insert_eq in Ht2. injection Ht2 as <-.
    exists (set_State DescriptorState_PUBLIC t).
    rewrite Hh3, Hb3, Hw3, Hh2, Hb2, Hw2.
    rewrite lookup_insert_eq, lookup_insert_ne, lookup_insert_eq by auto.
    split_and!; auto.
    + intros r Hr1 Hr2. rewrite !lookup_insert_ne by auto. reflexivity.
    + rewrite <- app_assoc. reflexivity.
  - apply mret_ok in H as [_ ->]. exists t. rewrite Hh2, Hb2, Hw2.
    rewrite lookup_insert_eq, lookup_insert_ne by auto.
    split_and!; auto.
    + rewrite Est, <- Est. symmetry. apply set_State_same.
    + intros r Hr1 Hr2. apply lookup_insert_ne. auto.
  - apply mret_ok in H as [_ ->]. exists t. rewrite Hh2, Hb2, Hw2.
    rewrite lookup_insert_eq, lookup_insert_ne by auto.
    split_and!; auto.
    + rewrite Est, <- Est. symmetry. apply set_State_same.
    + intros r Hr1 Hr2. apply lookup_insert_ne. auto.
Qed.


End ExecWrites.


(** * The further properties on the scenarios *)

Section OnScenarios.

#[local] Existing Instance Ref.types.
#[local] Existing Instance Ref.cat.
#[local] Existing Instance Ref.env.
#[local] Existing Instance Ref.benv.

(** The statement about the shape of the constraint on
    CREATE TABLE child (a INT REFERENCES parent (a)). *)
Lemma ResolveFK_constraint_shape_witness :
  constraint_shape (fkSelfResolver Ref.sc 0%nat (Ref.tn "child"))
    (Ref.fk "parent" ["a"%string] ["a"%string] NoAction) 0%nat NewTable
    Ref.evalCtx_old Ref.child (Ref.store_of Ref.child)
    (snd (Ref.resolve_child Ref.child ["a"%string] NoAction ValidationDefault
            Ref.evalCtx_old)).
Proof.
  apply (@ResolveFK_constraint_shape Ref.types Ref.cat
           (fkSelfResolver Ref.sc 0%nat (Ref.tn "child")) 0%nat
           (Ref.fk "parent" ["a"%string] ["a"%string] NoAction) NewTable
           ValidationDefault Ref.evalCtx_old (Ref.store_of Ref.child)).
  - apply run_eq. vm_compute. reflexivity.
  - vm_compute. reflexivity.
Defined.

(** A foreign key of [child] to a table of another database, and to a
    temporary table. *)
Lemma ResolveFK_rejects_other_database_witness :
  (exists e,
     ResolveFK Ref.sc 0%nat (Ref.fk "parent" ["a"%string] ["a"%string] NoAction)
       NewTable ValidationDefault Ref.evalCtx_old (Cases.store_with Cases.remote)
     = (Err e, Cases.store_with Cases.remote)
     /\ GetPGCode e = pgcode.InvalidForeignKey)
  /\ (exists e,
        ResolveFK Ref.sc 0%nat (Ref.fk "parent" ["a"%string] ["a"%string] NoAction)
          NewTable ValidationDefault Ref.evalCtx_old
          (Cases.store_with Cases.scratch)
        = (Err e, Cases.store_with Cases.scratch)
        /\ GetPGCode e = pgcode.InvalidTableDefinition).
Proof.
  split.
  - refine (@ResolveFK_rejects_other_database Ref.types Ref.cat Ref.sc 0%nat
              (Ref.fk "parent" ["a"%string] ["a"%string] NoAction) NewTable
              ValidationDefault Ref.evalCtx_old (Cases.store_with Cases.remote)
              Ref.child [Ref.column 1 "a" Ref.INT8 true] 1%nat Cases.remote
              {| allowCrossDatabaseFKs := false;
                 NoOriginFKIndexes_active := false |} _ _ _ _ _ _).
    + vm_compute. reflexivity.
    + vm_compute. reflexivity.
    + vm_compute. reflexivity.
    + vm_compute. reflexivity.
    + reflexivity.
    + left. split; [vm_compute; discriminate | reflexivity].
  - refine (@ResolveFK_rejects_other_database Ref.types Ref.cat Ref.sc 0%nat
              (Ref.fk "parent" ["a"%string] ["a"%string] NoAction) NewTable
              ValidationDefault Ref.evalCtx_old (Cases.store_with Cases.scratch)
              Ref.child [Ref.column 1 "a" Ref.INT8 true] 1%nat Cases.scratch
              {| allowCrossDatabaseFKs := false;
                 NoOriginFKIndexes_active := false |} _ _ _ _ _ _).
    + vm_compute. reflexivity.
    + vm_compute. reflexivity.
    + vm_compute. reflexivity.
    + vm_compute. reflexivity.
    + reflexivity.
    + right. vm_compute. discriminate.
Defined.

(** CREATE TABLE child (a INT REFERENCES parent (s)): one column on each
    side, INT and STRING. *)
Lemma ResolveFK_arity_and_types_witness :
  Ref.resolve_child Ref.child ["s"%string] NoAction ValidationDefault
    Ref.evalCtx_old
  = (Err (Newf pgcode.DatatypeMismatch
            "type of %q (%s) does not match foreign key %q.%q (%s)"),
     snd (resolveTarget (fkSelfResolver Ref.sc 0%nat (Ref.tn "child")) 0%nat
            (Ref.fk "parent" ["a"%string] ["s"%string] NoAction) NewTable
            Ref.evalCtx_old (Ref.store_of Ref.child)))
  /\ only_state_added 0%nat (Ref.store_of Ref.child)
       (snd (resolveTarget (fkSelfResolver Ref.sc 0%nat (Ref.tn "child")) 0%nat
               (Ref.fk "parent" ["a"%string] ["s"%string] NoAction) NewTable
               Ref.evalCtx_old (Ref.store_of Ref.child))).
Proof.
  apply (ResolveFK_arity_and_types
           (fkSelfResolver Ref.sc 0%nat (Ref.tn "child")) 0%nat
           (Ref.fk "parent" ["a"%string] ["s"%string] NoAction) NewTable
           ValidationDefault Ref.evalCtx_old (Ref.store_of Ref.child)
           [Ref.column 1 "a" Ref.INT8 true] 1%nat _ Ref.parent
           [Ref.column 2 "s" Ref.STRING true]).
  - apply run_eq. vm_compute. reflexivity.
  - vm_compute. reflexivity.
  - vm_compute. reflexivity.
  - intros [_ H]. inversion H as [|? ? ? ? Hty]. vm_compute in Hty. discriminate.
Defined.

(** CREATE TABLE child (a INT CONSTRAINT "primary" REFERENCES parent (a)):
    the name is that of the primary index of [child]. *)
Lemma ResolveFK_duplicate_constraint_name_witness :
  ResolveFK (fkSelfResolver Ref.sc 0%nat (Ref.tn "child")) 0%nat
    (Cases.fk_named "primary" "parent" ["a"%string] ["a"%string]) NewTable
    ValidationDefault Ref.evalCtx_old (Ref.store_of Ref.child)
  = (Err (Newf pgcode.DuplicateObject "duplicate constraint name: %q"),
     snd (resolveTarget (fkSelfResolver Ref.sc 0%nat (Ref.tn "child")) 0%nat
            (Cases.fk_named "primary" "parent" ["a"%string] ["a"%string])
            NewTable Ref.evalCtx_old (Ref.store_of Ref.child)))
  /\ only_state_added 0%nat (Ref.store_of Ref.child)
       (snd (resolveTarget (fkSelfResolver Ref.sc 0%nat (Ref.tn "child")) 0%nat
               (Cases.fk_named "primary" "parent" ["a"%string] ["a"%string])
               NewTable Ref.evalCtx_old (Ref.store_of Ref.child))).
Proof.
  apply (ResolveFK_duplicate_constraint_name
           (fkSelfResolver Ref.sc 0%nat (Ref.tn "child")) 0%nat
           (Cases.fk_named "primary" "parent" ["a"%string] ["a"%string])
           NewTable ValidationDefault Ref.evalCtx_old (Ref.store_of Ref.child)
           [Ref.column 1 "a" Ref.INT8 true] 1%nat _ Ref.parent
           (set_State DescriptorState_ADD Ref.child)
           [Ref.column 1 "a" Ref.INT8 false]
           {[ "primary"%string ]}).
  - apply run_eq. vm_compute. reflexivity.
  - vm_compute. reflexivity.
  - vm_compute. reflexivity.
  - vm_compute. reflexivity.
  - reflexivity.
  - repeat constructor.
  - vm_compute. reflexivity.
  - discriminate.
  - vm_compute. reflexivity.
Defined.

(** ALTER TABLE child ADD FOREIGN KEY (a) REFERENCES parent (a) on a table
    with rows, on a cluster at NoOriginFKIndexes. *)
Lemma ResolveFK_nonempty_table_adds_no_index_witness :
  nonempty_table_outcome (Ref.fk "parent" ["a"%string] ["a"%string] NoAction)
    0%nat Ref.evalCtx_new Ref.child (Ref.store_of Ref.child)
    (fst (Cases.alter_nonempty Ref.evalCtx_new))
    (snd (Cases.alter_nonempty Ref.evalCtx_new)).
Proof.
  apply (ResolveFK_nonempty_table_adds_no_index Ref.sc 0%nat
           (Ref.fk "parent" ["a"%string] ["a"%string] NoAction)
           ValidationDefault).
  - apply run_eq. reflexivity.
  - vm_compute. reflexivity.
Defined.

(** The same statement below NoOriginFKIndexes: [child] has no index on
    (a). *)
Lemma ResolveFK_nonempty_table_requires_index_witness :
  Cases.alter_nonempty Ref.evalCtx_old
  = (Err (Newf pgcode.ForeignKeyViolation
            "foreign key requires an existing index on columns %s"),
     snd (Cases.alter_nonempty Ref.evalCtx_old))
  /\ heap (snd (Cases.alter_nonempty Ref.evalCtx_old))
     = heap (Ref.store_of Ref.child).
Proof.
  eapply (ResolveFK_nonempty_table_requires_index Ref.sc 0%nat
            (Ref.fk "parent" ["a"%string] ["a"%string] NoAction)
            ValidationDefault Ref.evalCtx_old (Ref.store_of Ref.child)
            [Ref.column 1 "a" Ref.INT8 true] 1%nat
            (snd (Cases.alter_nonempty Ref.evalCtx_old))
            [Ref.column 1 "a" Ref.INT8 false] "fk_a_ref_parent"%string
            Ref.child).
  - vm_compute. reflexivity.
  - vm_compute. reflexivity.
  - vm_compute. reflexivity.
  - vm_compute. reflexivity.
  - vm_compute. reflexivity.
  - cbv. reflexivity.
  - vm_compute. reflexivity.
Defined.

(** ALTER TABLE child ADD FOREIGN KEY (a) REFERENCES parent (a) NOT VALID
    on an empty table. *)
Lemma ResolveFK_existing_table_validity_witness :
  queued_with_validity 0%nat ValidationSkip (Ref.store_of Ref.child)
    (snd (Ref.alter_child ValidationSkip)).
Proof.
  apply (ResolveFK_existing_table_validity Ref.sc 0%nat
           (Ref.fk "parent" ["a"%string] ["a"%string] NoAction) EmptyTable
           ValidationSkip Ref.evalCtx_old).
  - discriminate.
  - apply run_eq. vm_compute. reflexivity.
Defined.

(** The same statement with validation, below NoOriginFKIndexes: the index
    on (a) is made. *)
Lemma ResolveFK_empty_table_index_mutation_witness :
  empty_table_outcome (Ref.fk "parent" ["a"%string] ["a"%string] NoAction)
    0%nat Ref.evalCtx_old Ref.child (snd (Ref.alter_child ValidationDefault)).
Proof.
  apply (ResolveFK_empty_table_index_mutation Ref.sc 0%nat
           (Ref.fk "parent" ["a"%string] ["a"%string] NoAction)
           ValidationDefault Ref.evalCtx_old (Ref.store_of Ref.child)).
  - apply run_eq. vm_compute. reflexivity.
  - vm_compute. reflexivity.
Defined.

(** The second foreign key of [child] to [parent]: the object at pointer 1
    is edited, not the one at pointer 3 that the resolver returned. *)
Lemma ResolveFK_edits_recorded_backref_witness :
  recorded_backref_edited 0%nat 1%nat Ref.parent Cases.store_again
    (snd Cases.resolve_again).
Proof.
  apply (ResolveFK_edits_recorded_backref Cases.sc_again 0%nat
           (Ref.fk "parent" ["a"%string] ["a"%string] NoAction)
           ValidationDefault Ref.evalCtx_new Cases.store_again _ Ref.child
           3%nat Ref.parent).
  - apply run_eq. vm_compute. reflexivity.
  - vm_compute. reflexivity.
  - vm_compute. reflexivity.
  - vm_compute. reflexivity.
  - vm_compute. discriminate.
  - vm_compute. reflexivity.
  - vm_compute. reflexivity.
  - discriminate.
Defined.

(** The constraint pass of [child] with two foreign keys. *)
Lemma constraintPass_foreign_keys_in_order_witness :
  foreign_keys_appended Cases.two_keys 0%nat Ref.child
    (Ref.store_of Ref.child) (snd Cases.constraints_child).
Proof.
  apply (constraintPass_foreign_keys_in_order (laws := Ref_laws)
           (benv := Ref.benv)
           (fkSelfResolver Ref.sc 0%nat (Ref.tn "child")) 0%nat
           Ref.evalCtx_new Cases.two_keys ([] : list string)).
  - apply run_eq. vm_compute. reflexivity.
  - vm_compute. reflexivity.
Defined.

(** The reference implementation of AddIndex and of
    AddColumnToFamilyMaybeCreate leaves the columns as they are. *)
Lemma Ref_column_laws : ColumnLaws.
Proof.
  split.
  - intros idx primary t. destruct primary; reflexivity.
  - intros col family create ifNotExists t. reflexivity.
  - intros idx primary t. destruct primary; reflexivity.
  - intros col family create ifNotExists t. reflexivity.
  - intros t t' _. reflexivity.
Qed.

(** The column pass of
    CREATE TABLE t (a INT PRIMARY KEY USING HASH WITH BUCKET_COUNT = 4,
                    b STRING, CHECK (...)). *)
Lemma columnPass_default_exprs_aligned_witness :
  exists st,
    Cases.columns_t = Ok st /\ default_exprs_aligned Cases.defs_t st.
Proof.
  destruct Cases.columns_t as [st| |] eqn:E;
    [|vm_compute in E; discriminate..].
  exists st. split; [reflexivity|].
  exact (columnPass_default_exprs_aligned false false true Ref.all_active 3
           Ref.empty_t Cases.defs_t st E).
Defined.

Lemma columnPass_accepts_only_witness :
  exists st,
    Cases.columns_t = Ok st
    /\ Forall (acceptedDef false false true Ref.all_active Ref.empty_t)
         Cases.defs_t.
Proof.
  destruct Cases.columns_t as [st| |] eqn:E;
    [|vm_compute in E; discriminate..].
  exists st. split; [reflexivity|].
  exact (columnPass_accepts_only (claws := Ref_column_laws) false false true
           Ref.all_active 3 Ref.empty_t Cases.defs_t st E).
Defined.

Lemma columnPass_column_order_witness :
  exists st,
    Cases.columns_t = Ok st /\ columns_appended Ref.empty_t Cases.defs_t st.
Proof.
  destruct Cases.columns_t as [st| |] eqn:E;
    [|vm_compute in E; discriminate..].
  exists st. split; [reflexivity|].
  exact (columnPass_column_order (claws := Ref_column_laws) false false true
           Ref.all_active 3 Ref.empty_t Cases.defs_t st E).
Defined.

(** finalizeInterleave for the primary index of [orders], interleaved in
    [customers]. *)
Lemma finalizeInterleave_back_reference_witness :
  back_reference_installed 0%nat 1%nat
    Ref.orders_built (PrimaryIndex Ref.orders_built) Ref.customers PrimarySlot
    (PrimaryIndex Ref.customers) Ref.store_orders
    (snd (finalizeInterleave (planner := Ref.planner) 0%nat PrimarySlot
            Ref.store_orders)).
Proof.
  apply (finalizeInterleave_back_reference (planner := Ref.planner) 0%nat
           PrimarySlot Ref.store_orders _ Ref.orders_built
           (PrimaryIndex Ref.orders_built)
           {| anc_TableID := 61; anc_IndexID := 1; anc_SharedPrefixLen := 1 |}
           1%nat Ref.customers PrimarySlot (PrimaryIndex Ref.customers)).
  - apply run_eq. vm_compute. reflexivity.
  - vm_compute. reflexivity.
  - vm_compute. reflexivity.
  - vm_compute. reflexivity.
  - vm_compute. discriminate.
  - vm_compute. reflexivity.
  - discriminate.
  - vm_compute. reflexivity.
  - vm_compute. reflexivity.
  - reflexivity.
Defined.


End OnScenarios.
